(** * Token lifecycle of the habit-tracker backend

    A shallow embedding of the authentication core: the two tables the
    models write (users, refresh_tokens), the SQL statements of
    [UserModel] and [RefreshTokenModel], the helpers of utils/auth, the
    two middlewares and the five handlers of [AuthController].

    A handler is a program over three effects: a statement sent to the
    pool, a reading of the clock and a draw of random bytes.  Every
    [await] on the pool is a point where another request may run, so a
    program can be run to completion ([run]) or one effect at a time
    ([step], [interleave]).  Console output is left out, and so is the
    rate limiter in front of the routes. *)

From Stdlib Require Import ZArith List String Ascii Bool Lia Permutation Sorted.
From Stdlib Require HexString.
Import ListNotations.

Local Open Scope Z_scope.
Local Open Scope string_scope.
Local Open Scope list_scope.

Set Implicit Arguments.
Set Warnings "-register-all".

(** ** JavaScript values, errors and completions *)

(** A [Date] is its time value, milliseconds since the epoch. *)
Definition Date := Z.

Record JsError := mkError { err_name : string; err_message : string }.

(** How the evaluation of an expression ends: with a value, or with a
    thrown error. *)
Inductive Completion (A : Type) : Type :=
| Normal (a : A)
| Abrupt (e : JsError).

Arguments Normal {A} a.
Arguments Abrupt {A} e.

(** What [req.body] may hold once the body parser has run. *)
Inductive JsValue : Type :=
| JsUndefined
| JsNull
| JsBoolean (b : bool)
| JsNumber (z : Z)
| JsString (s : string)
| JsObject (props : list (string * JsValue)).

Fixpoint assoc {A : Type} (k : string) (l : list (string * A)) : option A :=
  match l with
  | [] => None
  | (k', v) :: l' => if k' =? k then Some v else assoc k l'
  end.

(** [value.key]; reading a property of [undefined] or [null] throws. *)
Definition js_get (v : JsValue) (k : string) : Completion JsValue :=
  match v with
  | JsUndefined | JsNull =>
      Abrupt (mkError "TypeError" "Cannot destructure property")
  | JsObject props =>
      match assoc k props with
      | Some x => Normal x
      | None => Normal JsUndefined
      end
  | _ => Normal JsUndefined
  end.

(** [if (v)]: the truthiness of a value. *)
Definition truthy (v : JsValue) : bool :=
  match v with
  | JsUndefined | JsNull => false
  | JsBoolean b => b
  | JsNumber z => negb (z =? 0)%Z
  | JsString s => negb (s =? "")
  | JsObject _ => true
  end.

(** ** Persisted rows (types/auth) *)

Module User.
Record t := mk {
  id : Z;
  email : string;
  password_hash : string;
  created_at : Date;
  updated_at : Date
}.
End User.

Module RefreshToken.
Record t := mk {
  id : Z;
  user_id : Z;
  token_hash : string;
  expires_at : Date;
  created_at : Date;
  revoked_at : option Date
}.
End RefreshToken.

(** The database: both tables in scan order, and the last value each
    SERIAL sequence handed out. *)
Record Db := mkDb {
  users : list User.t;
  refresh_tokens : list RefreshToken.t;
  users_id_seq : Z;
  refresh_tokens_id_seq : Z
}.

Definition with_users (us : list User.t) (seq : Z) (d : Db) : Db :=
  mkDb us (refresh_tokens d) seq (refresh_tokens_id_seq d).

Definition with_refresh_tokens (ts : list RefreshToken.t) (seq : Z) (d : Db) : Db :=
  mkDb (users d) ts (users_id_seq d) seq.

(** ** Programs *)

(** [PoolQuery] is one statement handed to [pool.query]: the database
    runs it atomically at its own [NOW()].  The continuation receives the
    completion, so that a failing statement can be caught. *)
Inductive Prog (A : Type) : Type :=
| Ret (a : A)
| Throw (e : JsError)
| PoolQuery {R : Type} (sql : Date -> Db -> Db * Completion R) (k : Completion R -> Prog A)
| DateNow (k : Date -> Prog A)
| RandomBytes (k : string -> Prog A).

Arguments Ret {A} a.
Arguments Throw {A} e.
Arguments PoolQuery {A R} sql k.
Arguments DateNow {A} k.
Arguments RandomBytes {A} k.

Definition complete {A : Type} (c : Completion A) : Prog A :=
  match c with
  | Normal a => Ret a
  | Abrupt e => Throw e
  end.

Fixpoint bind {A B : Type} (p : Prog A) (f : A -> Prog B) : Prog B :=
  match p with
  | Ret a => f a
  | Throw e => Throw e
  | PoolQuery sql k => PoolQuery sql (fun c => bind (k c) f)
  | DateNow k => DateNow (fun t => bind (k t) f)
  | RandomBytes k => RandomBytes (fun s => bind (k s) f)
  end.

(** [try { p } catch (error) { h error }] *)
Fixpoint try_catch {A : Type} (p : Prog A) (h : JsError -> Prog A) : Prog A :=
  match p with
  | Ret a => Ret a
  | Throw e => h e
  | PoolQuery sql k => PoolQuery sql (fun c => try_catch (k c) h)
  | DateNow k => DateNow (fun t => try_catch (k t) h)
  | RandomBytes k => RandomBytes (fun s => try_catch (k s) h)
  end.

Declare Scope prog_scope.
Delimit Scope prog_scope with prog.
Notation "x <- p ;; q" := (bind p (fun x => q))
  (at level 100, p at next level, right associativity) : prog_scope.
Notation "p ;; q" := (bind p (fun _ => q))
  (at level 100, right associativity) : prog_scope.
Local Open Scope prog_scope.

(** [await pool.query(...)]: the statement's rows, or its error thrown. *)
Definition query {R : Type} (sql : Date -> Db -> Db * Completion R) : Prog R :=
  PoolQuery sql complete.

Definition date_now : Prog Date := DateNow Ret.

Definition random_bytes_hex : Prog string := RandomBytes Ret.

(** ** The world a program runs in *)

(** The database, and how many clock readings and random draws have been
    consumed so far. *)
Record World := mkWorld {
  db : Db;
  ticks : nat;
  draws : nat
}.

(** The parts of a signed token: header, claims and signature. *)
Module Jose.
Record Header := mkHeader { alg : string; typ : string }.
Record Claims := mkClaims {
  userId : Z;
  email : string;
  iat : option Z;
  exp : option Z;
  nbf : option Z;
  aud : list string;
  iss : option string
}.
Record Jws := mkJws { header : Header; payload : Claims; signature : string }.
End Jose.

(** The rules a Joi string key is declared with. *)
Inductive JoiRule : Type :=
| joi_email
| joi_required
| joi_max (n : Z)
| joi_min (n : Z).

Definition JoiObject := list (string * list JoiRule).

(** What lies outside the repository: the process environment, the wall
    clock, the entropy source, and the npm packages the code calls
    (crypto, argon2, jsonwebtoken with ms, Joi). *)
Class Runtime := {
  (** [process.env.NAME] *)
  process_env : string -> option string;
  (** the n-th reading of the clock, by [NOW()] or [Date.now()] *)
  clock : nat -> Date;
  (** the n-th draw of [crypto.randomBytes], in hex *)
  entropy : nat -> string;
  (** [crypto.createHash('sha256').update(s).digest('hex')] *)
  sha256_hex : string -> string;
  (** [argon2.hash(password, options)] with the salt it drew *)
  argon2_hash : string -> string -> Completion string;
  (** [argon2.verify(digest, password)] *)
  argon2_verify : string -> string -> Completion bool;
  (** the HMAC of a signing input under an algorithm and a key *)
  hmac : string -> string -> Jose.Header * Jose.Claims -> string;
  (** the compact serialization of a signed token, and its parser *)
  jws_encode : Jose.Jws -> string;
  jws_decode : string -> option Jose.Jws;
  (** the ms package: a time span in milliseconds *)
  ms : string -> option Z;
  (** [schema.validate(body)]: the messages of the error, or the value's
      string keys *)
  Joi_validate : JoiObject -> JsValue -> list string + (string -> string)
}.

Section Running.
Context {RT : Runtime}.

Definition tick (d : Db) (w : World) : World :=
  mkWorld d (S (ticks w)) (draws w).

Definition draw (w : World) : World :=
  mkWorld (db w) (ticks w) (S (draws w)).

(** The next reading of the clock. *)
Definition now (w : World) : Date := clock (ticks w).

(** One effect of a program; a finished program stays as it is. *)
Definition step {A : Type} (p : Prog A) (w : World) : Prog A * World :=
  match p with
  | Ret _ | Throw _ => (p, w)
  | PoolQuery sql k =>
      let (d, c) := sql (now w) (db w) in (k c, tick d w)
  | DateNow k => (k (now w), tick (db w) w)
  | RandomBytes k => (k (entropy (draws w)), draw w)
  end.

(** The first [n] effects of a program. *)
Fixpoint steps {A : Type} (n : nat) (p : Prog A) (w : World) : Prog A * World :=
  match n with
  | O => (p, w)
  | S n' => let (p', w') := step p w in steps n' p' w'
  end.

(** A program run to its end without interruption. *)
Fixpoint run {A : Type} (p : Prog A) (w : World) : World * Completion A :=
  match p with
  | Ret a => (w, Normal a)
  | Throw e => (w, Abrupt e)
  | PoolQuery sql k =>
      let (d, c) := sql (now w) (db w) in run (k c) (tick d w)
  | DateNow k => run (k (now w)) (tick (db w) w)
  | RandomBytes k => run (k (entropy (draws w))) (draw w)
  end.

(** Two requests in flight.  The schedule says whose effect runs next
    ([true]: the first request); when it is used up the first request
    runs to its end, then the second. *)
Fixpoint interleave {A B : Type} (schedule : list bool) (p : Prog A) (q : Prog B)
    (w : World) : World * Completion A * Completion B :=
  match schedule with
  | [] =>
      let (w1, a) := run p w in
      let (w2, b) := run q w1 in
      (w2, a, b)
  | true :: s => let (p', w') := step p w in interleave s p' q w'
  | false :: s => let (q', w') := step q w in interleave s p q' w'
  end.

End Running.

(** ** The jsonwebtoken package, as far as the code uses it

    Not part of the repository: [sign] and [verify] are written after the
    package's documented behaviour for a string secret and the options
    [expiresIn], [issuer] and [audience].  Signing input, HMAC and the
    compact serialization stay in [Runtime]. *)

Module jwt.
Section Jwt.
Context {RT : Runtime}.

Record SignOptions := mkSignOptions {
  expiresIn : string;
  sign_issuer : string;
  sign_audience : string
}.

Record VerifyOptions := mkVerifyOptions {
  issuer : string;
  audience : string
}.

Definition JsonWebTokenError (m : string) : JsError := mkError "JsonWebTokenError" m.
Definition TokenExpiredError : JsError := mkError "TokenExpiredError" "jwt expired".
Definition NotBeforeError : JsError := mkError "NotBeforeError" "jwt not active".

(** The HMAC algorithms [verify] accepts for a string secret. *)
Definition hs_algorithms : list string := ["HS256"; "HS384"; "HS512"].

Definition mem (s : string) (l : list string) : bool :=
  existsb (String.eqb s) l.

(** The token [sign] builds at [timestamp] (seconds) for a span in
    milliseconds: [iat] is the timestamp, [exp] the timestamp plus the
    span, and the signature is the HS256 HMAC under the secret. *)
Definition signed (userId : Z) (email : string) (secret : string) (o : SignOptions)
    (timestamp milliseconds : Z) : Jose.Jws :=
  let header := Jose.mkHeader "HS256" "JWT" in
  let claims :=
    Jose.mkClaims userId email (Some timestamp)
      (Some (timestamp + milliseconds / 1000)) None
      [sign_audience o] (Some (sign_issuer o)) in
  Jose.mkJws header claims (hmac "HS256" secret (header, claims)).

(** [jwt.sign(payload, secret, options)] for a payload [{userId, email}]. *)
Definition sign (userId : Z) (email : string) (secret : string) (o : SignOptions)
    : Prog string :=
  if secret =? "" then Throw (mkError "Error" "secretOrPrivateKey must have a value")
  else
    t <- date_now ;;
    let timestamp := t / 1000 in
    match ms (expiresIn o) with
    | None =>
        Throw (mkError "Error"
          "expiresIn should be a number of seconds or string representing a timespan")
    | Some milliseconds =>
        Ret (jws_encode (signed userId email secret o timestamp milliseconds))
    end.

(** The checks of [verify] once the clock has been read, in the order
    the package makes them. *)
Definition verify_at (clockTimestamp : Z) (token secret : string) (o : VerifyOptions)
    : Completion Jose.Claims :=
  if token =? "" then Abrupt (JsonWebTokenError "jwt must be provided")
  else
    match jws_decode token with
    | None => Abrupt (JsonWebTokenError "jwt malformed")
    | Some j =>
        let h := Jose.header j in
        let c := Jose.payload j in
        if Jose.signature j =? "" then
          Abrupt (JsonWebTokenError "jwt signature is required")
        else if secret =? "" then
          Abrupt (JsonWebTokenError "secret or public key must be provided")
        else if negb (mem (Jose.alg h) hs_algorithms) then
          Abrupt (JsonWebTokenError "invalid algorithm")
        else if negb (Jose.signature j =? hmac (Jose.alg h) secret (h, c)) then
          Abrupt (JsonWebTokenError "invalid signature")
        else if match Jose.nbf c with
                | Some n => (clockTimestamp <? n)%Z
                | None => false
                end then
          Abrupt NotBeforeError
        else if match Jose.exp c with
                | Some e => (e <=? clockTimestamp)%Z
                | None => false
                end then
          Abrupt TokenExpiredError
        else if negb (mem (audience o) (Jose.aud c)) then
          Abrupt (JsonWebTokenError "jwt audience invalid")
        else if negb match Jose.iss c with
                     | Some i => i =? issuer o
                     | None => false
                     end then
          Abrupt (JsonWebTokenError "jwt issuer invalid")
        else Normal c
    end.

(** [jwt.verify(token, secret, options)], synchronous: it throws. *)
Definition verify (token secret : string) (o : VerifyOptions) : Prog Jose.Claims :=
  t <- date_now ;;
  complete (verify_at (t / 1000) token secret o).

End Jwt.
End jwt.

(** ** utils/auth *)

Section Utils.
Context {RT : Runtime}.

(** [process.env.NAME || fallback]: an empty string is falsy. *)
Definition env_or (name fallback : string) : string :=
  match process_env name with
  | Some s => if s =? "" then fallback else s
  | None => fallback
  end.

Definition JWT_SECRET : string := env_or "JWT_SECRET" "fallback-secret-change-this".
Definition REFRESH_TOKEN_SECRET : string :=
  env_or "REFRESH_TOKEN_SECRET" "fallback-refresh-secret-change-this".
Definition JWT_EXPIRES_IN : string := env_or "JWT_EXPIRES_IN" "15m".
Definition REFRESH_TOKEN_EXPIRES_IN : string := env_or "REFRESH_TOKEN_EXPIRES_IN" "7d".

(** argon2 draws the salt itself. *)
Definition hashPassword (password : string) : Prog string :=
  salt <- random_bytes_hex ;;
  complete (argon2_hash password salt).

Definition verifyPassword (hash password : string) : Prog bool :=
  try_catch (complete (argon2_verify hash password)) (fun _ => Ret false).

(** [Omit<JWTPayload, 'iat' | 'exp'>] *)
Record JWTPayloadIn := mkPayloadIn { in_userId : Z; in_email : string }.

(** The options [generateAccessToken] passes. *)
Definition sign_options : jwt.SignOptions :=
  jwt.mkSignOptions JWT_EXPIRES_IN "habit-tracker" "habit-tracker-users".

Definition generateAccessToken (payload : JWTPayloadIn) : Prog string :=
  jwt.sign (in_userId payload) (in_email payload) JWT_SECRET sign_options.

(** The options [verifyAccessToken] passes. *)
Definition access_options : jwt.VerifyOptions :=
  jwt.mkVerifyOptions "habit-tracker" "habit-tracker-users".

Definition verifyAccessToken (token : string) : Prog (option Jose.Claims) :=
  try_catch
    (p <- jwt.verify token JWT_SECRET access_options ;;
     Ret (Some p))
    (fun _ => Ret None).

Definition generateRefreshToken : Prog string := random_bytes_hex.

Definition hashRefreshToken (token : string) : Prog string :=
  Ret (sha256_hex token).

Definition is_digit (c : ascii) : bool :=
  ((48 <=? N_of_ascii c) && (N_of_ascii c <=? 57))%N.

Definition is_upper (c : ascii) : bool :=
  ((65 <=? N_of_ascii c) && (N_of_ascii c <=? 90))%N.

Definition is_lower (c : ascii) : bool :=
  ((97 <=? N_of_ascii c) && (N_of_ascii c <=? 122))%N.

(** [\s] among the code units below 256. *)
Definition is_space (c : ascii) : bool :=
  let n := N_of_ascii c in
  (((9 <=? n) && (n <=? 13)) || (n =? 32) || (n =? 160))%N.

Fixpoint string_exists (f : ascii -> bool) (s : string) : bool :=
  match s with
  | EmptyString => false
  | String c s' => f c || string_exists f s'
  end.

Fixpoint string_forall (f : ascii -> bool) (s : string) : bool :=
  match s with
  | EmptyString => true
  | String c s' => f c && string_forall f s'
  end.

(** [parseInt] of a run of decimal digits. *)
Fixpoint digits_value (s : string) (acc : Z) : Z :=
  match s with
  | EmptyString => acc
  | String c s' => digits_value s' (10 * acc + (Z.of_N (N_of_ascii c) - 48))
  end.

(** A non-empty string as its front and its last code unit. *)
Fixpoint split_last (s : string) : option (string * ascii) :=
  match s with
  | EmptyString => None
  | String c s' =>
      match split_last s' with
      | None => Some (EmptyString, c)
      | Some (front, l) => Some (String c front, l)
      end
  end.

(** The regular expression [^(\d+)([smhd])$] and the switch on the unit. *)
Definition parseExpiry (expiry : string) : Completion Z :=
  let invalid := Abrupt (mkError "Error" ("Invalid expiry format: " ++ expiry)) in
  match split_last expiry with
  | Some (String d ds, unit) =>
      if string_forall is_digit (String d ds) then
        let value := digits_value (String d ds) 0 in
        if Ascii.eqb unit "s" then Normal (value * 1000)
        else if Ascii.eqb unit "m" then Normal (value * 60 * 1000)
        else if Ascii.eqb unit "h" then Normal (value * 60 * 60 * 1000)
        else if Ascii.eqb unit "d" then Normal (value * 24 * 60 * 60 * 1000)
        else invalid
      else invalid
  | _ => invalid
  end.

Definition getRefreshTokenExpiry : Prog Date :=
  expiryMs <- complete (parseExpiry REFRESH_TOKEN_EXPIRES_IN) ;;
  t <- date_now ;;
  Ret (t + expiryMs).

(** The text before the first ["@"] and the text after it. *)
Fixpoint split_at_sign (s : string) : option (string * string) :=
  match s with
  | EmptyString => None
  | String c s' =>
      if Ascii.eqb c "@" then Some (EmptyString, s')
      else match split_at_sign s' with
           | Some (a, b) => Some (String c a, b)
           | None => None
           end
  end.

(** A ["."] that is not the last code unit. *)
Fixpoint dot_before_last (s : string) : bool :=
  match s with
  | EmptyString => false
  | String c s' =>
      match s' with
      | EmptyString => false
      | _ => Ascii.eqb c "." || dot_before_last s'
      end
  end.

Definition local_char (c : ascii) : bool := negb (is_space c || Ascii.eqb c "@").

(** The regular expression [^[^\s@]+@[^\s@]+\.[^\s@]+$]: one ["@"], no
    white space, a non-empty local part, and a domain with a dot strictly
    inside it. *)
Definition validateEmail (email : string) : bool :=
  match split_at_sign email with
  | Some (String a l, String b d) =>
      string_forall local_char (String a l)
      && string_forall local_char (String b d)
      && dot_before_last d
  | _ => false
  end.

Record PasswordValidation := mkValidation { valid : bool; errors : list string }.

Definition validatePassword (password : string) : PasswordValidation :=
  let errors :=
    (if (Z.of_nat (String.length password) <? 8)%Z
     then ["Password must be at least 8 characters long"] else [])
    ++ (if string_exists is_upper password then []
        else ["Password must contain at least one uppercase letter"])
    ++ (if string_exists is_lower password then []
        else ["Password must contain at least one lowercase letter"])
    ++ (if string_exists is_digit password then []
        else ["Password must contain at least one number"]) in
  mkValidation (match errors with [] => true | _ => false end) errors.

End Utils.

(** ** models/User *)

Module UserModel.

Definition unique_violation : JsError :=
  mkError "error" "duplicate key value violates unique constraint users_email_key".

(** Modelled from the spec: the migration that creates the users table
    is missing from the sources.  The spec gives Account{id, email
    (unique), passwordHash, createdAt, updatedAt} with uniqueness
    enforced at the store boundary, and the README's schema agrees:
    [id SERIAL PRIMARY KEY], [email UNIQUE NOT NULL], both timestamps
    [DEFAULT NOW()].

    INSERT INTO users (email, password_hash) VALUES ($1, $2) RETURNING ...
    The sequence moves on even when the row is refused. *)
Definition create_sql (email passwordHash : string) (now : Date) (d : Db)
    : Db * Completion User.t :=
  let id := users_id_seq d + 1 in
  if existsb (fun u => User.email u =? email) (users d) then
    (with_users (users d) id d, Abrupt unique_violation)
  else
    let row := User.mk id email passwordHash now now in
    (with_users (users d ++ [row]) id d, Normal row).

(** [result.rows[0] || null] of SELECT ... FROM users WHERE email = $1 *)
Definition row_by_email (email : string) (d : Db) : option User.t :=
  hd_error (filter (fun u => User.email u =? email) (users d)).

Definition findByEmail_sql (email : string) (now : Date) (d : Db)
    : Db * Completion (option User.t) :=
  (d, Normal (row_by_email email d)).

(** [result.rows[0] || null] of SELECT ... FROM users WHERE id = $1 *)
Definition row_by_id (id : Z) (d : Db) : option User.t :=
  hd_error (filter (fun u => (User.id u =? id)%Z) (users d)).

Definition findById_sql (id : Z) (now : Date) (d : Db)
    : Db * Completion (option User.t) :=
  (d, Normal (row_by_id id d)).

(** UPDATE users SET password_hash = $1, updated_at = NOW() WHERE id = $2 *)
Definition updatePassword_sql (id : Z) (passwordHash : string) (now : Date) (d : Db)
    : Db * Completion unit :=
  (with_users
     (map (fun u =>
             if (User.id u =? id)%Z
             then User.mk (User.id u) (User.email u) passwordHash (User.created_at u) now
             else u)
          (users d))
     (users_id_seq d) d,
   Normal tt).

(** DELETE FROM users WHERE id = $1; refresh_tokens.user_id is declared
    ON DELETE CASCADE. *)
Definition delete_sql (id : Z) (now : Date) (d : Db) : Db * Completion unit :=
  (mkDb (filter (fun u => negb (User.id u =? id)%Z) (users d))
        (filter (fun r => negb (RefreshToken.user_id r =? id)%Z) (refresh_tokens d))
        (users_id_seq d) (refresh_tokens_id_seq d),
   Normal tt).

Definition create (email passwordHash : string) : Prog User.t :=
  query (create_sql email passwordHash).

Definition findByEmail (email : string) : Prog (option User.t) :=
  query (findByEmail_sql email).

Definition findById (id : Z) : Prog (option User.t) :=
  query (findById_sql id).

Definition updatePassword (id : Z) (passwordHash : string) : Prog unit :=
  query (updatePassword_sql id passwordHash).

Definition delete (id : Z) : Prog unit :=
  query (delete_sql id).

End UserModel.

(** ** models/RefreshToken *)

Module RefreshTokenModel.

Definition is_null {A : Type} (o : option A) : bool :=
  match o with
  | None => true
  | Some _ => false
  end.

Definition foreign_key_violation : JsError :=
  mkError "error" "insert on table refresh_tokens violates foreign key constraint".

(** INSERT INTO refresh_tokens (user_id, token_hash, expires_at)
    VALUES ($1, $2, $3) RETURNING ...; [created_at] defaults to NOW(),
    [revoked_at] to NULL, and [user_id] REFERENCES users(id). *)
Definition create_sql (userId : Z) (tokenHash : string) (expiresAt : Date)
    (now : Date) (d : Db) : Db * Completion RefreshToken.t :=
  let id := refresh_tokens_id_seq d + 1 in
  if existsb (fun u => (User.id u =? userId)%Z) (users d) then
    let row := RefreshToken.mk id userId tokenHash expiresAt now None in
    (with_refresh_tokens (refresh_tokens d ++ [row]) id d, Normal row)
  else
    (with_refresh_tokens (refresh_tokens d) id d, Abrupt foreign_key_violation).

(** WHERE token_hash = $1 AND revoked_at IS NULL AND expires_at > NOW() *)
Definition active_with_hash (tokenHash : string) (now : Date) (r : RefreshToken.t) : bool :=
  (RefreshToken.token_hash r =? tokenHash)
  && is_null (RefreshToken.revoked_at r)
  && (now <? RefreshToken.expires_at r)%Z.

(** [result.rows[0] || null] of SELECT ... FROM refresh_tokens WHERE ... *)
Definition active_row (tokenHash : string) (now : Date) (d : Db) : option RefreshToken.t :=
  hd_error (filter (active_with_hash tokenHash now) (refresh_tokens d)).

Definition findByTokenHash_sql (tokenHash : string) (now : Date) (d : Db)
    : Db * Completion (option RefreshToken.t) :=
  (d, Normal (active_row tokenHash now d)).

Definition set_revoked_at (now : Date) (r : RefreshToken.t) : RefreshToken.t :=
  RefreshToken.mk (RefreshToken.id r) (RefreshToken.user_id r)
    (RefreshToken.token_hash r) (RefreshToken.expires_at r)
    (RefreshToken.created_at r) (Some now).

(** UPDATE refresh_tokens SET revoked_at = NOW() over the rows a WHERE
    clause selects. *)
Definition update_revoked_at (where_ : RefreshToken.t -> bool) (now : Date)
    (rows : list RefreshToken.t) : list RefreshToken.t :=
  map (fun r => if where_ r then set_revoked_at now r else r) rows.

(** UPDATE refresh_tokens SET revoked_at = NOW() WHERE id = $1 *)
Definition revoke_sql (id : Z) (now : Date) (d : Db) : Db * Completion unit :=
  (with_refresh_tokens
     (update_revoked_at (fun r => (RefreshToken.id r =? id)%Z) now (refresh_tokens d))
     (refresh_tokens_id_seq d) d,
   Normal tt).

(** UPDATE ... WHERE user_id = $1 AND revoked_at IS NULL *)
Definition revokeAllForUser_sql (userId : Z) (now : Date) (d : Db)
    : Db * Completion unit :=
  (with_refresh_tokens
     (update_revoked_at
        (fun r => (RefreshToken.user_id r =? userId)%Z
                  && is_null (RefreshToken.revoked_at r))
        now (refresh_tokens d))
     (refresh_tokens_id_seq d) d,
   Normal tt).

(** ORDER BY created_at DESC, as an insertion sort; rows created at the
    same instant keep their scan order (SQL leaves their order open). *)
Fixpoint insert_desc (r : RefreshToken.t) (l : list RefreshToken.t) : list RefreshToken.t :=
  match l with
  | [] => [r]
  | x :: l' =>
      if (RefreshToken.created_at x <=? RefreshToken.created_at r)%Z
      then r :: l
      else x :: insert_desc r l'
  end.

Definition order_by_created_at_desc (rows : list RefreshToken.t) : list RefreshToken.t :=
  fold_right insert_desc [] rows.

(** WHERE user_id = $1 AND revoked_at IS NULL AND expires_at > NOW() *)
Definition active_of_user (userId : Z) (now : Date) (r : RefreshToken.t) : bool :=
  (RefreshToken.user_id r =? userId)%Z
  && is_null (RefreshToken.revoked_at r)
  && (now <? RefreshToken.expires_at r)%Z.

(** SELECT ... WHERE ... ORDER BY created_at DESC; [result.rows] *)
Definition findActiveByUserId_sql (userId : Z) (now : Date) (d : Db)
    : Db * Completion (list RefreshToken.t) :=
  (d, Normal (order_by_created_at_desc
                (filter (active_of_user userId now) (refresh_tokens d)))).

(** DELETE FROM refresh_tokens WHERE expires_at < NOW() OR revoked_at IS
    NOT NULL; [result.rowCount || 0] *)
Definition cleanupExpired_sql (now : Date) (d : Db) : Db * Completion Z :=
  let gone r :=
    (RefreshToken.expires_at r <? now)%Z || negb (is_null (RefreshToken.revoked_at r)) in
  (with_refresh_tokens (filter (fun r => negb (gone r)) (refresh_tokens d))
     (refresh_tokens_id_seq d) d,
   Normal (Z.of_nat (List.length (filter gone (refresh_tokens d))))).

(** UPDATE ... WHERE token_hash = $1 AND revoked_at IS NULL RETURNING id;
    [(result.rowCount || 0) > 0] *)
Definition revokeByTokenHash_sql (tokenHash : string) (now : Date) (d : Db)
    : Db * Completion bool :=
  let where_ r :=
    (RefreshToken.token_hash r =? tokenHash) && is_null (RefreshToken.revoked_at r) in
  (with_refresh_tokens (update_revoked_at where_ now (refresh_tokens d))
     (refresh_tokens_id_seq d) d,
   Normal (0 <? Z.of_nat (List.length (filter where_ (refresh_tokens d))))%Z).

Definition create (userId : Z) (tokenHash : string) (expiresAt : Date)
    : Prog RefreshToken.t :=
  query (create_sql userId tokenHash expiresAt).

Definition findByTokenHash (tokenHash : string) : Prog (option RefreshToken.t) :=
  query (findByTokenHash_sql tokenHash).

Definition revoke (id : Z) : Prog unit :=
  query (revoke_sql id).

Definition revokeAllForUser (userId : Z) : Prog unit :=
  query (revokeAllForUser_sql userId).

Definition findActiveByUserId (userId : Z) : Prog (list RefreshToken.t) :=
  query (findActiveByUserId_sql userId).

Definition cleanupExpired : Prog Z :=
  query cleanupExpired_sql.

Definition revokeByTokenHash (tokenHash : string) : Prog bool :=
  query (revokeByTokenHash_sql tokenHash).

End RefreshTokenModel.

(** ** Requests and responses *)

Record AuthUser := mkAuthUser { auth_id : Z; auth_email : string }.

(** What the handlers read of an [AuthenticatedRequest]. *)
Record Request := mkRequest {
  authorization : option string;
  body : JsValue;
  user : option AuthUser
}.

(** One element of the session listing. *)
Record Session := mkSession { session_id : Z; createdAt : Date; expiresAt : Date }.

(** The JSON documents the handlers send. *)
Inductive ResBody : Type :=
| ErrorBody (error : string) (details : option (list string)) (code : string)
| AuthBody (message accessToken refreshToken : string) (account : AuthUser)
| MessageBody (message : string)
| SessionsBody (sessions : list Session) (total : Z).

(** [res.status(s).json(b)] *)
Record Response := mkResponse { status : Z; json : ResBody }.

Definition res_code (r : Response) : option string :=
  match json r with
  | ErrorBody _ _ code => Some code
  | _ => None
  end.

Definition res_refreshToken (r : Response) : option string :=
  match json r with
  | AuthBody _ _ refreshToken _ => Some refreshToken
  | _ => None
  end.

Definition res_accessToken (r : Response) : option string :=
  match json r with
  | AuthBody _ accessToken _ _ => Some accessToken
  | _ => None
  end.

(** ** middleware/auth *)

Section Middleware.
Context {RT : Runtime}.

Definition missing_token : Response :=
  mkResponse 401 (ErrorBody "Access token required" None "MISSING_TOKEN").
Definition invalid_token : Response :=
  mkResponse 401 (ErrorBody "Invalid or expired token" None "INVALID_TOKEN").
Definition user_not_found : Response :=
  mkResponse 401 (ErrorBody "User not found" None "USER_NOT_FOUND").
Definition auth_error : Response :=
  mkResponse 500 (ErrorBody "Authentication error" None "AUTH_ERROR").

(** The header's token when the header starts with ["Bearer "]. *)
Definition bearer (req : Request) : option string :=
  match authorization req with
  | Some authHeader =>
      if String.prefix "Bearer " authHeader
      then Some (String.substring 7 (String.length authHeader - 7) authHeader)
      else None
  | None => None
  end.

Definition attach (req : Request) (u : User.t) : Request :=
  mkRequest (authorization req) (body req) (Some (mkAuthUser (User.id u) (User.email u))).

(** Either a response is sent ([inl]), or [next()] is called with the
    request ([inr]). *)
Definition requireAuth (req : Request) : Prog (Response + Request) :=
  try_catch
    (match bearer req with
     | None => Ret (inl missing_token)
     | Some token =>
         payload <- verifyAccessToken token ;;
         match payload with
         | None => Ret (inl invalid_token)
         | Some payload =>
             (* Verify user still exists *)
             user <- UserModel.findById (Jose.userId payload) ;;
             match user with
             | None => Ret (inl user_not_found)
             | Some user => Ret (inr (attach req user))
             end
         end
     end)
    (fun _ => Ret (inl auth_error)).

(** [optionalAuth] always calls [next()]. *)
Definition optionalAuth (req : Request) : Prog Request :=
  try_catch
    (match bearer req with
     | None => Ret req
     | Some token =>
         payload <- verifyAccessToken token ;;
         match payload with
         | Some payload =>
             user <- UserModel.findById (Jose.userId payload) ;;
             match user with
             | Some user => Ret (attach req user)
             | None => Ret req
             end
         | None => Ret req
         end
     end)
    (fun _ => Ret req).

End Middleware.

(** ** controllers/authController *)

Module AuthController.
Section Handlers.
Context {RT : Runtime}.

Definition registerSchema : JoiObject :=
  [("email", [joi_email; joi_required; joi_max 255]);
   ("password", [joi_required; joi_min 8; joi_max 128])].

Definition loginSchema : JoiObject :=
  [("email", [joi_email; joi_required]);
   ("password", [joi_required])].

Definition refreshSchema : JoiObject :=
  [("refreshToken", [joi_required])].

Definition validation_failed (details : list string) : Response :=
  mkResponse 400 (ErrorBody "Validation failed" (Some details) "VALIDATION_ERROR").
Definition invalid_email : Response :=
  mkResponse 400 (ErrorBody "Invalid email format" None "INVALID_EMAIL").
Definition weak_password (details : list string) : Response :=
  mkResponse 400
    (ErrorBody "Password does not meet requirements" (Some details) "WEAK_PASSWORD").
Definition user_exists : Response :=
  mkResponse 409 (ErrorBody "User already exists with this email" None "USER_EXISTS").
Definition invalid_credentials : Response :=
  mkResponse 401 (ErrorBody "Invalid credentials" None "INVALID_CREDENTIALS").
Definition invalid_refresh_token : Response :=
  mkResponse 401 (ErrorBody "Invalid refresh token" None "INVALID_REFRESH_TOKEN").
Definition auth_required : Response :=
  mkResponse 401 (ErrorBody "Authentication required" None "AUTH_REQUIRED").
Definition internal_error : Response :=
  mkResponse 500 (ErrorBody "Internal server error" None "INTERNAL_ERROR").

(** The statements [register], [login] and [refresh] all end with, written
    once: sign an access token, draw a refresh secret, store its hash
    with its expiry, answer with both. *)
Definition issue_tokens (status : Z) (message : string) (user : User.t) : Prog Response :=
  accessToken <- generateAccessToken (mkPayloadIn (User.id user) (User.email user)) ;;
  refreshTokenValue <- generateRefreshToken ;;
  refreshTokenHash <- hashRefreshToken refreshTokenValue ;;
  refreshTokenExpiry <- getRefreshTokenExpiry ;;
  RefreshTokenModel.create (User.id user) refreshTokenHash refreshTokenExpiry ;;
  Ret (mkResponse status
         (AuthBody message accessToken refreshTokenValue
            (mkAuthUser (User.id user) (User.email user)))).

Definition register (req : Request) : Prog Response :=
  try_catch
    (match Joi_validate registerSchema (body req) with
     | inl details => Ret (validation_failed details)
     | inr value =>
         let email := value "email" in
         let password := value "password" in
         if negb (validateEmail email) then Ret invalid_email
         else
           let passwordValidation := validatePassword password in
           if negb (valid passwordValidation)
           then Ret (weak_password (errors passwordValidation))
           else
             existingUser <- UserModel.findByEmail email ;;
             match existingUser with
             | Some _ => Ret user_exists
             | None =>
                 passwordHash <- hashPassword password ;;
                 user <- UserModel.create email passwordHash ;;
                 issue_tokens 201 "User registered successfully" user
             end
     end)
    (fun _ => Ret internal_error).

Definition login (req : Request) : Prog Response :=
  try_catch
    (match Joi_validate loginSchema (body req) with
     | inl details => Ret (validation_failed details)
     | inr value =>
         let email := value "email" in
         let password := value "password" in
         user <- UserModel.findByEmail email ;;
         match user with
         | None => Ret invalid_credentials
         | Some user =>
             isValidPassword <- verifyPassword (User.password_hash user) password ;;
             if negb isValidPassword then Ret invalid_credentials
             else issue_tokens 200 "Login successful" user
         end
     end)
    (fun _ => Ret internal_error).

Definition refresh (req : Request) : Prog Response :=
  try_catch
    (match Joi_validate refreshSchema (body req) with
     | inl details => Ret (validation_failed details)
     | inr value =>
         let refreshToken := value "refreshToken" in
         refreshTokenHash <- hashRefreshToken refreshToken ;;
         storedToken <- RefreshTokenModel.findByTokenHash refreshTokenHash ;;
         match storedToken with
         | None => Ret invalid_refresh_token
         | Some storedToken =>
             user <- UserModel.findById (RefreshToken.user_id storedToken) ;;
             match user with
             | None => Ret user_not_found
             | Some user =>
                 (* Revoke the old refresh token (token rotation) *)
                 RefreshTokenModel.revoke (RefreshToken.id storedToken) ;;
                 issue_tokens 200 "Token refreshed successfully" user
             end
         end
     end)
    (fun _ => Ret internal_error).

(** [hash.update] takes a string; any other truthy value makes it throw. *)
Definition hash_body_token (refreshToken : JsValue) : Prog string :=
  match refreshToken with
  | JsString s => hashRefreshToken s
  | _ => Throw (mkError "TypeError" "The data argument must be of type string")
  end.

Definition logout (req : Request) : Prog Response :=
  try_catch
    (refreshToken <- complete (js_get (body req) "refreshToken") ;;
     (if truthy refreshToken then
        refreshTokenHash <- hash_body_token refreshToken ;;
        RefreshTokenModel.revokeByTokenHash refreshTokenHash ;;
        Ret tt
      else Ret tt) ;;
     (match user req with
      | Some u => RefreshTokenModel.revokeAllForUser (auth_id u)
      | None => Ret tt
      end) ;;
     Ret (mkResponse 200 (MessageBody "Logout successful")))
    (fun _ => Ret internal_error).

Definition session_of (token : RefreshToken.t) : Session :=
  mkSession (RefreshToken.id token) (RefreshToken.created_at token)
    (RefreshToken.expires_at token).

Definition getSessions (req : Request) : Prog Response :=
  try_catch
    (match user req with
     | None => Ret auth_required
     | Some u =>
         activeTokens <- RefreshTokenModel.findActiveByUserId (auth_id u) ;;
         let sessions := map session_of activeTokens in
         Ret (mkResponse 200 (SessionsBody sessions (Z.of_nat (List.length sessions))))
     end)
    (fun _ => Ret internal_error).

End Handlers.
End AuthController.

(** ** routes/auth *)

Section Routes.
Context {RT : Runtime}.

(** router.post('/logout', optionalAuth, AuthController.logout) *)
Definition post_logout (req : Request) : Prog Response :=
  req' <- optionalAuth req ;;
  AuthController.logout req'.

(** router.get('/sessions', requireAuth, AuthController.getSessions) *)
Definition get_sessions (req : Request) : Prog Response :=
  r <- requireAuth req ;;
  match r with
  | inl response => Ret response
  | inr req' => AuthController.getSessions req'
  end.

End Routes.

(** ** A runtime to compute with

    Small stand-ins for the packages, enough to run the handlers on
    concrete requests: the environment of the test setup, a clock that
    advances one second per reading, and transparent "hashes". *)

Module Demo.

(** A string framed so that it can be read back from the front of a
    longer one: every code unit follows a ["+"], and a ["."] ends it. *)
Fixpoint frame (s rest : string) : string :=
  match s with
  | EmptyString => String "." rest
  | String c s' => String "+" (String c (frame s' rest))
  end.

Fixpoint unframe (s : string) : option (string * string) :=
  match s with
  | String tag s1 =>
      if Ascii.eqb tag "." then Some (EmptyString, s1)
      else if Ascii.eqb tag "+" then
        match s1 with
        | String c s2 =>
            match unframe s2 with
            | Some (a, rest) => Some (String c a, rest)
            | None => None
            end
        | EmptyString => None
        end
      else None
  | EmptyString => None
  end.

Definition frame_Z (z : Z) (rest : string) : string :=
  frame (HexString.of_Z z) rest.

Definition unframe_Z (s : string) : option (Z * string) :=
  match unframe s with
  | Some (a, rest) => Some (HexString.to_Z a, rest)
  | None => None
  end.

Definition frame_option {A : Type} (f : A -> string -> string) (o : option A)
    (rest : string) : string :=
  match o with
  | Some a => String "S" (f a rest)
  | None => String "N" rest
  end.

Definition unframe_option {A : Type} (u : string -> option (A * string)) (s : string)
    : option (option A * string) :=
  match s with
  | String tag s1 =>
      if Ascii.eqb tag "N" then Some (None, s1)
      else if Ascii.eqb tag "S" then
        match u s1 with
        | Some (a, rest) => Some (Some a, rest)
        | None => None
        end
      else None
  | EmptyString => None
  end.

Fixpoint frame_list (l : list string) (rest : string) : string :=
  match l with
  | [] => String ";" rest
  | a :: l' => String "," (frame a (frame_list l' rest))
  end.

(** The list is read with fuel: one unit per code unit of the text. *)
Fixpoint unframe_list (fuel : nat) (s : string) : option (list string * string) :=
  match fuel with
  | O => None
  | S fuel' =>
      match s with
      | String tag s1 =>
          if Ascii.eqb tag ";" then Some ([], s1)
          else if Ascii.eqb tag "," then
            match unframe s1 with
            | Some (a, s2) =>
                match unframe_list fuel' s2 with
                | Some (l, rest) => Some (a :: l, rest)
                | None => None
                end
            | None => None
            end
          else None
      | EmptyString => None
      end
  end.

Definition frame_claims (c : Jose.Claims) (rest : string) : string :=
  frame_Z (Jose.userId c)
    (frame (Jose.email c)
       (frame_option frame_Z (Jose.iat c)
          (frame_option frame_Z (Jose.exp c)
             (frame_option frame_Z (Jose.nbf c)
                (frame_list (Jose.aud c)
                   (frame_option frame (Jose.iss c) rest)))))).

Definition demo_encode (j : Jose.Jws) : string :=
  frame (Jose.alg (Jose.header j))
    (frame (Jose.typ (Jose.header j))
       (frame_claims (Jose.payload j)
          (frame (Jose.signature j) EmptyString))).

Definition demo_decode (s : string) : option Jose.Jws :=
  match unframe s with
  | Some (alg, s1) =>
  match unframe s1 with
  | Some (typ, s2) =>
  match unframe_Z s2 with
  | Some (userId, s3) =>
  match unframe s3 with
  | Some (email, s4) =>
  match unframe_option unframe_Z s4 with
  | Some (iat, s5) =>
  match unframe_option unframe_Z s5 with
  | Some (exp, s6) =>
  match unframe_option unframe_Z s6 with
  | Some (nbf, s7) =>
  match unframe_list (S (String.length s7)) s7 with
  | Some (aud, s8) =>
  match unframe_option unframe s8 with
  | Some (iss, s9) =>
  match unframe s9 with
  | Some (signature, EmptyString) =>
      Some (Jose.mkJws (Jose.mkHeader alg typ)
              (Jose.mkClaims userId email iat exp nbf aud iss) signature)
  | _ => None
  end
  | None => None
  end
  | None => None
  end
  | None => None
  end
  | None => None
  end
  | None => None
  end
  | None => None
  end
  | None => None
  end
  | None => None
  end
  | None => None
  end.

Definition demo_env (name : string) : option string :=
  if name =? "JWT_SECRET" then Some "test-jwt-secret"
  else if name =? "REFRESH_TOKEN_SECRET" then Some "test-refresh-secret"
  else if name =? "JWT_EXPIRES_IN" then Some "15m"
  else if name =? "REFRESH_TOKEN_EXPIRES_IN" then Some "7d"
  else None.

Definition demo_clock (n : nat) : Date := 1700000000000 + 1000 * Z.of_nat n.

Definition demo_entropy (n : nat) : string := "rnd" ++ HexString.of_nat n.

Definition demo_sha256 (s : string) : string := "sha256:" ++ s.

Definition demo_argon2_hash (password salt : string) : Completion string :=
  Normal (frame "argon2id" (frame salt password)).

Definition demo_argon2_verify (digest password : string) : Completion bool :=
  match unframe digest with
  | Some (id, s1) =>
      if id =? "argon2id" then
        match unframe s1 with
        | Some (_, hashed) => Normal (hashed =? password)
        | None => Abrupt (mkError "TypeError" "pchstr is malformed")
        end
      else Normal false
  | None => Abrupt (mkError "TypeError" "pchstr must contain a $ as first char")
  end.

Definition demo_hmac (alg key : string) (input : Jose.Header * Jose.Claims) : string :=
  frame alg (frame key (frame_claims (snd input) EmptyString)).

Definition demo_ms (span : string) : option Z :=
  match parseExpiry span with
  | Normal z => Some z
  | Abrupt _ => None
  end.

(** The first rule a string breaks, as a message. *)
Fixpoint demo_rule_error (key value : string) (rules : list JoiRule) : option string :=
  match rules with
  | [] => None
  | r :: rules' =>
      let len := Z.of_nat (String.length value) in
      let broken :=
        match r with
        | joi_email => negb (validateEmail value)
        | joi_required => false
        | joi_max n => (n <? len)%Z
        | joi_min n => (len <? n)%Z
        end in
      if broken then Some (key ++ " is not valid")%string else demo_rule_error key value rules'
  end.

Fixpoint demo_keys_error (schema : JoiObject) (props : list (string * JsValue))
    : option string :=
  match schema with
  | [] => None
  | (key, rules) :: schema' =>
      match assoc key props with
      | Some (JsString s) =>
          if s =? "" then Some (key ++ " is not allowed to be empty")%string
          else match demo_rule_error key s rules with
               | Some m => Some m
               | None => demo_keys_error schema' props
               end
      | Some _ => Some (key ++ " must be a string")%string
      | None => Some (key ++ " is required")%string
      end
  end.

Definition demo_Joi_validate (schema : JoiObject) (body : JsValue)
    : list string + (string -> string) :=
  match body with
  | JsObject props =>
      match demo_keys_error schema props with
      | Some m => inl [m]
      | None =>
          inr (fun key =>
                 match assoc key props with
                 | Some (JsString s) => s
                 | _ => EmptyString
                 end)
      end
  | _ => inl ["value must be of type object"]
  end.

#[local] Instance runtime : Runtime := {|
  process_env := demo_env;
  clock := demo_clock;
  entropy := demo_entropy;
  sha256_hex := demo_sha256;
  argon2_hash := demo_argon2_hash;
  argon2_verify := demo_argon2_verify;
  hmac := demo_hmac;
  jws_encode := demo_encode;
  jws_decode := demo_decode;
  ms := demo_ms;
  Joi_validate := demo_Joi_validate
|}.

End Demo.

(** ** Worlds and requests to compute with *)

Module Scenario.
Section Scenario.
#[local] Existing Instance Demo.runtime.

Definition request (b : JsValue) : Request := mkRequest None b None.

Definition credentials (email password : string) : JsValue :=
  JsObject [("email", JsString email); ("password", JsString password)].

Definition presenting (secret : string) : JsValue :=
  JsObject [("refreshToken", JsString secret)].

Definition empty : World := mkWorld (mkDb [] [] 0 0) 0 0.

(** The world after [a@x.com] has registered with [Passw0rd1], with the
    response that was sent. *)
Definition registration : World * Completion Response :=
  Eval vm_compute in
    run (AuthController.register (request (credentials "a@x.com" "Passw0rd1"))) empty.

Definition registered : World := fst registration.

Definition alice : User.t :=
  User.mk 1 "a@x.com" "+a+r+g+o+n+2+i+d.+r+n+d+0+x+0.Passw0rd1" 1700000001000 1700000001000.

(** The refresh secret and the access token the registration returned. *)
Definition secretA : string := "rnd0x1".

Definition accessTokenA : string :=
  Eval vm_compute in
    match snd registration with
    | Normal r => match res_accessToken r with Some t => t | None => EmptyString end
    | Abrupt _ => EmptyString
    end.

Definition recordA : RefreshToken.t :=
  RefreshToken.mk 1 1 "sha256:rnd0x1" 1700604803000 1700000004000 None.

(** The world after a login has opened a second session. *)
Definition logged_in : World :=
  Eval vm_compute in
    fst (run (AuthController.login (request (credentials "a@x.com" "Passw0rd1")))
           registered).

(** The world after the secret of the registration has been rotated,
    with the response that was sent, and the secret it carried. *)
Definition rotation : World * Completion Response :=
  Eval vm_compute in run (AuthController.refresh (request (presenting secretA))) registered.

Definition rotated : World := fst rotation.

Definition secretB : string := "rnd0x2".

(** A request that [requireAuth] has let through for the account. *)
Definition authenticated : Request :=
  mkRequest None JsNull (Some (mkAuthUser 1 "a@x.com")).

End Scenario.
End Scenario.

(** ** Observations the statements use *)

Section Observations.
Context {RT : Runtime}.

(** A program whose first effect runs, after which someone else changes
    the database, after which the rest of the program runs. *)
Definition run_interrupted {A : Type} (interference : Db -> Db) (p : Prog A) (w : World)
    : World * Completion A :=
  let (p', w') := step p w in
  run p' (mkWorld (interference (db w')) (ticks w') (draws w')).

(** What the statements about tokens take from the package's JWS layer:
    a serialized token parses back to itself, the empty string is no
    token, and an HMAC is never the empty string. *)
Definition faithful_jws : Prop :=
  (forall j, jws_decode (jws_encode j) = Some j)
  /\ jws_decode "" = None
  /\ (forall a k i, hmac a k i <> "").

(** The hashes the ledger holds, row by row. *)
Definition token_hashes (d : Db) : list string :=
  map RefreshToken.token_hash (refresh_tokens d).

(** A record is active: no revocation timestamp, expiry in the future. *)
Definition active (now : Date) (r : RefreshToken.t) : bool :=
  RefreshTokenModel.is_null (RefreshToken.revoked_at r)
  && (now <? RefreshToken.expires_at r)%Z.

(** The row [create] appends for a user the table knows. *)
Definition issued_row (d : Db) (u : User.t) (secret : string) (expiresAt createdAt : Date)
    : RefreshToken.t :=
  RefreshToken.mk (refresh_tokens_id_seq d + 1) (User.id u) (sha256_hex secret)
    expiresAt createdAt None.

(** The account row [register] inserts. *)
Definition new_account (w : World) (email digest : string) : User.t :=
  User.mk (users_id_seq (db w) + 1) email digest (clock (S (ticks w))) (clock (S (ticks w))).

(** The table after a rotation: the rows with the presented record's id
    stamped, and the new row at the end. *)
Definition rotated_rows (d : Db) (storedToken : RefreshToken.t) (revokedAt : Date)
    (issued : RefreshToken.t) : list RefreshToken.t :=
  RefreshTokenModel.update_revoked_at
    (fun r => (RefreshToken.id r =? RefreshToken.id storedToken)%Z) revokedAt
    (refresh_tokens d)
  ++ [issued].

(** Newest first: no later row was created after an earlier one. *)
Definition row_not_older (a b : RefreshToken.t) : Prop :=
  (RefreshToken.created_at b <= RefreshToken.created_at a)%Z.

End Observations.

(** ** The router, and what the tables promise *)

(** The five routes of routes/auth. *)
Inductive Endpoint : Type :=
| PostRegister
| PostLogin
| PostRefresh
| PostLogout
| GetSessions.

Section Router.
Context {RT : Runtime}.

(** The middleware chain of each route, the rate limiters left out. *)
Definition route (e : Endpoint) (req : Request) : Prog Response :=
  match e with
  | PostRegister => AuthController.register req
  | PostLogin => AuthController.login req
  | PostRefresh => AuthController.refresh req
  | PostLogout => post_logout req
  | GetSessions => get_sessions req
  end.

End Router.

(** The multiplier [parseExpiry] applies for a unit letter. *)
Definition unit_factor (u : ascii) : option Z :=
  if Ascii.eqb u "s" then Some 1000
  else if Ascii.eqb u "m" then Some 60000
  else if Ascii.eqb u "h" then Some 3600000
  else if Ascii.eqb u "d" then Some 86400000
  else None.

(** What the schema declares of the two tables: primary keys drawn from
    their sequences, unique emails, and every refresh token owned by a
    user that is there. *)
Record consistent (d : Db) : Prop := mkConsistent {
  user_ids_unique : NoDup (map User.id (users d));
  user_ids_issued : Forall (fun u => User.id u <= users_id_seq d) (users d);
  emails_unique : NoDup (map User.email (users d));
  token_ids_unique : NoDup (map RefreshToken.id (refresh_tokens d));
  token_ids_issued :
    Forall (fun r => RefreshToken.id r <= refresh_tokens_id_seq d) (refresh_tokens d);
  owners_exist :
    Forall (fun r => In (RefreshToken.user_id r) (map User.id (users d)))
      (refresh_tokens d)
}.

(** Every statement a program may send keeps a property of the database. *)
Inductive Keeps (I : Db -> Prop) {A : Type} : Prog A -> Prop :=
| keeps_ret (a : A) : Keeps I (Ret a)
| keeps_throw (e : JsError) : Keeps I (Throw e)
| keeps_query {R : Type} (sql : Date -> Db -> Db * Completion R)
    (k : Completion R -> Prog A) :
    (forall t d, I d -> I (fst (sql t d))) ->
    (forall c, Keeps I (k c)) ->
    Keeps I (PoolQuery sql k)
| keeps_now (k : Date -> Prog A) :
    (forall t, Keeps I (k t)) -> Keeps I (DateNow k)
| keeps_random (k : string -> Prog A) :
    (forall s, Keeps I (k s)) -> Keeps I (RandomBytes k).

(** A program sends no statement that writes: each one returns the
    database it was given. *)
Definition ReadOnly {A : Type} (p : Prog A) : Prop :=
  forall d0, Keeps (fun d => d = d0) p.


(** A program that cannot end with a thrown error, whatever the
    statements, the clock and the entropy source give it. *)
Inductive Answers {A : Type} : Prog A -> Prop :=
| answers_ret (a : A) : Answers (Ret a)
| answers_query {R : Type} (sql : Date -> Db -> Db * Completion R)
    (k : Completion R -> Prog A) :
    (forall c, Answers (k c)) -> Answers (PoolQuery sql k)
| answers_now (k : Date -> Prog A) :
    (forall t, Answers (k t)) -> Answers (DateNow k)
| answers_random (k : string -> Prog A) :
    (forall s, Answers (k s)) -> Answers (RandomBytes k).


(** ** A misconfigured deployment

    The runtime above with a refresh lifetime written in weeks: the ms
    package reads ["1w"], the regular expression of [parseExpiry] does
    not. *)

Definition weeks_env (name : string) : option string :=
  if name =? "REFRESH_TOKEN_EXPIRES_IN" then Some "1w" else Demo.demo_env name.

Definition weeks_runtime : Runtime := {|
  process_env := weeks_env;
  clock := Demo.demo_clock;
  entropy := Demo.demo_entropy;
  sha256_hex := Demo.demo_sha256;
  argon2_hash := Demo.demo_argon2_hash;
  argon2_verify := Demo.demo_argon2_verify;
  hmac := Demo.demo_hmac;
  jws_encode := Demo.demo_encode;
  jws_decode := Demo.demo_decode;
  ms := Demo.demo_ms;
  Joi_validate := Demo.demo_Joi_validate
|}.


(** * Properties *)

(** The cases of __tests__/auth.test.ts that need no package. *)

Example validateEmail_accepts :
  map validateEmail ["test@example.com"; "user.name@domain.co.uk"; "user+tag@domain.org"]
  = [true; true; true].
Proof. reflexivity. Qed.

Example validateEmail_rejects :
  map validateEmail ["invalid-email"; "@domain.com"; "user@"; "user name@domain.com"]
  = [false; false; false; false].
Proof. reflexivity. Qed.

Example validatePassword_accepts :
  map (fun p => valid (validatePassword p)) ["StrongPass123!"; "AnotherGood1"; "MySecure2024"]
  = [true; true; true].
Proof. reflexivity. Qed.

Example validatePassword_rejects :
  map (fun p => valid (validatePassword p))
    ["short"; "nouppercase123"; "NOLOWERCASE123"; "NoNumbers!"]
  = [false; false; false; false].
Proof. reflexivity. Qed.

Example parseExpiry_defaults :
  parseExpiry "7d" = Normal 604800000 /\ parseExpiry "15m" = Normal 900000.
Proof. split; reflexivity. Qed.

(** ** Running programs *)

Section RunLemmas.
Context {RT : Runtime}.

Lemma run_bind {A B : Type} (p : Prog A) (f : A -> Prog B) (w : World) :
  run (bind p f) w =
  let (w', c) := run p w in
  match c with
  | Normal a => run (f a) w'
  | Abrupt e => (w', Abrupt e)
  end.
Proof.
  revert w.
  induction p as [a | e | R sql k IH | k IH | k IH]; intro w; simpl.
  - reflexivity.
  - reflexivity.
  - destruct (sql (now w) (db w)) as [d c]. apply IH.
  - apply IH.
  - apply IH.
Qed.

Lemma run_try_catch {A : Type} (p : Prog A) (h : JsError -> Prog A) (w : World) :
  run (try_catch p h) w =
  let (w', c) := run p w in
  match c with
  | Normal a => (w', Normal a)
  | Abrupt e => run (h e) w'
  end.
Proof.
  revert w.
  induction p as [a | e | R sql k IH | k IH | k IH]; intro w; simpl.
  - reflexivity.
  - destruct (run (h e) w); reflexivity.
  - destruct (sql (now w) (db w)) as [d c]. apply IH.
  - apply IH.
  - apply IH.
Qed.

(** Running a program is taking its first effect and running the rest. *)
Lemma run_step {A : Type} (p : Prog A) (w : World) :
  run p w = let (p', w') := step p w in run p' w'.
Proof.
  destruct p; simpl; try reflexivity.
  destruct (sql (now w) (db w)); reflexivity.
Qed.

Lemma run_query {R : Type} (sql : Date -> Db -> Db * Completion R) (w : World) :
  run (query sql) w = (tick (fst (sql (now w) (db w))) w, snd (sql (now w) (db w))).
Proof.
  unfold query. simpl. destruct (sql (now w) (db w)) as [d [r | e]]; reflexivity.
Qed.

Lemma run_complete {A : Type} (c : Completion A) (w : World) :
  run (complete c) w = (w, c).
Proof. destruct c; reflexivity. Qed.

(** The secret the signer uses is never empty: the fallback steps in. *)
Lemma env_or_nonempty (name fallback : string) :
  fallback <> "" -> (env_or name fallback =? "") = false.
Proof.
  intro Hf. unfold env_or.
  destruct (process_env name) as [s |].
  - destruct (s =? "") eqn:E; [| exact E].
    apply String.eqb_neq. exact Hf.
  - apply String.eqb_neq. exact Hf.
Qed.

Lemma JWT_SECRET_nonempty : (JWT_SECRET =? "") = false.
Proof. apply env_or_nonempty. discriminate. Qed.

End RunLemmas.

Example registration_scenario :
  db Scenario.registered = mkDb [Scenario.alice] [Scenario.recordA] 1 1
  /\ exists accessToken,
       snd Scenario.registration
       = Normal (mkResponse 201
                   (AuthBody "User registered successfully" accessToken Scenario.secretA
                      (mkAuthUser 1 "a@x.com"))).
Proof. split; [reflexivity | eexists; reflexivity]. Qed.

(** ** The password hasher never raises *)

Section PasswordHasher.
Context {RT : Runtime}.

(** C9: for every digest string and every plaintext, [verifyPassword]
    ends normally with a boolean and leaves the world alone.  The boolean
    is [true] only when argon2 itself answered [true]; whenever argon2
    throws, which is what it does on a digest it cannot decode, the
    answer is [false]. *)
Theorem verifyPassword_never_raises (hash password : string) (w : World) :
  exists b : bool,
    run (verifyPassword hash password) w = (w, Normal b)
    /\ (b = true <-> argon2_verify hash password = Normal true)
    /\ (forall e, argon2_verify hash password = Abrupt e -> b = false).
Proof.
  unfold verifyPassword.
  destruct (argon2_verify hash password) as [b | e] eqn:E; simpl.
  - exists b. split; [reflexivity |]. split.
    + split; intro H; [now subst | now inversion H].
    + intros e' H. discriminate H.
  - exists false. split; [reflexivity |]. split.
    + split; intro H; discriminate H.
    + reflexivity.
Qed.

Lemma run_verifyPassword (hash password : string) (w : World) :
  run (verifyPassword hash password) w =
  (w, Normal match argon2_verify hash password with
             | Normal b => b
             | Abrupt _ => false
             end).
Proof.
  unfold verifyPassword. destruct (argon2_verify hash password); reflexivity.
Qed.

End PasswordHasher.

(** ** Login *)

Section Login.
Context {RT : Runtime}.

(** C7: a login for an email no account has, and a login for an account
    whose password does not verify, are answered with the same response,
    401 with the code INVALID_CREDENTIALS, and neither writes to the
    database. *)
Theorem login_failures_indistinguishable
    (req : Request) (value : string -> string) (w1 w2 : World) (u : User.t) :
  Joi_validate AuthController.loginSchema (body req) = inr value ->
  UserModel.row_by_email (value "email") (db w1) = None ->
  UserModel.row_by_email (value "email") (db w2) = Some u ->
  argon2_verify (User.password_hash u) (value "password") <> Normal true ->
  exists w1' w2',
    run (AuthController.login req) w1
    = (w1', Normal (mkResponse 401 (ErrorBody "Invalid credentials" None "INVALID_CREDENTIALS")))
    /\ run (AuthController.login req) w2
       = (w2', Normal (mkResponse 401 (ErrorBody "Invalid credentials" None "INVALID_CREDENTIALS")))
    /\ db w1' = db w1
    /\ db w2' = db w2.
Proof.
  intros Hjoi Habsent Hpresent Hwrong.
  exists (tick (db w1) w1), (tick (db w2) w2).
  unfold AuthController.login. rewrite Hjoi.
  rewrite !run_try_catch, !run_bind.
  unfold UserModel.findByEmail. rewrite !run_query. simpl.
  rewrite Habsent, Hpresent. simpl.
  rewrite run_bind, run_verifyPassword.
  destruct (argon2_verify (User.password_hash u) (value "password")) as [[|] | e];
    [contradiction Hwrong; reflexivity | |]; simpl; repeat split; reflexivity.
Qed.

End Login.

Section LoginWitness.
#[local] Existing Instance Demo.runtime.

Lemma login_failures_indistinguishable_witness :
  exists w1' w2',
    run (AuthController.login (Scenario.request (Scenario.credentials "a@x.com" "Wrong0000")))
        Scenario.empty
    = (w1', Normal (mkResponse 401 (ErrorBody "Invalid credentials" None "INVALID_CREDENTIALS")))
    /\ run (AuthController.login (Scenario.request (Scenario.credentials "a@x.com" "Wrong0000")))
           Scenario.registered
       = (w2', Normal (mkResponse 401 (ErrorBody "Invalid credentials" None "INVALID_CREDENTIALS")))
    /\ db w1' = db Scenario.empty
    /\ db w2' = db Scenario.registered.
Proof.
  eapply (@login_failures_indistinguishable Demo.runtime
            (Scenario.request (Scenario.credentials "a@x.com" "Wrong0000")) _
            Scenario.empty Scenario.registered Scenario.alice).
  - reflexivity.
  - reflexivity.
  - reflexivity.
  - vm_compute. discriminate.
Defined.

End LoginWitness.

(** ** Registration *)

Section Register.
Context {RT : Runtime}.

(** C3, as the code has it: a registration that passes the schema, the
    email format check and the password strength check, for an email an
    account already has, is answered 409 with the code USER_EXISTS, and
    the database is left as it was: no account row, no refresh-token row,
    no sequence value used.  A registration that fails one of the three
    checks is answered 400, with VALIDATION_ERROR, INVALID_EMAIL or
    WEAK_PASSWORD in the order of the checks, whether or not the email
    is taken, and before the email is looked up: the world is the one
    the request found, no statement sent and the clock not read. *)
Theorem register_existing_email_rejected (req : Request) (w : World) :
  (forall value u,
      Joi_validate AuthController.registerSchema (body req) = inr value ->
      validateEmail (value "email") = true ->
      valid (validatePassword (value "password")) = true ->
      UserModel.row_by_email (value "email") (db w) = Some u ->
      exists w',
        run (AuthController.register req) w
        = (w', Normal (mkResponse 409
                         (ErrorBody "User already exists with this email" None
                            "USER_EXISTS")))
        /\ db w' = db w)
  /\ (forall details,
        Joi_validate AuthController.registerSchema (body req) = inl details ->
        run (AuthController.register req) w
        = (w, Normal (mkResponse 400
                        (ErrorBody "Validation failed" (Some details) "VALIDATION_ERROR"))))
  /\ (forall value,
        Joi_validate AuthController.registerSchema (body req) = inr value ->
        validateEmail (value "email") = false ->
        run (AuthController.register req) w
        = (w, Normal (mkResponse 400 (ErrorBody "Invalid email format" None "INVALID_EMAIL"))))
  /\ (forall value,
        Joi_validate AuthController.registerSchema (body req) = inr value ->
        validateEmail (value "email") = true ->
        valid (validatePassword (value "password")) = false ->
        run (AuthController.register req) w
        = (w, Normal (mkResponse 400
                        (ErrorBody "Password does not meet requirements"
                           (Some (errors (validatePassword (value "password"))))
                           "WEAK_PASSWORD")))).
Proof.
  split; [| split; [| split]].
  - intros value u Hjoi Hemail Hpassword Htaken.
    exists (tick (db w) w).
    unfold AuthController.register. rewrite Hjoi. cbv zeta.
    rewrite Hemail, Hpassword. cbn [negb].
    rewrite run_try_catch, run_bind.
    unfold UserModel.findByEmail. rewrite run_query. simpl.
    rewrite Htaken. simpl. split; reflexivity.
  - intros details Hjoi. unfold AuthController.register. rewrite Hjoi. reflexivity.
  - intros value Hjoi Hemail. unfold AuthController.register. rewrite Hjoi. cbv zeta.
    rewrite Hemail. reflexivity.
  - intros value Hjoi Hemail Hpassword. unfold AuthController.register.
    rewrite Hjoi. cbv zeta. rewrite Hemail, Hpassword. reflexivity.
Qed.

End Register.

Section RegisterWitness.
#[local] Existing Instance Demo.runtime.

Lemma register_existing_email_rejected_witness :
  exists w',
    run (AuthController.register
           (Scenario.request (Scenario.credentials "a@x.com" "Passw0rd1")))
        Scenario.registered
    = (w', Normal (mkResponse 409
                     (ErrorBody "User already exists with this email" None "USER_EXISTS")))
    /\ db w' = db Scenario.registered.
Proof.
  eapply (proj1 (@register_existing_email_rejected Demo.runtime
                   (Scenario.request (Scenario.credentials "a@x.com" "Passw0rd1"))
                   Scenario.registered)
            _ Scenario.alice).
  - reflexivity.
  - reflexivity.
  - reflexivity.
  - reflexivity.
Defined.

(** C3 as stated fails twice over.  A well-formed second registration of
    [a@x.com] is answered with the code USER_EXISTS, not ACCOUNT_EXISTS;
    and one whose password has no uppercase letter is answered
    WEAK_PASSWORD before the email is looked up at all. *)
Lemma register_existing_email_counterexample :
  (exists w' r,
      run (AuthController.register
             (Scenario.request (Scenario.credentials "a@x.com" "Passw0rd1")))
          Scenario.registered = (w', Normal r)
      /\ res_code r = Some "USER_EXISTS"
      /\ res_code r <> Some "ACCOUNT_EXISTS")
  /\ (exists w' r,
      run (AuthController.register
             (Scenario.request (Scenario.credentials "a@x.com" "password1")))
          Scenario.registered = (w', Normal r)
      /\ res_code r = Some "WEAK_PASSWORD"
      /\ res_code r <> Some "ACCOUNT_EXISTS").
Proof.
  split; do 2 eexists; (split; [vm_compute; reflexivity |]);
    (split; [reflexivity | discriminate]).
Qed.

End RegisterWitness.

(** ** The token signer behind the middleware *)

Section Verify.
Context {RT : Runtime}.

(** [verifyAccessToken] reads the clock once and never throws: whatever
    [jwt.verify] throws becomes [null]. *)
Lemma run_verifyAccessToken (token : string) (w : World) :
  run (verifyAccessToken token) w =
  (tick (db w) w,
   Normal match jwt.verify_at (now w / 1000) token JWT_SECRET access_options with
          | Normal c => Some c
          | Abrupt _ => None
          end).
Proof.
  unfold verifyAccessToken, jwt.verify, date_now, access_options. simpl.
  destruct (jwt.verify_at _ _ _ _); reflexivity.
Qed.

End Verify.

(** ** Admission to a protected endpoint *)

Section RequireAuth.
Context {RT : Runtime}.

Lemma substring_whole (s : string) : String.substring 0 (String.length s) s = s.
Proof. induction s as [| c s IH]; simpl; [reflexivity | rewrite IH; reflexivity]. Qed.

Lemma substring_split (n : nat) (s : string) :
  s = (String.substring 0 n s ++ String.substring n (String.length s - n) s)%string.
Proof.
  revert s. induction n as [| n IH]; intro s.
  - rewrite Nat.sub_0_r, substring_whole. destruct s; reflexivity.
  - destruct s as [| c s]; [reflexivity |]. simpl. f_equal. apply IH.
Qed.

(** The token [requireAuth] and [optionalAuth] take from a request: the
    rest of an Authorization header that starts with ["Bearer "]. *)
Lemma bearer_spec (req : Request) (token : string) :
  bearer req = Some token <-> authorization req = Some ("Bearer " ++ token)%string.
Proof.
  unfold bearer. destruct (authorization req) as [h |]; [| split; discriminate].
  split.
  - destruct (String.prefix "Bearer " h) eqn:Ep; [| discriminate].
    intro H. injection H as <-. f_equal.
    apply String.prefix_correct in Ep.
    rewrite (substring_split 7 h) at 1. change (String.length "Bearer ") with 7%nat in Ep.
    rewrite Ep. reflexivity.
  - intro H. injection H as ->.
    cbn [String.prefix append Ascii.ascii_dec ascii_rec ascii_rect Bool.bool_dec bool_rec
         bool_rect sumbool_rec sumbool_rect eq_ind_r eq_ind eq_sym f_equal].
    simpl. replace (String.prefix "" token) with true by (destruct token; reflexivity).
    rewrite Nat.sub_0_r, substring_whole. reflexivity.
Qed.

Lemma row_by_id_inv (id : Z) (d : Db) (u : User.t) :
  UserModel.row_by_id id d = Some u ->
  User.id u = id /\ existsb (fun u' => (User.id u' =? id)%Z) (users d) = true.
Proof.
  unfold UserModel.row_by_id. intro H.
  assert (Hin : In u (filter (fun u' => (User.id u' =? id)%Z) (users d))).
  { destruct (filter _ (users d)); [discriminate H |].
    injection H as ->. left. reflexivity. }
  apply filter_In in Hin. destruct Hin as [Hin Heq].
  split; [apply Z.eqb_eq; exact Heq |].
  apply existsb_exists. exists u. auto.
Qed.

Lemma run_requireAuth (req : Request) (w : World) :
  run (requireAuth req) w =
  match bearer req with
  | None => (w, Normal (inl missing_token))
  | Some token =>
      match jwt.verify_at (now w / 1000) token JWT_SECRET access_options with
      | Abrupt _ => (tick (db w) w, Normal (inl invalid_token))
      | Normal payload =>
          (tick (db w) (tick (db w) w),
           Normal match UserModel.row_by_id (Jose.userId payload) (db w) with
                  | None => inl user_not_found
                  | Some u => inr (attach req u)
                  end)
      end
  end.
Proof.
  unfold requireAuth. rewrite run_try_catch.
  destruct (bearer req) as [token |]; [| reflexivity].
  rewrite run_bind, run_verifyAccessToken.
  destruct (jwt.verify_at _ _ _ _) as [payload | e]; [| reflexivity].
  rewrite run_bind. unfold UserModel.findById. rewrite run_query. simpl.
  destruct (UserModel.row_by_id _ _); reflexivity.
Qed.

(** C6, as the code has it: [requireAuth] lets a request through exactly
    when its bearer token verifies (signature, algorithm, not-before,
    expiry, audience, issuer) and the users table still holds a row with
    the token's user id.  The request that goes on is the one that came
    in with the identity set to the token's user id and that row's
    email.  For every token that verifies the lookup is made: once the
    clock has been read, the next effect of the middleware is the SELECT
    by the token's user id; and when it finds no row the answer is 401
    USER_NOT_FOUND. *)
Theorem requireAuth_accepts_iff (req : Request) (w : World) :
  (forall req',
      (exists w', run (requireAuth req) w = (w', Normal (inr req')))
      <->
      (exists token payload u,
          authorization req = Some ("Bearer " ++ token)%string
          /\ jwt.verify_at (now w / 1000) token JWT_SECRET access_options = Normal payload
          /\ UserModel.row_by_id (Jose.userId payload) (db w) = Some u
          /\ authorization req' = authorization req
          /\ body req' = body req
          /\ user req' = Some (mkAuthUser (Jose.userId payload) (User.email u))))
  /\ (forall token payload,
        authorization req = Some ("Bearer " ++ token)%string ->
        jwt.verify_at (now w / 1000) token JWT_SECRET access_options = Normal payload ->
        (exists k,
            step (requireAuth req) w
            = (PoolQuery (UserModel.findById_sql (Jose.userId payload)) k, tick (db w) w))
        /\ (UserModel.row_by_id (Jose.userId payload) (db w) = None ->
            run (requireAuth req) w
            = (tick (db w) (tick (db w) w),
               Normal (inl (mkResponse 401
                              (ErrorBody "User not found" None "USER_NOT_FOUND")))))).
Proof.
  split.
  - intro req'. rewrite run_requireAuth. split.
    + intros [w' H].
      destruct (bearer req) as [token |] eqn:Hb; [| discriminate H].
      destruct (jwt.verify_at _ _ _ _) as [payload | e] eqn:Hv; [| discriminate H].
      destruct (UserModel.row_by_id _ _) as [u |] eqn:Hu; [| discriminate H].
      exists token, payload, u. apply bearer_spec in Hb.
      apply pair_equal_spec in H. destruct H as [_ H].
      assert (Hreq : req' = attach req u) by congruence. subst req'.
      destruct (row_by_id_inv _ _ Hu) as [Hid _].
      cbn [attach authorization body user]. rewrite Hid.
      repeat split; solve [assumption | reflexivity].
    + intros (token & payload & u & Hb & Hv & Hu & Hauth & Hbody & Huser).
      apply bearer_spec in Hb. rewrite Hb, Hv, Hu. eexists. do 3 f_equal.
      destruct (row_by_id_inv _ _ Hu) as [Hid _].
      destruct req' as [a' b' u']. cbn [authorization body user] in Hauth, Hbody, Huser.
      unfold attach. rewrite Hid. congruence.
  - intros token payload Hauth Hverify. apply bearer_spec in Hauth. split.
    + unfold requireAuth, verifyAccessToken, jwt.verify, date_now. rewrite Hauth.
      cbn [bind try_catch step]. rewrite Hverify.
      cbn [complete bind try_catch UserModel.findById query].
      eexists. reflexivity.
    + intro Hgone. rewrite run_requireAuth, Hauth, Hverify, Hgone. reflexivity.
Qed.

End RequireAuth.

Section RequireAuthCounterexample.
#[local] Existing Instance Demo.runtime.

(** C6 as stated fails: the access token the registration returned is
    well signed and unexpired at the reading of the clock, and the
    request carrying it is let through while the account's row is there
    and answered 401 USER_NOT_FOUND, at the same reading of the clock,
    once the row has been deleted. *)
Lemma requireAuth_store_counterexample :
  let req := mkRequest (Some ("Bearer " ++ Scenario.accessTokenA)%string) JsNull None in
  let deleted :=
    mkWorld (fst (UserModel.delete_sql 1 0 (db Scenario.registered)))
      (ticks Scenario.registered) (draws Scenario.registered) in
  (exists c,
      jwt.verify_at (now Scenario.registered / 1000) Scenario.accessTokenA
        JWT_SECRET access_options = Normal c)
  /\ (exists w' req', run (requireAuth req) Scenario.registered = (w', Normal (inr req')))
  /\ (exists w', run (requireAuth req) deleted
                 = (w', Normal (inl (mkResponse 401
                                       (ErrorBody "User not found" None "USER_NOT_FOUND"))))).
Proof.
  cbv zeta. split; [| split].
  - eexists. vm_compute. reflexivity.
  - do 2 eexists. vm_compute. reflexivity.
  - eexists. vm_compute. reflexivity.
Qed.

End RequireAuthCounterexample.

(** ** Refresh when the account is gone *)

Section RefreshUserMissing.
Context {RT : Runtime}.

Lemma run_interrupted_id {A : Type} (p : Prog A) (w : World) :
  run_interrupted (fun d => d) p w = run p w.
Proof.
  unfold run_interrupted. rewrite (run_step p w).
  destruct (step p w) as [p' w']. destruct w'; reflexivity.
Qed.

(** C10: [refresh] has found an active record for the presented secret,
    and when it resolves the owner the users table has no such row
    (whatever happened to the database in between, [interference]; the
    identity for an uninterrupted call).  The answer is 401
    USER_NOT_FOUND and [refresh] itself writes nothing: the database it
    leaves is the one it found at that point, no record revoked, none
    created. *)
Theorem refresh_user_missing_changes_nothing
    (req : Request) (value : string -> string) (w : World)
    (storedToken : RefreshToken.t) (interference : Db -> Db) :
  Joi_validate AuthController.refreshSchema (body req) = inr value ->
  RefreshTokenModel.active_row (sha256_hex (value "refreshToken")) (now w) (db w)
  = Some storedToken ->
  UserModel.row_by_id (RefreshToken.user_id storedToken) (interference (db w)) = None ->
  exists w',
    run_interrupted interference (AuthController.refresh req) w
    = (w', Normal (mkResponse 401 (ErrorBody "User not found" None "USER_NOT_FOUND")))
    /\ db w' = interference (db w).
Proof.
  intros Hjoi Hfound Hgone.
  unfold run_interrupted, AuthController.refresh. rewrite Hjoi. simpl.
  rewrite Hfound. simpl. rewrite Hgone. simpl.
  eexists. split; reflexivity.
Qed.

End RefreshUserMissing.

Section RefreshUserMissingWitness.
#[local] Existing Instance Demo.runtime.

(** The account is deleted (with its cascade) between the lookup of the
    record and the lookup of its owner. *)
Lemma refresh_user_missing_changes_nothing_witness :
  exists w',
    run_interrupted (fun d => fst (UserModel.delete_sql 1 0 d))
      (AuthController.refresh (Scenario.request (Scenario.presenting Scenario.secretA)))
      Scenario.registered
    = (w', Normal (mkResponse 401 (ErrorBody "User not found" None "USER_NOT_FOUND")))
    /\ db w' = fst (UserModel.delete_sql 1 0 (db Scenario.registered)).
Proof.
  eapply (@refresh_user_missing_changes_nothing Demo.runtime
            (Scenario.request (Scenario.presenting Scenario.secretA)) _
            Scenario.registered Scenario.recordA
            (fun d => fst (UserModel.delete_sql 1 0 d))).
  - reflexivity.
  - reflexivity.
  - reflexivity.
Defined.

End RefreshUserMissingWitness.

(** ** Session listing *)

Section Sessions.
Context {RT : Runtime}.

Lemma insert_desc_perm (r : RefreshToken.t) (l : list RefreshToken.t) :
  Permutation (r :: l) (RefreshTokenModel.insert_desc r l).
Proof.
  induction l as [| x l IH]; simpl.
  - apply Permutation_refl.
  - destruct (RefreshToken.created_at x <=? RefreshToken.created_at r)%Z.
    + apply Permutation_refl.
    + eapply perm_trans; [apply perm_swap |]. apply perm_skip. exact IH.
Qed.

Lemma order_by_perm (l : list RefreshToken.t) :
  Permutation l (RefreshTokenModel.order_by_created_at_desc l).
Proof.
  unfold RefreshTokenModel.order_by_created_at_desc.
  induction l as [| x l IH]; simpl.
  - apply perm_nil.
  - eapply perm_trans; [apply perm_skip; exact IH | apply insert_desc_perm].
Qed.

Lemma insert_desc_sorted (r : RefreshToken.t) (l : list RefreshToken.t) :
  StronglySorted row_not_older l ->
  StronglySorted row_not_older (RefreshTokenModel.insert_desc r l).
Proof.
  induction 1 as [| x l Hs IH Hx]; simpl.
  - constructor; constructor.
  - destruct (RefreshToken.created_at x <=? RefreshToken.created_at r)%Z eqn:E.
    + apply Z.leb_le in E. constructor.
      * constructor; assumption.
      * constructor; [exact E |].
        eapply Forall_impl; [| exact Hx].
        unfold row_not_older. intros y Hy. lia.
    + apply Z.leb_gt in E. constructor; [exact IH |].
      eapply Permutation_Forall; [apply insert_desc_perm |].
      constructor; [unfold row_not_older; lia | exact Hx].
Qed.

Lemma order_by_sorted (l : list RefreshToken.t) :
  StronglySorted row_not_older (RefreshTokenModel.order_by_created_at_desc l).
Proof.
  unfold RefreshTokenModel.order_by_created_at_desc.
  induction l as [| x l IH]; simpl.
  - constructor.
  - apply insert_desc_sorted. exact IH.
Qed.

Lemma active_of_user_spec (userId : Z) (t : Date) (r : RefreshToken.t) :
  RefreshTokenModel.active_of_user userId t r = true
  <-> RefreshToken.user_id r = userId
      /\ RefreshToken.revoked_at r = None
      /\ t < RefreshToken.expires_at r.
Proof.
  unfold RefreshTokenModel.active_of_user, RefreshTokenModel.is_null.
  rewrite !andb_true_iff, Z.eqb_eq, Z.ltb_lt.
  destruct (RefreshToken.revoked_at r); split; intros [[? ?] ?] || intros (? & ? & ?);
    repeat split; try assumption; discriminate.
Qed.

(** C8: for an authenticated request, [getSessions] answers 200 with a
    list made, in order, from rows of the refresh-token table: each
    element is the id, the creation time and the expiry of its row, and
    nothing else (a [Session] has no other field), and the total is
    their number.  The rows are, once each, the rows of the account that
    have no revocation timestamp and whose expiry lies after the
    statement's NOW(), newest first by creation time. *)
Theorem getSessions_lists_active_sessions (req : Request) (u : AuthUser) (w : World) :
  user req = Some u ->
  exists rows : list RefreshToken.t,
    run (AuthController.getSessions req) w
    = (tick (db w) w,
       Normal (mkResponse 200
                 (SessionsBody
                    (map (fun r => mkSession (RefreshToken.id r) (RefreshToken.created_at r)
                                     (RefreshToken.expires_at r))
                         rows)
                    (Z.of_nat (List.length rows)))))
    /\ Permutation rows
         (filter (fun r => (RefreshToken.user_id r =? auth_id u)%Z
                           && match RefreshToken.revoked_at r with
                              | None => true
                              | Some _ => false
                              end
                           && (now w <? RefreshToken.expires_at r)%Z)
            (refresh_tokens (db w)))
    /\ StronglySorted
         (fun earlier later =>
            RefreshToken.created_at later <= RefreshToken.created_at earlier)
         rows
    /\ (forall r,
           In r rows
           <-> In r (refresh_tokens (db w))
               /\ RefreshToken.user_id r = auth_id u
               /\ RefreshToken.revoked_at r = None
               /\ now w < RefreshToken.expires_at r).
Proof.
  intro Hu.
  exists (RefreshTokenModel.order_by_created_at_desc
            (filter (RefreshTokenModel.active_of_user (auth_id u) (now w))
               (refresh_tokens (db w)))).
  split; [| split; [| split]].
  - unfold AuthController.getSessions. rewrite Hu.
    rewrite run_try_catch, run_bind.
    unfold RefreshTokenModel.findActiveByUserId. rewrite run_query.
    cbn [RefreshTokenModel.findActiveByUserId_sql fst snd run].
    rewrite length_map. reflexivity.
  - apply Permutation_sym. apply order_by_perm.
  - apply order_by_sorted.
  - intro r. split.
    + intro Hin.
      apply (Permutation_in r (Permutation_sym (order_by_perm _))) in Hin.
      apply filter_In in Hin. destruct Hin as [Hin Hactive].
      apply active_of_user_spec in Hactive. split; assumption.
    + intros [Hin Hactive].
      apply (Permutation_in r (order_by_perm _)).
      apply filter_In. split; [exact Hin |].
      apply active_of_user_spec. exact Hactive.
Qed.

End Sessions.

Section SessionsWitness.
#[local] Existing Instance Demo.runtime.

(** Two sessions, the one the login opened listed before the one the
    registration opened. *)
Lemma getSessions_lists_active_sessions_witness :
  exists rows : list RefreshToken.t,
    run (AuthController.getSessions Scenario.authenticated) Scenario.logged_in
    = (tick (db Scenario.logged_in) Scenario.logged_in,
       Normal (mkResponse 200
                 (SessionsBody
                    (map (fun r => mkSession (RefreshToken.id r) (RefreshToken.created_at r)
                                     (RefreshToken.expires_at r))
                         rows)
                    (Z.of_nat (List.length rows)))))
    /\ Permutation rows
         (filter (fun r => (RefreshToken.user_id r =? 1)%Z
                           && match RefreshToken.revoked_at r with
                              | None => true
                              | Some _ => false
                              end
                           && (now Scenario.logged_in <? RefreshToken.expires_at r)%Z)
            (refresh_tokens (db Scenario.logged_in)))
    /\ StronglySorted
         (fun earlier later =>
            RefreshToken.created_at later <= RefreshToken.created_at earlier)
         rows
    /\ (forall r,
           In r rows
           <-> In r (refresh_tokens (db Scenario.logged_in))
               /\ RefreshToken.user_id r = 1
               /\ RefreshToken.revoked_at r = None
               /\ now Scenario.logged_in < RefreshToken.expires_at r).
Proof.
  apply (@getSessions_lists_active_sessions Demo.runtime Scenario.authenticated
           (mkAuthUser 1 "a@x.com") Scenario.logged_in).
  reflexivity.
Defined.

Example getSessions_newest_first :
  snd (run (AuthController.getSessions Scenario.authenticated) Scenario.logged_in)
  = Normal (mkResponse 200
              (SessionsBody
                 [mkSession 2 1700000008000 1700604807000;
                  mkSession 1 1700000004000 1700604803000] 2)).
Proof. vm_compute. reflexivity. Qed.

End SessionsWitness.

(** ** Revocation *)

Section Revocation.
Context {RT : Runtime}.

Lemma update_revoked_at_noop (P : RefreshToken.t -> bool) (t : Date)
    (l : list RefreshToken.t) :
  (forall r, In r l -> P r = false) ->
  RefreshTokenModel.update_revoked_at P t l = l.
Proof.
  unfold RefreshTokenModel.update_revoked_at.
  induction l as [| x l IH]; intro H; simpl.
  - reflexivity.
  - rewrite (H x (or_introl eq_refl)). f_equal.
    apply IH. intros r Hr. apply H. right. exact Hr.
Qed.

(** A row of the table after an UPDATE is a selected row with its new
    timestamp, or a row the WHERE clause passed over. *)
Lemma in_update_revoked_at (P : RefreshToken.t -> bool) (t : Date)
    (l : list RefreshToken.t) (r' : RefreshToken.t) :
  In r' (RefreshTokenModel.update_revoked_at P t l) ->
  (exists r, In r l /\ P r = true /\ r' = RefreshTokenModel.set_revoked_at t r)
  \/ (In r' l /\ P r' = false).
Proof.
  unfold RefreshTokenModel.update_revoked_at. rewrite in_map_iff.
  intros (r & Hr & Hin). destruct (P r) eqn:E.
  - left. exists r. auto.
  - right. subst r'. auto.
Qed.

(** After an UPDATE guarded by [revoked_at IS NULL], a row that still has
    no revocation timestamp is one the rest of the guard rejected. *)
Lemma unrevoked_after_guarded_update (Q : RefreshToken.t -> bool) (t : Date)
    (l : list RefreshToken.t) (r' : RefreshToken.t) :
  In r' (RefreshTokenModel.update_revoked_at
           (fun r => Q r && RefreshTokenModel.is_null (RefreshToken.revoked_at r)) t l) ->
  RefreshToken.revoked_at r' = None ->
  In r' l /\ Q r' = false.
Proof.
  intros Hin Hnone. apply in_update_revoked_at in Hin.
  destruct Hin as [(r & _ & _ & ->) | [Hin HP]].
  - discriminate Hnone.
  - split; [exact Hin |]. rewrite Hnone in HP. simpl in HP.
    rewrite andb_true_r in HP. exact HP.
Qed.

(** [revokeByTokenHash] a second time: no row is selected, the table is
    the same, the answer is [false]. *)
Lemma revokeByTokenHash_sql_again (tokenHash : string) (t1 t2 : Date) (d : Db) :
  RefreshTokenModel.revokeByTokenHash_sql tokenHash t2
    (fst (RefreshTokenModel.revokeByTokenHash_sql tokenHash t1 d))
  = (fst (RefreshTokenModel.revokeByTokenHash_sql tokenHash t1 d), Normal false).
Proof.
  unfold RefreshTokenModel.revokeByTokenHash_sql, with_refresh_tokens. simpl.
  set (P := fun r : RefreshToken.t =>
              (RefreshToken.token_hash r =? tokenHash)
              && RefreshTokenModel.is_null (RefreshToken.revoked_at r)).
  assert (Hnone : forall r,
             In r (RefreshTokenModel.update_revoked_at P t1 (refresh_tokens d)) ->
             P r = false).
  { intros r Hin. destruct (RefreshToken.revoked_at r) eqn:E.
    - unfold P. rewrite E. apply andb_false_r.
    - apply unrevoked_after_guarded_update in Hin; [| exact E].
      unfold P. rewrite (proj2 Hin). reflexivity. }
  rewrite (update_revoked_at_noop P t2 _ Hnone).
  replace (filter P (RefreshTokenModel.update_revoked_at P t1 (refresh_tokens d)))
    with (@nil RefreshToken.t); [reflexivity |].
  symmetry. induction (RefreshTokenModel.update_revoked_at P t1 (refresh_tokens d))
    as [| x l IH]; simpl.
  - reflexivity.
  - rewrite (Hnone x (or_introl eq_refl)). apply IH.
    intros r Hr. apply Hnone. right. exact Hr.
Qed.

(** [revokeAllForUser] a second time changes nothing. *)
Lemma revokeAllForUser_sql_again (userId : Z) (t1 t2 : Date) (d : Db) :
  RefreshTokenModel.revokeAllForUser_sql userId t2
    (fst (RefreshTokenModel.revokeAllForUser_sql userId t1 d))
  = (fst (RefreshTokenModel.revokeAllForUser_sql userId t1 d), Normal tt).
Proof.
  unfold RefreshTokenModel.revokeAllForUser_sql, with_refresh_tokens. simpl.
  rewrite update_revoked_at_noop; [reflexivity |].
  intros r Hin. cbv beta. destruct (RefreshToken.revoked_at r) eqn:E.
  - apply andb_false_r.
  - apply (unrevoked_after_guarded_update
             (fun r => (RefreshToken.user_id r =? userId)%Z)) in Hin; [| exact E].
    rewrite (proj2 Hin). reflexivity.
Qed.

(** [revokeByTokenHash], called again with the same hash, reports that it
    hit no row and leaves the database as the first call left it. *)
Theorem revokeByTokenHash_idempotent (tokenHash : string) (w : World) :
  let w1 := fst (run (RefreshTokenModel.revokeByTokenHash tokenHash) w) in
  exists w2,
    run (RefreshTokenModel.revokeByTokenHash tokenHash) w1 = (w2, Normal false)
    /\ db w2 = db w1.
Proof.
  cbv zeta. unfold RefreshTokenModel.revokeByTokenHash. rewrite !run_query.
  cbn [fst db tick]. rewrite revokeByTokenHash_sql_again.
  eexists. split; reflexivity.
Qed.

(** [revokeAllForUser], called again for the same user, leaves the
    database as the first call left it. *)
Theorem revokeAllForUser_idempotent (userId : Z) (w : World) :
  let w1 := fst (run (RefreshTokenModel.revokeAllForUser userId) w) in
  exists w2,
    run (RefreshTokenModel.revokeAllForUser userId) w1 = (w2, Normal tt)
    /\ db w2 = db w1.
Proof.
  cbv zeta. unfold RefreshTokenModel.revokeAllForUser. rewrite !run_query.
  cbn [fst db tick]. rewrite revokeAllForUser_sql_again.
  eexists. split; reflexivity.
Qed.

(** What [revoke] writes: every row with the id gets the statement's
    NOW() as its revocation timestamp, whatever it held before. *)
Lemma revoke_sql_stamps (id : Z) (t : Date) (d : Db) (r' : RefreshToken.t) :
  In r' (refresh_tokens (fst (RefreshTokenModel.revoke_sql id t d))) ->
  RefreshToken.id r' = id ->
  RefreshToken.revoked_at r' = Some t.
Proof.
  simpl. intros Hin Hid. apply in_update_revoked_at in Hin.
  destruct Hin as [(r & _ & _ & ->) | [_ HP]].
  - reflexivity.
  - apply Z.eqb_neq in HP. contradiction.
Qed.

End Revocation.

(** C4, where the code departs from it: [revoke] on a record that is
    already revoked is not a no-op.  The record of the registration is
    revoked at one instant and revoked again four seconds later: its
    revocation timestamp moves. *)
Lemma revoke_twice_moves_the_timestamp :
  let d0 := db Scenario.registered in
  let d1 := fst (RefreshTokenModel.revoke_sql 1 1700000005000 d0) in
  let d2 := fst (RefreshTokenModel.revoke_sql 1 1700000009000 d1) in
  map RefreshToken.revoked_at (refresh_tokens d1) = [Some 1700000005000]
  /\ map RefreshToken.revoked_at (refresh_tokens d2) = [Some 1700000009000].
Proof. split; reflexivity. Qed.

Section Logout.
Context {RT : Runtime}.

(** What a logout leaves in the database, when it does not throw. *)
Lemma run_logout (req : Request) (w : World) :
  run (AuthController.logout req) w =
  match js_get (body req) "refreshToken" with
  | Abrupt _ => (w, Normal AuthController.internal_error)
  | Normal v =>
      let revoked_one :=
        if truthy v then
          match v with
          | JsString s =>
              Some (tick (fst (RefreshTokenModel.revokeByTokenHash_sql (sha256_hex s)
                                 (now w) (db w))) w)
          | _ => None
          end
        else Some w in
      match revoked_one with
      | None => (w, Normal AuthController.internal_error)
      | Some w1 =>
          (match user req with
           | Some u =>
               tick (fst (RefreshTokenModel.revokeAllForUser_sql (auth_id u)
                            (now w1) (db w1))) w1
           | None => w1
           end,
           Normal (mkResponse 200 (MessageBody "Logout successful")))
      end
  end.
Proof.
  unfold AuthController.logout.
  rewrite run_try_catch, run_bind, run_complete.
  destruct (js_get (body req) "refreshToken") as [v | e]; [| reflexivity].
  rewrite run_bind.
  destruct (truthy v) eqn:Ht.
  - destruct v; simpl; try reflexivity.
    destruct (user req); reflexivity.
  - simpl. destruct (user req); reflexivity.
Qed.

(** The part of C4 that holds: a logout that succeeded, repeated with the
    same secret and the same identity, succeeds again with the same
    answer and changes nothing in the database, no revocation timestamp
    included. *)
Theorem logout_twice_is_a_noop (req : Request) (w w1 : World) (r : Response) :
  run (AuthController.logout req) w = (w1, Normal r) ->
  status r = 200 ->
  exists w2, run (AuthController.logout req) w1 = (w2, Normal r) /\ db w2 = db w1.
Proof.
  rewrite !run_logout.
  destruct (js_get (body req) "refreshToken") as [v | e];
    [| intros H Hs; inversion H; subst r; discriminate Hs].
  cbv zeta.
  assert (Hall : forall userId t1 t2 d,
             fst (RefreshTokenModel.revokeAllForUser_sql userId t2
                    (fst (RefreshTokenModel.revokeAllForUser_sql userId t1 d)))
             = fst (RefreshTokenModel.revokeAllForUser_sql userId t1 d)).
  { intros. rewrite revokeAllForUser_sql_again. reflexivity. }
  assert (Hone : forall h userId t1 t2 t3 d,
             fst (RefreshTokenModel.revokeByTokenHash_sql h t3
                    (fst (RefreshTokenModel.revokeAllForUser_sql userId t2
                            (fst (RefreshTokenModel.revokeByTokenHash_sql h t1 d)))))
             = fst (RefreshTokenModel.revokeAllForUser_sql userId t2
                      (fst (RefreshTokenModel.revokeByTokenHash_sql h t1 d)))).
  { intros h userId t1 t2 t3 d.
    unfold RefreshTokenModel.revokeByTokenHash_sql at 1. unfold with_refresh_tokens. simpl.
    rewrite update_revoked_at_noop; [reflexivity |].
    intros x Hin. cbv beta. destruct (RefreshToken.revoked_at x) eqn:E.
    - apply andb_false_r.
    - apply (unrevoked_after_guarded_update
               (fun r => (RefreshToken.user_id r =? userId)%Z)) in Hin; [| exact E].
      destruct Hin as [Hin _].
      apply (unrevoked_after_guarded_update
               (fun r => RefreshToken.token_hash r =? h)) in Hin; [| exact E].
      rewrite (proj2 Hin). reflexivity. }
  destruct (truthy v).
  - destruct v; try (intros H Hs; inversion H; subst r; discriminate Hs).
    intros H _. apply pair_equal_spec in H. destruct H as [Hw Hr].
    apply (f_equal (fun c => match c with Normal x => x | Abrupt _ => r end)) in Hr.
    subst w1 r.
    destruct (user req) as [u |]; unfold tick; cbn [db ticks draws].
    + eexists. split; [reflexivity |]. cbn [db]. rewrite Hone, Hall. reflexivity.
    + eexists. split; [reflexivity |]. cbn [db].
      rewrite revokeByTokenHash_sql_again. reflexivity.
  - intros H _. apply pair_equal_spec in H. destruct H as [Hw Hr].
    apply (f_equal (fun c => match c with Normal x => x | Abrupt _ => r end)) in Hr.
    subst w1 r.
    destruct (user req) as [u |]; unfold tick; cbn [db ticks draws].
    + eexists. split; [reflexivity |]. cbn [db]. rewrite Hall. reflexivity.
    + eexists. split; reflexivity.
Qed.

End Logout.

Section LogoutWitness.
#[local] Existing Instance Demo.runtime.

Lemma logout_twice_is_a_noop_witness :
  exists w2,
    run (AuthController.logout
           (mkRequest None (Scenario.presenting Scenario.secretA)
              (Some (mkAuthUser 1 "a@x.com"))))
        (fst (run (AuthController.logout
                     (mkRequest None (Scenario.presenting Scenario.secretA)
                        (Some (mkAuthUser 1 "a@x.com"))))
                Scenario.logged_in))
    = (w2, Normal (mkResponse 200 (MessageBody "Logout successful")))
    /\ db w2
       = db (fst (run (AuthController.logout
                         (mkRequest None (Scenario.presenting Scenario.secretA)
                            (Some (mkAuthUser 1 "a@x.com"))))
                    Scenario.logged_in)).
Proof.
  eapply (@logout_twice_is_a_noop Demo.runtime _ Scenario.logged_in).
  - vm_compute. reflexivity.
  - reflexivity.
Defined.

End LogoutWitness.

(** ** The token signer *)

Section TokenSigner.
Context {RT : Runtime}.

Lemma run_generateAccessToken (payload : JWTPayloadIn) (w : World) :
  run (generateAccessToken payload) w =
  (tick (db w) w,
   match ms JWT_EXPIRES_IN with
   | Some milliseconds =>
       Normal (jws_encode (jwt.signed (in_userId payload) (in_email payload) JWT_SECRET
                             sign_options (now w / 1000) milliseconds))
   | None =>
       Abrupt (mkError "Error"
         "expiresIn should be a number of seconds or string representing a timespan")
   end).
Proof.
  unfold generateAccessToken, jwt.sign. rewrite JWT_SECRET_nonempty.
  simpl. destruct (ms JWT_EXPIRES_IN); reflexivity.
Qed.

(** The checks a token issued by [generateAccessToken] goes through: all
    pass except, possibly, the expiry. *)
Lemma verify_at_signed (payload : JWTPayloadIn) (timestamp milliseconds clockTimestamp : Z) :
  faithful_jws ->
  jwt.verify_at clockTimestamp
    (jws_encode (jwt.signed (in_userId payload) (in_email payload) JWT_SECRET
                   sign_options timestamp milliseconds))
    JWT_SECRET access_options
  = if (timestamp + milliseconds / 1000 <=? clockTimestamp)%Z
    then Abrupt jwt.TokenExpiredError
    else Normal (Jose.payload
                   (jwt.signed (in_userId payload) (in_email payload) JWT_SECRET
                      sign_options timestamp milliseconds)).
Proof.
  intros (Hcodec & Hempty & Hmac).
  unfold jwt.verify_at.
  set (j := jwt.signed _ _ _ _ _ _).
  assert (Hne : (jws_encode j =? "") = false).
  { apply String.eqb_neq. intro E.
    pose proof (Hcodec j) as Hj. rewrite E, Hempty in Hj. discriminate Hj. }
  rewrite Hne, Hcodec.
  assert (Hsig : (Jose.signature j =? "") = false).
  { apply String.eqb_neq. apply Hmac. }
  rewrite Hsig, JWT_SECRET_nonempty.
  unfold j, jwt.signed. cbn [Jose.header Jose.payload Jose.signature Jose.alg
    Jose.nbf Jose.exp Jose.aud Jose.iss jwt.sign_audience jwt.sign_issuer
    sign_options access_options jwt.audience jwt.issuer].
  rewrite String.eqb_refl.
  destruct (timestamp + milliseconds / 1000 <=? clockTimestamp)%Z; reflexivity.
Qed.

(** What a token fails on, whoever made it. *)
Lemma verify_at_rejects (clockTimestamp : Z) (token : string) :
  (jws_decode token = None ->
   exists e, jwt.verify_at clockTimestamp token JWT_SECRET access_options = Abrupt e)
  /\ (forall j,
        jws_decode token = Some j ->
        Jose.signature j <> hmac (Jose.alg (Jose.header j)) JWT_SECRET
                              (Jose.header j, Jose.payload j)
        \/ Jose.iss (Jose.payload j) <> Some "habit-tracker"
        \/ ~ In "habit-tracker-users" (Jose.aud (Jose.payload j))
        \/ (exists e, Jose.exp (Jose.payload j) = Some e /\ e <= clockTimestamp) ->
        exists e, jwt.verify_at clockTimestamp token JWT_SECRET access_options = Abrupt e).
Proof.
  unfold jwt.verify_at. split.
  - intro Hd. rewrite Hd. destruct (token =? ""); eexists; reflexivity.
  - intros j Hd Hbad. rewrite Hd.
    destruct (token =? ""); [eexists; reflexivity |].
    destruct (Jose.signature j =? ""); [eexists; reflexivity |].
    destruct (JWT_SECRET =? ""); [eexists; reflexivity |].
    destruct (negb (jwt.mem _ jwt.hs_algorithms)); [eexists; reflexivity |].
    destruct (Jose.signature j =? hmac _ _ _) eqn:Esig; [| eexists; reflexivity].
    cbn [negb].
    destruct (match Jose.nbf (Jose.payload j) with
              | Some n => (clockTimestamp <? n)%Z
              | None => false
              end); [eexists; reflexivity |].
    destruct (Jose.exp (Jose.payload j)) as [e |] eqn:Eexp.
    + destruct (e <=? clockTimestamp)%Z eqn:Ele; [eexists; reflexivity |].
      apply Z.leb_gt in Ele.
      destruct (jwt.mem (jwt.audience access_options) (Jose.aud (Jose.payload j))) eqn:Eaud;
        [| eexists; reflexivity].
      cbn [negb].
      destruct (Jose.iss (Jose.payload j)) as [i |] eqn:Eiss; [| eexists; reflexivity].
      destruct (i =? jwt.issuer access_options) eqn:Ei; [| eexists; reflexivity].
      exfalso. destruct Hbad as [H | [H | [H | (e' & He' & Hle)]]].
      * apply String.eqb_eq in Esig. contradiction.
      * apply String.eqb_eq in Ei. subst i. apply H. reflexivity.
      * apply H. unfold jwt.mem in Eaud. apply existsb_exists in Eaud.
        destruct Eaud as (a & Ha & Heq). apply String.eqb_eq in Heq.
        simpl in Heq. subst a. exact Ha.
      * inversion He'. subst e'. lia.
    + destruct (jwt.mem (jwt.audience access_options) (Jose.aud (Jose.payload j))) eqn:Eaud;
        [| eexists; reflexivity].
      cbn [negb].
      destruct (Jose.iss (Jose.payload j)) as [i |] eqn:Eiss; [| eexists; reflexivity].
      destruct (i =? jwt.issuer access_options) eqn:Ei; [| eexists; reflexivity].
      exfalso. destruct Hbad as [H | [H | [H | (e' & He' & Hle)]]].
      * apply String.eqb_eq in Esig. contradiction.
      * apply String.eqb_eq in Ei. subst i. apply H. reflexivity.
      * apply H. unfold jwt.mem in Eaud. apply existsb_exists in Eaud.
        destruct Eaud as (a & Ha & Heq). apply String.eqb_eq in Heq.
        simpl in Heq. subst a. exact Ha.
      * discriminate He'.
Qed.

(** C5: let [generateAccessToken] return a token for the claims
    [payload].  Its expiry is the issuing clock, in seconds, plus the
    configured lifetime.  Read at any clock before the expiry,
    [verifyAccessToken] returns claims with the same user id and email;
    read at the expiry or later it returns [null].  And for every string
    whatsoever [verifyAccessToken] ends normally: with [null] when the
    string does not parse, or its signature, issuer or audience does not
    match, or it has expired. *)
Theorem access_token_roundtrip (payload : JWTPayloadIn) (w w1 : World) (token : string) :
  faithful_jws ->
  run (generateAccessToken payload) w = (w1, Normal token) ->
  (exists lifetime expiry : Z,
      ms JWT_EXPIRES_IN = Some lifetime
      /\ expiry = now w / 1000 + lifetime / 1000
      /\ (forall w', now w' / 1000 < expiry ->
            exists c,
              run (verifyAccessToken token) w' = (tick (db w') w', Normal (Some c))
              /\ Jose.userId c = in_userId payload
              /\ Jose.email c = in_email payload)
      /\ (forall w', expiry <= now w' / 1000 ->
            run (verifyAccessToken token) w' = (tick (db w') w', Normal None)))
  /\ (forall (token' : string) (w' : World),
        exists r,
          run (verifyAccessToken token') w' = (tick (db w') w', Normal r)
          /\ (jws_decode token' = None -> r = None)
          /\ (forall j,
                jws_decode token' = Some j ->
                Jose.signature j <> hmac (Jose.alg (Jose.header j)) JWT_SECRET
                                      (Jose.header j, Jose.payload j)
                \/ Jose.iss (Jose.payload j) <> Some "habit-tracker"
                \/ ~ In "habit-tracker-users" (Jose.aud (Jose.payload j))
                \/ (exists e, Jose.exp (Jose.payload j) = Some e /\ e <= now w' / 1000) ->
                r = None)).
Proof.
  intros Hjws Hissue. split.
  - rewrite run_generateAccessToken in Hissue.
    destruct (ms JWT_EXPIRES_IN) as [lifetime |] eqn:Hms; [| discriminate Hissue].
    apply pair_equal_spec in Hissue. destruct Hissue as [_ Htoken].
    injection Htoken as Htoken. subst token.
    exists lifetime, (now w / 1000 + lifetime / 1000).
    split; [reflexivity |]. split; [reflexivity |]. split.
    + intros w' Hbefore. rewrite run_verifyAccessToken, (verify_at_signed _ _ _ _ Hjws).
      apply Z.leb_gt in Hbefore. rewrite Hbefore.
      eexists. split; [reflexivity |]. split; reflexivity.
    + intros w' Hafter. rewrite run_verifyAccessToken, (verify_at_signed _ _ _ _ Hjws).
      apply Z.leb_le in Hafter. rewrite Hafter. reflexivity.
  - intros token' w'. rewrite run_verifyAccessToken.
    eexists. split; [reflexivity |].
    destruct (verify_at_rejects (now w' / 1000) token') as [Hnone Hsome]. split.
    + intro Hd. destruct (Hnone Hd) as [e ->]. reflexivity.
    + intros j Hd Hbad. destruct (Hsome j Hd Hbad) as [e ->]. reflexivity.
Qed.

End TokenSigner.

(** The stand-in serialization is faithful. *)

Lemma demo_unframe_frame (s rest : string) :
  Demo.unframe (Demo.frame s rest) = Some (s, rest).
Proof.
  induction s as [| c s IH]; simpl.
  - reflexivity.
  - rewrite IH. reflexivity.
Qed.

Lemma demo_unframe_frame_Z (z : Z) (rest : string) :
  Demo.unframe_Z (Demo.frame_Z z rest) = Some (z, rest).
Proof.
  unfold Demo.unframe_Z, Demo.frame_Z.
  rewrite demo_unframe_frame, HexString.to_Z_of_Z. reflexivity.
Qed.

Lemma demo_frame_length (s rest : string) :
  (String.length rest <= String.length (Demo.frame s rest))%nat.
Proof.
  induction s as [| c s IH]; simpl; lia.
Qed.

Lemma demo_frame_list_length (l : list string) (rest : string) :
  (List.length l < String.length (Demo.frame_list l rest))%nat.
Proof.
  induction l as [| a l IH]; simpl.
  - lia.
  - pose proof (demo_frame_length a (Demo.frame_list l rest)). lia.
Qed.

Lemma demo_unframe_frame_list (l : list string) (rest : string) (fuel : nat) :
  (List.length l < fuel)%nat ->
  Demo.unframe_list fuel (Demo.frame_list l rest) = Some (l, rest).
Proof.
  revert fuel. induction l as [| a l IH]; intros fuel Hfuel.
  - destruct fuel; [lia | reflexivity].
  - destruct fuel; [lia |]. simpl in *.
    rewrite demo_unframe_frame, IH by lia. reflexivity.
Qed.

Lemma demo_unframe_frame_option {A : Type} (f : A -> string -> string)
    (u : string -> option (A * string)) (o : option A) (rest : string) :
  (forall a r, u (f a r) = Some (a, r)) ->
  Demo.unframe_option u (Demo.frame_option f o rest) = Some (o, rest).
Proof.
  intro Hu. destruct o as [a |]; simpl.
  - rewrite Hu. reflexivity.
  - reflexivity.
Qed.

Lemma demo_faithful_jws : @faithful_jws Demo.runtime.
Proof.
  split; [| split].
  - intros [[alg typ] [userId email iat exp nbf aud iss] signature].
    cbn [jws_decode jws_encode Demo.runtime].
    unfold Demo.demo_decode, Demo.demo_encode, Demo.frame_claims.
    cbn [Jose.header Jose.payload Jose.signature Jose.alg Jose.typ Jose.userId
         Jose.email Jose.iat Jose.exp Jose.nbf Jose.aud Jose.iss].
    rewrite !demo_unframe_frame, demo_unframe_frame_Z, demo_unframe_frame.
    rewrite !(demo_unframe_frame_option Demo.frame_Z Demo.unframe_Z _ _
                demo_unframe_frame_Z).
    rewrite demo_unframe_frame_list
      by (pose proof (demo_frame_list_length aud
                        (Demo.frame_option Demo.frame iss
                           (Demo.frame signature EmptyString))); lia).
    rewrite (demo_unframe_frame_option Demo.frame Demo.unframe _ _ demo_unframe_frame).
    rewrite demo_unframe_frame. reflexivity.
  - reflexivity.
  - intros a k i. cbn [hmac Demo.runtime]. unfold Demo.demo_hmac.
    destruct a; simpl; discriminate.
Qed.

Section TokenSignerWitness.
#[local] Existing Instance Demo.runtime.

(** The token of the registration: issued at second 1700000002 for 15
    minutes, it expires at second 1700000902. *)
Lemma access_token_roundtrip_witness :
  (exists lifetime expiry : Z,
      ms JWT_EXPIRES_IN = Some lifetime
      /\ expiry = now (mkWorld (db Scenario.registered) 2 1) / 1000 + lifetime / 1000
      /\ (forall w', now w' / 1000 < expiry ->
            exists c,
              run (verifyAccessToken Scenario.accessTokenA) w'
              = (tick (db w') w', Normal (Some c))
              /\ Jose.userId c = 1
              /\ Jose.email c = "a@x.com")
      /\ (forall w', expiry <= now w' / 1000 ->
            run (verifyAccessToken Scenario.accessTokenA) w'
            = (tick (db w') w', Normal None)))
  /\ (forall (token' : string) (w' : World),
        exists r,
          run (verifyAccessToken token') w' = (tick (db w') w', Normal r)
          /\ (jws_decode token' = None -> r = None)
          /\ (forall j,
                jws_decode token' = Some j ->
                Jose.signature j <> hmac (Jose.alg (Jose.header j)) JWT_SECRET
                                      (Jose.header j, Jose.payload j)
                \/ Jose.iss (Jose.payload j) <> Some "habit-tracker"
                \/ ~ In "habit-tracker-users" (Jose.aud (Jose.payload j))
                \/ (exists e, Jose.exp (Jose.payload j) = Some e /\ e <= now w' / 1000) ->
                r = None)).
Proof.
  apply (@access_token_roundtrip Demo.runtime (mkPayloadIn 1 "a@x.com")
           (mkWorld (db Scenario.registered) 2 1)
           (mkWorld (db Scenario.registered) 3 1) Scenario.accessTokenA).
  - exact demo_faithful_jws.
  - vm_compute. reflexivity.
Defined.

Example access_token_expires_after_fifteen_minutes :
  snd (run (verifyAccessToken Scenario.accessTokenA) (mkWorld (db Scenario.registered) 901 1))
  = Normal (Some (Jose.mkClaims 1 "a@x.com" (Some 1700000002) (Some 1700000902) None
                    ["habit-tracker-users"] (Some "habit-tracker")))
  /\ snd (run (verifyAccessToken Scenario.accessTokenA)
            (mkWorld (db Scenario.registered) 902 1))
     = Normal None
  /\ snd (run (verifyAccessToken "invalid.token.here") Scenario.registered) = Normal None.
Proof. repeat split; vm_compute; reflexivity. Qed.

End TokenSignerWitness.

(** ** Refresh rotation *)

Section Rotation.
Context {RT : Runtime}.

Lemma run_getRefreshTokenExpiry (w : World) :
  run getRefreshTokenExpiry w =
  match parseExpiry REFRESH_TOKEN_EXPIRES_IN with
  | Normal expiryMs => (tick (db w) w, Normal (now w + expiryMs))
  | Abrupt e => (w, Abrupt e)
  end.
Proof.
  unfold getRefreshTokenExpiry.
  destruct (parseExpiry REFRESH_TOKEN_EXPIRES_IN); reflexivity.
Qed.

(** The shared tail of the issuing handlers, for a user that exists:
    when both lifetimes parse it appends one active row for the secret
    it drew and answers with that secret; otherwise it throws. *)
Lemma run_issue_tokens (status : Z) (message : string) (u : User.t) (w : World) :
  existsb (fun u' => (User.id u' =? User.id u)%Z) (users (db w)) = true ->
  match ms JWT_EXPIRES_IN, parseExpiry REFRESH_TOKEN_EXPIRES_IN with
  | Some _, Normal expiryMs =>
      exists w' accessToken createdAt,
        run (AuthController.issue_tokens status message u) w
        = (w', Normal (mkResponse status
                         (AuthBody message accessToken (entropy (draws w))
                            (mkAuthUser (User.id u) (User.email u)))))
        /\ db w'
           = with_refresh_tokens
               (refresh_tokens (db w)
                ++ [issued_row (db w) u (entropy (draws w))
                      (clock (S (ticks w)) + expiryMs) createdAt])
               (refresh_tokens_id_seq (db w) + 1) (db w)
  | _, _ =>
      exists w' e,
        run (AuthController.issue_tokens status message u) w = (w', Abrupt e)
  end.
Proof.
  intro Hfk. unfold AuthController.issue_tokens.
  rewrite run_bind, run_generateAccessToken.
  destruct (ms JWT_EXPIRES_IN) as [m |]; [| do 2 eexists; reflexivity].
  rewrite run_bind. unfold generateRefreshToken, random_bytes_hex, hashRefreshToken.
  cbn [run bind]. rewrite run_bind, run_getRefreshTokenExpiry.
  destruct (parseExpiry REFRESH_TOKEN_EXPIRES_IN) as [expiryMs |];
    [| do 2 eexists; reflexivity].
  rewrite run_bind. unfold RefreshTokenModel.create. rewrite run_query.
  unfold RefreshTokenModel.create_sql. cbn [db tick draw ticks draws].
  rewrite Hfk. cbn [fst snd run].
  do 3 eexists. split; reflexivity.
Qed.

(** [refresh] on a body the schema accepts. *)
Lemma run_refresh (req : Request) (value : string -> string) (w : World) :
  Joi_validate AuthController.refreshSchema (body req) = inr value ->
  run (AuthController.refresh req) w =
  match RefreshTokenModel.active_row (sha256_hex (value "refreshToken")) (now w) (db w) with
  | None => (tick (db w) w, Normal AuthController.invalid_refresh_token)
  | Some storedToken =>
      match UserModel.row_by_id (RefreshToken.user_id storedToken) (db w) with
      | None => (tick (db w) (tick (db w) w), Normal user_not_found)
      | Some u =>
          let w2 := tick (db w) (tick (db w) w) in
          let w3 :=
            tick (fst (RefreshTokenModel.revoke_sql (RefreshToken.id storedToken)
                         (now w2) (db w))) w2 in
          let (w4, c) :=
            run (AuthController.issue_tokens 200 "Token refreshed successfully" u) w3 in
          (w4, Normal match c with
                      | Normal r => r
                      | Abrupt _ => AuthController.internal_error
                      end)
      end
  end.
Proof.
  intro Hjoi. unfold AuthController.refresh. rewrite Hjoi.
  rewrite run_try_catch. unfold hashRefreshToken. cbn [bind].
  rewrite run_bind. unfold RefreshTokenModel.findByTokenHash. rewrite run_query.
  cbn [RefreshTokenModel.findByTokenHash_sql fst snd].
  destruct (RefreshTokenModel.active_row _ _ _) as [storedToken |]; [| reflexivity].
  rewrite run_bind. unfold UserModel.findById. rewrite run_query.
  cbn [UserModel.findById_sql fst snd db tick].
  destruct (UserModel.row_by_id _ _) as [u |]; [| reflexivity].
  rewrite run_bind. unfold RefreshTokenModel.revoke. rewrite run_query.
  cbn [RefreshTokenModel.revoke_sql fst snd db tick].
  cbv zeta.
  destruct (run (AuthController.issue_tokens 200 "Token refreshed successfully" u) _)
    as [w4 [r | e]]; reflexivity.
Qed.

End Rotation.

Section RotationProof.
Context {RT : Runtime}.

Lemma active_row_inv (h : string) (t : Date) (d : Db) (r : RefreshToken.t) :
  RefreshTokenModel.active_row h t d = Some r ->
  In r (refresh_tokens d)
  /\ RefreshToken.token_hash r = h
  /\ RefreshToken.revoked_at r = None
  /\ t < RefreshToken.expires_at r.
Proof.
  unfold RefreshTokenModel.active_row. intro H.
  assert (Hin : In r (filter (RefreshTokenModel.active_with_hash h t) (refresh_tokens d))).
  { destruct (filter _ (refresh_tokens d)); [discriminate H |].
    injection H as ->. left. reflexivity. }
  apply filter_In in Hin. destruct Hin as [Hin Hact].
  unfold RefreshTokenModel.active_with_hash in Hact.
  apply andb_true_iff in Hact. destruct Hact as [Hact Hexp].
  apply andb_true_iff in Hact. destruct Hact as [Hhash Hnull].
  apply String.eqb_eq in Hhash. apply Z.ltb_lt in Hexp.
  destruct (RefreshToken.revoked_at r); [discriminate Hnull |]. auto.
Qed.

(** No row with the hash is unrevoked: the lookup finds nothing. *)
Lemma active_row_none (h : string) (t : Date) (d : Db) :
  (forall r, In r (refresh_tokens d) ->
             RefreshToken.token_hash r = h -> RefreshToken.revoked_at r <> None) ->
  RefreshTokenModel.active_row h t d = None.
Proof.
  unfold RefreshTokenModel.active_row. intro H.
  induction (refresh_tokens d) as [| x l IH]; simpl.
  - reflexivity.
  - assert (Hx : RefreshTokenModel.active_with_hash h t x = false).
    { unfold RefreshTokenModel.active_with_hash.
      destruct (RefreshToken.token_hash x =? h) eqn:E; [| reflexivity].
      apply String.eqb_eq in E.
      pose proof (H x (or_introl eq_refl) E) as Hrev.
      destruct (RefreshToken.revoked_at x); [reflexivity | contradiction]. }
    rewrite Hx. apply IH. intros r Hr. apply H. right. exact Hr.
Qed.

(** The last row carries the hash, is active, and no row before it
    carries the hash: the lookup finds it. *)
Lemma active_row_last (h : string) (t : Date) (d : Db)
    (rows : list RefreshToken.t) (r : RefreshToken.t) :
  refresh_tokens d = rows ++ [r] ->
  (forall x, In x rows -> RefreshToken.token_hash x <> h) ->
  RefreshToken.token_hash r = h ->
  RefreshToken.revoked_at r = None ->
  t < RefreshToken.expires_at r ->
  RefreshTokenModel.active_row h t d = Some r.
Proof.
  unfold RefreshTokenModel.active_row. intros -> Hrows Hh Hrev Hexp.
  rewrite filter_app.
  replace (filter (RefreshTokenModel.active_with_hash h t) rows) with (@nil RefreshToken.t).
  - simpl. unfold RefreshTokenModel.active_with_hash.
    rewrite Hh, String.eqb_refl, Hrev. simpl.
    apply Z.ltb_lt in Hexp. rewrite Hexp. reflexivity.
  - symmetry. induction rows as [| x l IH]; simpl.
    + reflexivity.
    + unfold RefreshTokenModel.active_with_hash at 1.
      destruct (RefreshToken.token_hash x =? h) eqn:E.
      * apply String.eqb_eq in E. exfalso. exact (Hrows x (or_introl eq_refl) E).
      * simpl. apply IH. intros y Hy. apply Hrows. right. exact Hy.
Qed.

Lemma NoDup_map_eq {A B : Type} (f : A -> B) (l : list A) (a b : A) :
  NoDup (map f l) -> In a l -> In b l -> f a = f b -> a = b.
Proof.
  induction l as [| x l IH]; simpl; intros Hnd Ha Hb Hf.
  - contradiction.
  - inversion Hnd as [| y l' Hnotin Hnd']; subst.
    destruct Ha as [-> | Ha]; destruct Hb as [-> | Hb].
    + reflexivity.
    + exfalso. apply Hnotin. rewrite Hf. apply in_map. exact Hb.
    + exfalso. apply Hnotin. rewrite <- Hf. apply in_map. exact Ha.
    + apply IH; assumption.
Qed.

(** An UPDATE of [revoked_at] leaves the hashes where they are. *)
Lemma update_revoked_at_hashes (P : RefreshToken.t -> bool) (t : Date)
    (l : list RefreshToken.t) :
  map RefreshToken.token_hash (RefreshTokenModel.update_revoked_at P t l)
  = map RefreshToken.token_hash l.
Proof.
  unfold RefreshTokenModel.update_revoked_at. rewrite map_map.
  apply map_ext. intro r. destruct (P r); reflexivity.
Qed.

(** [refresh] once the presented record and its owner have been found:
    with both lifetimes well formed it stamps the record, appends an
    active row for the secret it drew and answers 200 with that secret;
    otherwise it answers 500. *)
Lemma run_refresh_found (req : Request) (value : string -> string) (w : World)
    (storedToken : RefreshToken.t) (u : User.t) :
  Joi_validate AuthController.refreshSchema (body req) = inr value ->
  RefreshTokenModel.active_row (sha256_hex (value "refreshToken")) (now w) (db w)
  = Some storedToken ->
  UserModel.row_by_id (RefreshToken.user_id storedToken) (db w) = Some u ->
  match ms JWT_EXPIRES_IN, parseExpiry REFRESH_TOKEN_EXPIRES_IN with
  | Some _, Normal _ =>
      exists w' accessToken revokedAt expiresAt createdAt,
        run (AuthController.refresh req) w
        = (w', Normal (mkResponse 200
                         (AuthBody "Token refreshed successfully" accessToken
                            (entropy (draws w))
                            (mkAuthUser (User.id u) (User.email u)))))
        /\ users (db w') = users (db w)
        /\ refresh_tokens (db w')
           = rotated_rows (db w) storedToken revokedAt
               (issued_row (db w) u (entropy (draws w)) expiresAt createdAt)
  | _, _ =>
      exists w', run (AuthController.refresh req) w
                 = (w', Normal AuthController.internal_error)
  end.
Proof.
  intros Hjoi Hfound Howner.
  rewrite (run_refresh _ _ Hjoi), Hfound, Howner. cbv zeta.
  set (w3 := tick _ (tick (db w) (tick (db w) w))).
  assert (Hfk : existsb (fun u' => (User.id u' =? User.id u)%Z) (users (db w3)) = true).
  { destruct (row_by_id_inv _ _ Howner) as [Hid Hex]. rewrite Hid. exact Hex. }
  pose proof (run_issue_tokens 200 "Token refreshed successfully" u w3 Hfk) as Hissue.
  destruct (ms JWT_EXPIRES_IN) as [m |].
  - destruct (parseExpiry REFRESH_TOKEN_EXPIRES_IN) as [expiryMs | e].
    + destruct Hissue as (w' & accessToken & createdAt & Hrun & Hdb).
      rewrite Hrun. exists w', accessToken. do 3 eexists.
      split; [reflexivity |]. rewrite Hdb. split; reflexivity.
    + destruct Hissue as (w' & e' & Hrun). rewrite Hrun. eexists. reflexivity.
  - destruct Hissue as (w' & e' & Hrun). rewrite Hrun. eexists. reflexivity.
Qed.

End RotationProof.

Section RotationTheorem.
Context {RT : Runtime}.

(** A handler's answer that is known to be a 200 is not one of the error
    answers. *)
Ltac not_a_success Hrun Hstatus :=
  apply pair_equal_spec in Hrun; destruct Hrun as [_ Hrun];
  injection Hrun as Hrun; subst; vm_compute in Hstatus; discriminate Hstatus.


End RotationTheorem.

Section RotationWitness.
#[local] Existing Instance Demo.runtime.


(** The scenario, computed: A is rotated into B, A fails, B is rotated
    into C, B fails. *)
Example rotation_scenario :
  let refresh_with secret w :=
    run (AuthController.refresh (Scenario.request (Scenario.presenting secret))) w in
  let code c :=
    match c with
    | Normal r => (status r, res_code r, res_refreshToken r)
    | Abrupt _ => (0, None, None)
    end in
  let w1 := fst (refresh_with "rnd0x1" Scenario.registered) in
  let w2 := fst (refresh_with "rnd0x1" w1) in
  let w3 := fst (refresh_with "rnd0x2" w2) in
  code (snd (refresh_with "rnd0x1" Scenario.registered)) = (200, None, Some "rnd0x2")
  /\ code (snd (refresh_with "rnd0x1" w1)) = (401, Some "INVALID_REFRESH_TOKEN", None)
  /\ code (snd (refresh_with "rnd0x2" w2)) = (200, None, Some "rnd0x3")
  /\ code (snd (refresh_with "rnd0x2" w3)) = (401, Some "INVALID_REFRESH_TOKEN", None).
Proof. vm_compute. repeat split; reflexivity. Qed.

End RotationWitness.

(** ** Two refreshes in flight *)

Section Race.
#[local] Existing Instance Demo.runtime.

(** C2, where the code departs from it: two requests present the secret
    of the registration, and the second one's lookup runs before the
    first one's revoke (schedule: first request one effect, second
    request one effect, then each to its end).  Both lookups find the
    record active, both requests are answered 200 with a new secret, and
    the ledger ends with two active records issued from the one parent. *)
Lemma concurrent_refresh_both_succeed :
  let refresh :=
    AuthController.refresh (Scenario.request (Scenario.presenting Scenario.secretA)) in
  let outcome := interleave [true; false] refresh refresh Scenario.registered in
  let answer c :=
    match c with
    | Normal r => (status r, res_refreshToken r)
    | Abrupt _ => (0, None)
    end in
  let w := fst (fst outcome) in
  answer (snd (fst outcome)) = (200, Some "rnd0x2")
  /\ answer (snd outcome) = (200, Some "rnd0x3")
  /\ map (fun r => (RefreshToken.id r, RefreshToken.token_hash r))
         (filter (active (now w)) (refresh_tokens (db w)))
     = [(2, "sha256:rnd0x2"); (3, "sha256:rnd0x3")].
Proof. vm_compute. repeat split; reflexivity. Qed.

(** One after the other, the second request fails. *)
Example sequential_refresh_one_succeeds :
  let refresh :=
    AuthController.refresh (Scenario.request (Scenario.presenting Scenario.secretA)) in
  let outcome := interleave [] refresh refresh Scenario.registered in
  let answer c :=
    match c with
    | Normal r => (status r, res_code r)
    | Abrupt _ => (0, None)
    end in
  answer (snd (fst outcome)) = (200, None)
  /\ answer (snd outcome) = (401, Some "INVALID_REFRESH_TOKEN").
Proof. vm_compute. split; reflexivity. Qed.

End Race.

(** ** Revoke before issue *)

Section RevokeBeforeIssue.
Context {RT : Runtime}.


End RevokeBeforeIssue.

Section RevokeBeforeIssueWitness.
#[local] Existing Instance Demo.runtime.


End RevokeBeforeIssueWitness.

(** * The rest of the code *)

(** ** What a program keeps *)

Section KeepsLemmas.
Context {RT : Runtime}.
Variable I : Db -> Prop.

Lemma keeps_bind {A B : Type} (p : Prog A) (f : A -> Prog B) :
  Keeps I p -> (forall a, Keeps I (f a)) -> Keeps I (bind p f).
Proof.
  intros Hp Hf. induction Hp; simpl; try (constructor; auto). apply Hf.
Qed.

Lemma keeps_try_catch {A : Type} (p : Prog A) (h : JsError -> Prog A) :
  Keeps I p -> (forall e, Keeps I (h e)) -> Keeps I (try_catch p h).
Proof.
  intros Hp Hh. induction Hp; simpl; try (constructor; auto). apply Hh.
Qed.

Lemma keeps_complete {A : Type} (c : Completion A) : Keeps I (complete c).
Proof. destruct c; constructor. Qed.

Lemma keeps_statement {R : Type} (sql : Date -> Db -> Db * Completion R) :
  (forall t d, I d -> I (fst (sql t d))) -> Keeps I (query sql).
Proof.
  intro H. unfold query. constructor; [exact H |]. intro c. apply keeps_complete.
Qed.

Lemma keeps_date_now : Keeps I date_now.
Proof. unfold date_now. constructor. intro t. constructor. Qed.

Lemma keeps_random_bytes_hex : Keeps I random_bytes_hex.
Proof. unfold random_bytes_hex. constructor. intro s. constructor. Qed.

(** One effect of a program that keeps [I] keeps it, and so does what is
    left of the program. *)
Lemma step_keeps {A : Type} (p : Prog A) (w : World) :
  Keeps I p -> I (db w) ->
  Keeps I (fst (step p w)) /\ I (db (snd (step p w))).
Proof.
  intros Hp Hw. destruct Hp as [a | e | R sql k Hsql Hk | k Hk | k Hk]; simpl.
  - split; [constructor | exact Hw].
  - split; [constructor | exact Hw].
  - specialize (Hsql (now w) (db w) Hw).
    destruct (sql (now w) (db w)) as [d c]. simpl in *. split; [apply Hk | exact Hsql].
  - split; [apply Hk | exact Hw].
  - split; [apply Hk | exact Hw].
Qed.

Lemma run_keeps {A : Type} (p : Prog A) (w : World) :
  Keeps I p -> I (db w) -> I (db (fst (run p w))).
Proof.
  intro Hp. revert w.
  induction Hp as [a | e | R sql k Hsql Hk IH | k Hk IH | k Hk IH]; intros w Hw; simpl.
  - exact Hw.
  - exact Hw.
  - specialize (Hsql (now w) (db w) Hw).
    destruct (sql (now w) (db w)) as [d c]. simpl in Hsql. apply IH. exact Hsql.
  - apply IH. exact Hw.
  - apply IH. exact Hw.
Qed.

Lemma interleave_keeps {A B : Type} (schedule : list bool) (p : Prog A) (q : Prog B)
    (w : World) :
  Keeps I p -> Keeps I q -> I (db w) ->
  I (db (fst (fst (interleave schedule p q w)))).
Proof.
  revert p q w. induction schedule as [| [|] s IH]; intros p q w Hp Hq Hw; simpl.
  - pose proof (run_keeps w Hp Hw) as H1.
    destruct (run p w) as [w1 a]. simpl in H1.
    pose proof (run_keeps w1 Hq H1) as H2.
    destruct (run q w1) as [w2 b]. exact H2.
  - destruct (step_keeps w Hp Hw) as [Hp' Hw'].
    destruct (step p w) as [p' w']. apply IH; assumption.
  - destruct (step_keeps w Hq Hw) as [Hq' Hw'].
    destruct (step q w) as [q' w']. apply IH; assumption.
Qed.

End KeepsLemmas.

(** ** The statements keep the tables consistent *)

Section Consistency.
Context {RT : Runtime}.

(** A DELETE keeps a column unique: the rows that stay had distinct
    keys among the rows that were there. *)
Lemma NoDup_map_filter {Row Key : Type} (key : Row -> Key) (stays : Row -> bool)
    (rows : list Row) :
  NoDup (map key rows) -> NoDup (map key (filter stays rows)).
Proof.
  induction rows as [| x rows IH]; simpl; intro H.
  - constructor.
  - inversion H as [| y l' Hnotin Hnd]; subst. destruct (stays x); simpl.
    + constructor; [| apply IH; exact Hnd].
      intro Hin. apply Hnotin. apply in_map_iff in Hin.
      destruct Hin as (a & Ha & Hina). apply filter_In in Hina.
      rewrite <- Ha. apply in_map. apply Hina.
    + apply IH. exact Hnd.
Qed.

Lemma NoDup_snoc {A : Type} (l : list A) (x : A) :
  NoDup l -> ~ In x l -> NoDup (l ++ [x]).
Proof.
  induction l as [| y l IH]; simpl; intros Hnd Hx.
  - constructor; [intros [] | constructor].
  - inversion Hnd as [| z l' Hy Hnd']; subst. constructor.
    + intro Hin. apply in_app_or in Hin. destruct Hin as [Hin | [-> | []]].
      * contradiction.
      * apply Hx. left. reflexivity.
    + apply IH; [exact Hnd' | intro Hin; apply Hx; right; exact Hin].
Qed.

Lemma Forall_filter_keeps {A : Type} (P : A -> Prop) (p : A -> bool) (l : list A) :
  Forall P l -> Forall P (filter p l).
Proof.
  rewrite !Forall_forall. intros H x Hx. apply filter_In in Hx. apply H, Hx.
Qed.

Lemma update_revoked_at_ids (P : RefreshToken.t -> bool) (t : Date)
    (l : list RefreshToken.t) :
  map RefreshToken.id (RefreshTokenModel.update_revoked_at P t l) = map RefreshToken.id l.
Proof.
  unfold RefreshTokenModel.update_revoked_at. rewrite map_map.
  apply map_ext. intro r. destruct (P r); reflexivity.
Qed.

Lemma update_revoked_at_owners (P : RefreshToken.t -> bool) (t : Date)
    (l : list RefreshToken.t) :
  map RefreshToken.user_id (RefreshTokenModel.update_revoked_at P t l)
  = map RefreshToken.user_id l.
Proof.
  unfold RefreshTokenModel.update_revoked_at. rewrite map_map.
  apply map_ext. intro r. destruct (P r); reflexivity.
Qed.

(** An UPDATE of [revoked_at], whatever its WHERE clause, keeps the
    tables consistent. *)
Lemma consistent_update_revoked_at (P : RefreshToken.t -> bool) (t : Date) (d : Db) :
  consistent d ->
  consistent (with_refresh_tokens
                (RefreshTokenModel.update_revoked_at P t (refresh_tokens d))
                (refresh_tokens_id_seq d) d).
Proof.
  intros [H1 H2 H3 H4 H5 H6]. constructor; simpl; try assumption.
  - rewrite update_revoked_at_ids. exact H4.
  - apply (Forall_map RefreshToken.id (fun i => i <= refresh_tokens_id_seq d)).
    rewrite update_revoked_at_ids. apply Forall_map. exact H5.
  - apply (Forall_map RefreshToken.user_id (fun i => In i (map User.id (users d)))).
    rewrite update_revoked_at_owners. apply Forall_map. exact H6.
Qed.

Lemma consistent_user_create (email passwordHash : string) (t : Date) (d : Db) :
  consistent d -> consistent (fst (UserModel.create_sql email passwordHash t d)).
Proof.
  intros [H1 H2 H3 H4 H5 H6]. unfold UserModel.create_sql.
  destruct (existsb (fun u => User.email u =? email) (users d)) eqn:E; simpl.
  - constructor; simpl; try assumption.
    eapply Forall_impl; [| exact H2]. intros u Hu. simpl in Hu. lia.
  - assert (Hnew : ~ In (users_id_seq d + 1) (map User.id (users d))).
    { intro Hin. apply in_map_iff in Hin. destruct Hin as (u & Hid & Hu).
      rewrite Forall_forall in H2. specialize (H2 u Hu). simpl in H2. lia. }
    assert (Hfree : ~ In email (map User.email (users d))).
    { intro Hin. apply in_map_iff in Hin. destruct Hin as (u & He & Hu).
      assert (existsb (fun u => User.email u =? email) (users d) = true).
      { apply existsb_exists. exists u. split; [exact Hu |].
        apply String.eqb_eq. exact He. }
      congruence. }
    constructor; simpl.
    + rewrite map_app. apply NoDup_snoc; assumption.
    + apply Forall_app. split.
      * eapply Forall_impl; [| exact H2]. intros u Hu. simpl in Hu. lia.
      * constructor; [simpl; lia | constructor].
    + rewrite map_app. apply NoDup_snoc; assumption.
    + exact H4.
    + exact H5.
    + eapply Forall_impl; [| exact H6]. intros r Hr. simpl in Hr.
      rewrite map_app. apply in_or_app. left. exact Hr.
Qed.

Lemma consistent_user_updatePassword (id : Z) (passwordHash : string) (t : Date) (d : Db) :
  consistent d -> consistent (fst (UserModel.updatePassword_sql id passwordHash t d)).
Proof.
  intros [H1 H2 H3 H4 H5 H6]. unfold UserModel.updatePassword_sql. simpl.
  set (f := fun u : User.t =>
              if (User.id u =? id)%Z
              then User.mk (User.id u) (User.email u) passwordHash (User.created_at u) t
              else u).
  assert (Hid : map User.id (map f (users d)) = map User.id (users d)).
  { rewrite map_map. apply map_ext. intro u. unfold f.
    destruct (User.id u =? id)%Z; reflexivity. }
  assert (Hem : map User.email (map f (users d)) = map User.email (users d)).
  { rewrite map_map. apply map_ext. intro u. unfold f.
    destruct (User.id u =? id)%Z; reflexivity. }
  constructor; simpl; try assumption.
  - rewrite Hid. exact H1.
  - apply (Forall_map User.id (fun i => i <= users_id_seq d)).
    rewrite Hid. apply Forall_map. exact H2.
  - rewrite Hem. exact H3.
  - rewrite Hid. exact H6.
Qed.

Lemma consistent_user_delete (id : Z) (t : Date) (d : Db) :
  consistent d -> consistent (fst (UserModel.delete_sql id t d)).
Proof.
  intros [H1 H2 H3 H4 H5 H6]. unfold UserModel.delete_sql. constructor; simpl.
  - apply NoDup_map_filter. exact H1.
  - apply Forall_filter_keeps. exact H2.
  - apply NoDup_map_filter. exact H3.
  - apply NoDup_map_filter. exact H4.
  - apply Forall_filter_keeps. exact H5.
  - rewrite Forall_forall in *. intros r Hr. apply filter_In in Hr.
    destruct Hr as [Hr Hkeep]. specialize (H6 r Hr). simpl in H6.
    apply in_map_iff in H6. destruct H6 as (u & Hid & Hu).
    apply in_map_iff. exists u. split; [exact Hid |].
    apply filter_In. split; [exact Hu |]. rewrite Hid. exact Hkeep.
Qed.

Lemma consistent_token_create (userId : Z) (tokenHash : string) (expiresAt t : Date)
    (d : Db) :
  consistent d ->
  consistent (fst (RefreshTokenModel.create_sql userId tokenHash expiresAt t d)).
Proof.
  intros [H1 H2 H3 H4 H5 H6]. unfold RefreshTokenModel.create_sql.
  destruct (existsb (fun u => (User.id u =? userId)%Z) (users d)) eqn:E; simpl.
  - assert (Hnew : ~ In (refresh_tokens_id_seq d + 1)
                       (map RefreshToken.id (refresh_tokens d))).
    { intro Hin. apply in_map_iff in Hin. destruct Hin as (r & Hid & Hr).
      rewrite Forall_forall in H5. specialize (H5 r Hr). simpl in H5. lia. }
    constructor; simpl; try assumption.
    + rewrite map_app. apply NoDup_snoc; assumption.
    + apply Forall_app. split.
      * eapply Forall_impl; [| exact H5]. intros r Hr. simpl in Hr. lia.
      * constructor; [simpl; lia | constructor].
    + apply Forall_app. split; [exact H6 |].
      constructor; [| constructor]. simpl.
      apply existsb_exists in E. destruct E as (u & Hu & Hid).
      apply Z.eqb_eq in Hid. rewrite <- Hid. apply in_map. exact Hu.
  - constructor; simpl; try assumption.
    eapply Forall_impl; [| exact H5]. intros r Hr. simpl in Hr. lia.
Qed.

Lemma consistent_cleanupExpired (t : Date) (d : Db) :
  consistent d -> consistent (fst (RefreshTokenModel.cleanupExpired_sql t d)).
Proof.
  intros [H1 H2 H3 H4 H5 H6]. unfold RefreshTokenModel.cleanupExpired_sql.
  constructor; simpl; try assumption.
  - apply NoDup_map_filter. exact H4.
  - apply Forall_filter_keeps. exact H5.
  - apply Forall_filter_keeps. exact H6.
Qed.

End Consistency.

(** ** Every route keeps the tables consistent *)

Section RoutesKeep.
Context {RT : Runtime}.

(** A program built from binds, catches and case distinctions keeps what
    its statements keep. *)
Ltac keeps :=
  repeat first
    [ apply keeps_try_catch; [| intro]
    | apply keeps_bind; [| intro]
    | apply keeps_complete
    | apply keeps_date_now
    | apply keeps_random_bytes_hex
    | apply keeps_ret
    | apply keeps_throw
    | apply keeps_statement; intros ? ? ?; auto
    | match goal with
      | |- Keeps _ (match ?x with _ => _ end) => destruct x
      | |- Keeps _ (if ?x then _ else _) => destruct x
      end ].

Lemma keeps_verifyAccessToken (I : Db -> Prop) (token : string) :
  Keeps I (verifyAccessToken token).
Proof. unfold verifyAccessToken, jwt.verify. keeps. Qed.

Lemma keeps_generateAccessToken (I : Db -> Prop) (payload : JWTPayloadIn) :
  Keeps I (generateAccessToken payload).
Proof. unfold generateAccessToken, jwt.sign. keeps. Qed.

Lemma keeps_requireAuth (I : Db -> Prop) (req : Request) : Keeps I (requireAuth req).
Proof.
  unfold requireAuth, UserModel.findById.
  keeps; try apply keeps_verifyAccessToken; keeps.
Qed.

Lemma keeps_optionalAuth (I : Db -> Prop) (req : Request) : Keeps I (optionalAuth req).
Proof.
  unfold optionalAuth, UserModel.findById.
  keeps; try apply keeps_verifyAccessToken; keeps.
Qed.

Lemma keeps_getSessions (I : Db -> Prop) (req : Request) :
  Keeps I (AuthController.getSessions req).
Proof.
  unfold AuthController.getSessions, RefreshTokenModel.findActiveByUserId. keeps.
Qed.

(** The side conditions [keeps] leaves: a statement that writes, or the
    signing of a token. *)
Ltac consistency :=
  first
    [ assumption
    | apply consistent_user_create; assumption
    | apply consistent_token_create; assumption
    | apply consistent_update_revoked_at; assumption
    | apply keeps_generateAccessToken
    | apply keeps_verifyAccessToken ].

Lemma keeps_route (e : Endpoint) (req : Request) : Keeps consistent (route e req).
Proof.
  destruct e; unfold route.
  - unfold AuthController.register, hashPassword, UserModel.findByEmail, UserModel.create.
    keeps; consistency.
  - unfold AuthController.login, verifyPassword, UserModel.findByEmail.
    keeps; consistency.
  - unfold AuthController.refresh, hashRefreshToken, RefreshTokenModel.findByTokenHash,
      UserModel.findById, RefreshTokenModel.revoke.
    keeps; consistency.
  - unfold post_logout. apply keeps_bind; [apply keeps_optionalAuth | intro req'].
    unfold AuthController.logout, AuthController.hash_body_token, hashRefreshToken,
      RefreshTokenModel.revokeByTokenHash, RefreshTokenModel.revokeAllForUser.
    keeps; consistency.
  - unfold get_sessions. apply keeps_bind; [apply keeps_requireAuth | intros [resp | req']].
    + constructor.
    + apply keeps_getSessions.
Qed.

(** Whatever two requests are in flight on whatever routes, and however
    their statements interleave, tables that satisfied the schema's
    constraints still satisfy them when both requests have been
    answered: ids unique and drawn from the sequences, emails unique,
    every refresh token owned by an existing user. *)
Theorem routes_keep_consistent
    (schedule : list bool) (e1 e2 : Endpoint) (req1 req2 : Request) (w : World) :
  consistent (db w) ->
  consistent (db (fst (fst (interleave schedule (route e1 req1) (route e2 req2) w)))).
Proof.
  intro H. apply interleave_keeps; [apply keeps_route | apply keeps_route | exact H].
Qed.

(** The writing statements of both models, the ones no route calls
    included (password change, account deletion with its cascade, the
    sweep), keep the tables consistent. *)
Theorem models_keep_consistent (w : World) :
  consistent (db w) ->
  (forall email passwordHash,
      consistent (db (fst (run (UserModel.create email passwordHash) w))))
  /\ (forall id passwordHash,
        consistent (db (fst (run (UserModel.updatePassword id passwordHash) w))))
  /\ (forall id, consistent (db (fst (run (UserModel.delete id) w))))
  /\ (forall userId tokenHash expiresAt,
        consistent (db (fst (run (RefreshTokenModel.create userId tokenHash expiresAt) w))))
  /\ (forall id, consistent (db (fst (run (RefreshTokenModel.revoke id) w))))
  /\ (forall userId, consistent (db (fst (run (RefreshTokenModel.revokeAllForUser userId) w))))
  /\ (forall tokenHash,
        consistent (db (fst (run (RefreshTokenModel.revokeByTokenHash tokenHash) w))))
  /\ consistent (db (fst (run RefreshTokenModel.cleanupExpired w))).
Proof.
  intro H.
  repeat match goal with |- _ /\ _ => split end;
    intros; apply run_keeps; try exact H; apply keeps_statement; intros t d Hd.
  - apply consistent_user_create. exact Hd.
  - apply consistent_user_updatePassword. exact Hd.
  - apply consistent_user_delete. exact Hd.
  - apply consistent_token_create. exact Hd.
  - apply (consistent_update_revoked_at _ _ Hd).
  - apply (consistent_update_revoked_at _ _ Hd).
  - apply (consistent_update_revoked_at _ _ Hd).
  - apply consistent_cleanupExpired. exact Hd.
Qed.

End RoutesKeep.

Lemma registered_consistent : consistent (db Scenario.registered).
Proof.
  constructor; simpl; repeat constructor; simpl; try lia; try tauto.
Qed.

Section RoutesKeepWitness.
#[local] Existing Instance Demo.runtime.

(** The two racing refreshes of the registration's secret. *)
Lemma routes_keep_consistent_witness :
  consistent
    (db (fst (fst (interleave [true; false]
                     (route PostRefresh (Scenario.request (Scenario.presenting Scenario.secretA)))
                     (route PostRefresh (Scenario.request (Scenario.presenting Scenario.secretA)))
                     Scenario.registered)))).
Proof.
  apply (@routes_keep_consistent Demo.runtime [true; false] PostRefresh PostRefresh
           (Scenario.request (Scenario.presenting Scenario.secretA))
           (Scenario.request (Scenario.presenting Scenario.secretA))
           Scenario.registered).
  exact registered_consistent.
Defined.

Lemma models_keep_consistent_witness :
  (forall email passwordHash,
      consistent (db (fst (run (UserModel.create email passwordHash) Scenario.registered))))
  /\ (forall id passwordHash,
        consistent (db (fst (run (UserModel.updatePassword id passwordHash)
                               Scenario.registered))))
  /\ (forall id, consistent (db (fst (run (UserModel.delete id) Scenario.registered))))
  /\ (forall userId tokenHash expiresAt,
        consistent (db (fst (run (RefreshTokenModel.create userId tokenHash expiresAt)
                               Scenario.registered))))
  /\ (forall id, consistent (db (fst (run (RefreshTokenModel.revoke id) Scenario.registered))))
  /\ (forall userId,
        consistent (db (fst (run (RefreshTokenModel.revokeAllForUser userId)
                               Scenario.registered))))
  /\ (forall tokenHash,
        consistent (db (fst (run (RefreshTokenModel.revokeByTokenHash tokenHash)
                               Scenario.registered))))
  /\ consistent (db (fst (run RefreshTokenModel.cleanupExpired Scenario.registered))).
Proof.
  apply (@models_keep_consistent Demo.runtime Scenario.registered).
  exact registered_consistent.
Defined.

End RoutesKeepWitness.

(** ** Every request is answered *)

Section AlwaysAnswered.
Context {RT : Runtime}.

Lemma answers_bind {A B : Type} (p : Prog A) (f : A -> Prog B) :
  Answers p -> (forall a, Answers (f a)) -> Answers (bind p f).
Proof.
  intros Hp Hf. induction Hp; simpl; try (constructor; auto). apply Hf.
Qed.

(** A catch clause that answers makes the whole [try] answer. *)
Lemma answers_try_catch {A : Type} (p : Prog A) (h : JsError -> Prog A) :
  (forall e, Answers (h e)) -> Answers (try_catch p h).
Proof.
  intro Hh. induction p; simpl; try (constructor; auto). apply Hh.
Qed.

Lemma step_answers {A : Type} (p : Prog A) (w : World) :
  Answers p -> Answers (fst (step p w)).
Proof.
  intro Hp. destruct Hp as [a | R sql k Hk | k Hk | k Hk]; simpl.
  - constructor.
  - destruct (sql (now w) (db w)) as [d c]. apply Hk.
  - apply Hk.
  - apply Hk.
Qed.

Lemma run_answers {A : Type} (p : Prog A) (w : World) :
  Answers p -> exists w' a, run p w = (w', Normal a).
Proof.
  intro Hp. revert w.
  induction Hp as [a | R sql k Hk IH | k Hk IH | k Hk IH]; intro w; simpl.
  - eauto.
  - destruct (sql (now w) (db w)) as [d c]. apply IH.
  - apply IH.
  - apply IH.
Qed.

Lemma interleave_answers {A B : Type} (schedule : list bool) (p : Prog A) (q : Prog B)
    (w : World) :
  Answers p -> Answers q ->
  exists w' a b, interleave schedule p q w = (w', Normal a, Normal b).
Proof.
  revert p q w. induction schedule as [| [|] s IH]; intros p q w Hp Hq; simpl.
  - destruct (run_answers w Hp) as (w1 & a & ->).
    destruct (run_answers w1 Hq) as (w2 & b & ->). eauto.
  - pose proof (step_answers w Hp) as Hp'.
    destruct (step p w) as [p' w']. apply IH; assumption.
  - pose proof (step_answers w Hq) as Hq'.
    destruct (step q w) as [q' w']. apply IH; assumption.
Qed.

Lemma answers_route (e : Endpoint) (req : Request) : Answers (route e req).
Proof.
  destruct e; unfold route.
  - apply answers_try_catch. intro. constructor.
  - apply answers_try_catch. intro. constructor.
  - apply answers_try_catch. intro. constructor.
  - unfold post_logout. apply answers_bind.
    + apply answers_try_catch. intro. constructor.
    + intro req'. apply answers_try_catch. intro. constructor.
  - unfold get_sessions. apply answers_bind.
    + apply answers_try_catch. intro. constructor.
    + intros [resp | req']; [constructor |].
      apply answers_try_catch. intro. constructor.
Qed.

(** No route lets an error escape: a request is answered with a
    response whatever the database, the packages, the clock and the body
    do, alone or with a second request in flight under any schedule. *)
Theorem routes_always_answer (e1 e2 : Endpoint) (req1 req2 : Request) (w : World) :
  (exists w' r, run (route e1 req1) w = (w', Normal r))
  /\ (forall schedule,
        exists w' r1 r2,
          interleave schedule (route e1 req1) (route e2 req2) w
          = (w', Normal r1, Normal r2)).
Proof.
  split.
  - apply run_answers. apply answers_route.
  - intro schedule. apply interleave_answers; apply answers_route.
Qed.

End AlwaysAnswered.

(** ** Lifetimes *)

Section Lifetimes.
Context {RT : Runtime}.

Lemma split_last_app (s : string) (c : ascii) :
  split_last (s ++ String c "") = Some (s, c).
Proof.
  induction s as [| x s IH]; simpl.
  - reflexivity.
  - rewrite IH. reflexivity.
Qed.

Lemma split_last_inv (s front : string) (c : ascii) :
  split_last s = Some (front, c) -> s = (front ++ String c "")%string.
Proof.
  revert front. induction s as [| x s IH]; simpl; intros front H.
  - discriminate H.
  - destruct (split_last s) as [[f l] |] eqn:E.
    + injection H as <- <-. simpl. f_equal. apply IH. reflexivity.
    + injection H as <- <-. destruct s as [| y s]; [reflexivity |].
      simpl in E. destruct (split_last s) as [[f l] |]; discriminate E.
Qed.

Lemma digits_value_nonneg (s : string) (acc : Z) :
  string_forall is_digit s = true -> 0 <= acc -> 0 <= digits_value s acc.
Proof.
  revert acc. induction s as [| c s IH]; cbn [digits_value string_forall];
    intros acc Hd Hacc.
  - exact Hacc.
  - apply andb_true_iff in Hd. destruct Hd as [Hc Hs].
    apply IH; [exact Hs |].
    unfold is_digit in Hc. apply andb_true_iff in Hc. destruct Hc as [Hlo _].
    apply N.leb_le in Hlo.
    assert (48 <= Z.of_N (N_of_ascii c)) by (change 48 with (Z.of_N 48); lia).
    lia.
Qed.

(** [parseExpiry] accepts exactly one or more decimal digits followed by
    one of the letters s, m, h, d, and returns the number the digits
    spell times the unit in milliseconds.  Everything else, the empty
    string and a bare number included, throws "Invalid expiry format"
    with the offending text. *)
Theorem parseExpiry_spec (expiry : string) :
  (forall z,
      parseExpiry expiry = Normal z
      <-> exists ds u f,
            expiry = (ds ++ String u "")%string
            /\ ds <> ""
            /\ string_forall is_digit ds = true
            /\ unit_factor u = Some f
            /\ z = digits_value ds 0 * f)
  /\ (forall e,
        parseExpiry expiry = Abrupt e ->
        e = mkError "Error" ("Invalid expiry format: " ++ expiry)).
Proof.
  split.
  - intro z. split.
    + unfold parseExpiry. intro H.
      destruct (split_last expiry) as [[front u] |] eqn:Es; [| discriminate H].
      destruct front as [| d ds]; [discriminate H |].
      destruct (string_forall is_digit (String d ds)) eqn:Ed; [| discriminate H].
      apply split_last_inv in Es. cbv zeta in H.
      exists (String d ds), u. unfold unit_factor.
      set (v := digits_value (String d ds) 0) in *.
      destruct (Ascii.eqb u "s");
        [injection H as <-; exists 1000;
         split; [exact Es |]; split; [discriminate |]; split; [exact Ed |];
         split; [reflexivity | lia] |].
      destruct (Ascii.eqb u "m");
        [injection H as <-; exists 60000;
         split; [exact Es |]; split; [discriminate |]; split; [exact Ed |];
         split; [reflexivity | lia] |].
      destruct (Ascii.eqb u "h");
        [injection H as <-; exists 3600000;
         split; [exact Es |]; split; [discriminate |]; split; [exact Ed |];
         split; [reflexivity | lia] |].
      destruct (Ascii.eqb u "d");
        [injection H as <-; exists 86400000;
         split; [exact Es |]; split; [discriminate |]; split; [exact Ed |];
         split; [reflexivity | lia] |].
      discriminate H.
    + intros (ds & u & f & -> & Hne & Hd & Hf & ->).
      unfold parseExpiry. rewrite split_last_app.
      destruct ds as [| d ds]; [contradiction Hne; reflexivity |].
      rewrite Hd. unfold unit_factor in Hf. cbv zeta.
      set (v := digits_value (String d ds) 0).
      destruct (Ascii.eqb u "s"); [injection Hf as <-; f_equal; lia |].
      destruct (Ascii.eqb u "m"); [injection Hf as <-; f_equal; lia |].
      destruct (Ascii.eqb u "h"); [injection Hf as <-; f_equal; lia |].
      destruct (Ascii.eqb u "d"); [injection Hf as <-; f_equal; lia |].
      discriminate Hf.
  - intros e. unfold parseExpiry.
    destruct (split_last expiry) as [[front u] |]; [| intro H; injection H as <-; reflexivity].
    destruct front as [| d ds]; [intro H; injection H as <-; reflexivity |].
    destruct (string_forall is_digit (String d ds));
      [| intro H; injection H as <-; reflexivity].
    destruct (Ascii.eqb u "s"); [discriminate |].
    destruct (Ascii.eqb u "m"); [discriminate |].
    destruct (Ascii.eqb u "h"); [discriminate |].
    destruct (Ascii.eqb u "d"); [discriminate |].
    intro H; injection H as <-; reflexivity.
Qed.

Lemma parseExpiry_nonneg (expiry : string) (z : Z) :
  parseExpiry expiry = Normal z -> 0 <= z.
Proof.
  unfold parseExpiry.
  destruct (split_last expiry) as [[front u] |]; [| discriminate].
  destruct front as [| d ds]; [discriminate |].
  destruct (string_forall is_digit (String d ds)) eqn:Ed; [| discriminate].
  pose proof (@digits_value_nonneg (String d ds) 0 Ed (Z.le_refl 0)) as Hv.
  cbv zeta. set (v := digits_value (String d ds) 0) in *.
  destruct (Ascii.eqb u "s"); [intro H; injection H as <-; lia |].
  destruct (Ascii.eqb u "m"); [intro H; injection H as <-; lia |].
  destruct (Ascii.eqb u "h"); [intro H; injection H as <-; lia |].
  destruct (Ascii.eqb u "d"); [intro H; injection H as <-; lia |].
  discriminate.
Qed.

(** Whatever lifetime is configured, an expiry that
    [getRefreshTokenExpiry] returns is never before the clock it read,
    it reads the clock once, and a lifetime that does not parse makes it
    throw before it reads the clock. *)
Theorem getRefreshTokenExpiry_not_in_the_past (w : World) :
  (forall w' expiresAt,
      run getRefreshTokenExpiry w = (w', Normal expiresAt) ->
      now w <= expiresAt /\ w' = tick (db w) w)
  /\ (forall w' e, run getRefreshTokenExpiry w = (w', Abrupt e) -> w' = w).
Proof.
  rewrite run_getRefreshTokenExpiry.
  destruct (parseExpiry REFRESH_TOKEN_EXPIRES_IN) as [expiryMs | e0] eqn:E; split.
  - intros w' expiresAt H. apply pair_equal_spec in H. destruct H as [<- H].
    injection H as <-. apply parseExpiry_nonneg in E. split; [lia | reflexivity].
  - intros w' e H. apply pair_equal_spec in H. destruct H as [_ H]. discriminate H.
  - intros w' expiresAt H. apply pair_equal_spec in H. destruct H as [_ H]. discriminate H.
  - intros w' e H. apply pair_equal_spec in H. destruct H as [<- _]. reflexivity.
Qed.

End Lifetimes.

(** ** The email format check *)

Section EmailFormat.
Context {RT : Runtime}.

Lemma string_forall_app (f : ascii -> bool) (s t : string) :
  string_forall f (s ++ t) = string_forall f s && string_forall f t.
Proof.
  induction s as [| c s IH]; simpl.
  - reflexivity.
  - rewrite IH. apply andb_assoc.
Qed.

Lemma split_at_sign_inv (s x y : string) :
  split_at_sign s = Some (x, y) -> s = (x ++ String "@" y)%string.
Proof.
  revert x. induction s as [| c s IH]; simpl; intros x H.
  - discriminate H.
  - destruct (Ascii.eqb c "@") eqn:E.
    + injection H as <- <-. apply Ascii.eqb_eq in E. subst c. reflexivity.
    + destruct (split_at_sign s) as [[a b] |]; [| discriminate H].
      injection H as <- <-. simpl. f_equal. apply IH. reflexivity.
Qed.

Lemma split_at_sign_app (a rest : string) :
  string_forall local_char a = true ->
  split_at_sign (a ++ String "@" rest) = Some (a, rest).
Proof.
  induction a as [| c a IH]; simpl; intro H.
  - reflexivity.
  - apply andb_true_iff in H. destruct H as [Hc Ha].
    unfold local_char in Hc. apply negb_true_iff, orb_false_iff in Hc.
    destruct Hc as [_ Hc]. rewrite Hc, (IH Ha). reflexivity.
Qed.

Lemma dot_before_last_inv (d : string) :
  dot_before_last d = true ->
  exists p q, d = (p ++ String "." q)%string /\ q <> "".
Proof.
  induction d as [| c d IH]; simpl; intro H.
  - discriminate H.
  - destruct d as [| c' d']; [discriminate H |].
    destruct (Ascii.eqb c ".") eqn:E.
    + apply Ascii.eqb_eq in E. subst c.
      exists "", (String c' d'). split; [reflexivity | discriminate].
    + simpl in H. destruct (IH H) as (p & q & Hd & Hq).
      exists (String c p), q. split; [simpl; rewrite Hd; reflexivity | exact Hq].
Qed.

Lemma dot_before_last_app (p q : string) :
  q <> "" -> dot_before_last (p ++ String "." q) = true.
Proof.
  intro Hq. induction p as [| c p IH]; simpl.
  - destruct q; [contradiction Hq; reflexivity | reflexivity].
  - destruct (p ++ String "." q)%string eqn:E.
    + destruct p; discriminate E.
    + rewrite IH. apply orb_true_r.
Qed.

(** [validateEmail] accepts exactly the texts of the shape
    local@domain.tail in which the three parts are non-empty and hold
    neither white space nor another ["@"]: the language of the regular
    expression in the source. *)
Theorem validateEmail_spec (email : string) :
  validateEmail email = true
  <-> exists a b c,
        email = (a ++ String "@" (b ++ String "." c))%string
        /\ a <> "" /\ b <> "" /\ c <> ""
        /\ string_forall local_char a = true
        /\ string_forall local_char b = true
        /\ string_forall local_char c = true.
Proof.
  unfold validateEmail. split.
  - destruct (split_at_sign email) as [[a dom] |] eqn:Es; [| discriminate].
    destruct a as [| a0 a]; [discriminate |].
    destruct dom as [| b0 d]; [discriminate |].
    intro H. apply andb_true_iff in H. destruct H as [H Hdot].
    apply andb_true_iff in H. destruct H as [Ha Hdom].
    apply split_at_sign_inv in Es.
    destruct (dot_before_last_inv _ Hdot) as (p & q & -> & Hq).
    change (String b0 (p ++ String "." q))%string
      with (String b0 p ++ String "." q)%string in Hdom.
    rewrite string_forall_app in Hdom. apply andb_true_iff in Hdom.
    destruct Hdom as [Hb Hc]. cbn [string_forall] in Hc.
    apply andb_true_iff in Hc. destruct Hc as [_ Hc].
    exists (String a0 a), (String b0 p), q.
    repeat split; try assumption; discriminate.
  - intros (a & b & c & -> & Ha & Hb & Hc & Hfa & Hfb & Hfc).
    rewrite (@split_at_sign_app a _ Hfa).
    destruct a as [| a0 a]; [contradiction Ha; reflexivity |].
    destruct b as [| b0 b]; [contradiction Hb; reflexivity |].
    cbn [append]. rewrite Hfa.
    change (String b0 (b ++ String "." c))%string
      with (String b0 b ++ String "." c)%string.
    rewrite string_forall_app, Hfb. cbn [string_forall]. rewrite Hfc.
    rewrite (@dot_before_last_app b c Hc). reflexivity.
Qed.

End EmailFormat.

(** ** Registration and login, step by step *)

Section RegisterLogin.
Context {RT : Runtime}.

Lemma row_by_email_none (email : string) (d : Db) :
  UserModel.row_by_email email d = None ->
  existsb (fun u => User.email u =? email) (users d) = false.
Proof.
  unfold UserModel.row_by_email. intro H.
  induction (users d) as [| u l IH]; simpl in *.
  - reflexivity.
  - destruct (User.email u =? email); [discriminate H | apply IH; exact H].
Qed.

Lemma row_by_email_inv (email : string) (d : Db) (u : User.t) :
  UserModel.row_by_email email d = Some u ->
  In u (users d) /\ User.email u = email.
Proof.
  unfold UserModel.row_by_email. intro H.
  assert (Hin : In u (filter (fun u' => User.email u' =? email) (users d))).
  { destruct (filter _ (users d)); [discriminate H |].
    injection H as ->. left. reflexivity. }
  apply filter_In in Hin. destruct Hin as [Hin Heq].
  split; [exact Hin | apply String.eqb_eq; exact Heq].
Qed.

(** [register] on a body that passes the three checks. *)
Lemma run_register_valid (req : Request) (value : string -> string) (w : World) :
  Joi_validate AuthController.registerSchema (body req) = inr value ->
  validateEmail (value "email") = true ->
  valid (validatePassword (value "password")) = true ->
  run (AuthController.register req) w =
  match UserModel.row_by_email (value "email") (db w) with
  | Some _ => (tick (db w) w, Normal AuthController.user_exists)
  | None =>
      let w1 := draw (tick (db w) w) in
      match argon2_hash (value "password") (entropy (draws w)) with
      | Abrupt _ => (w1, Normal AuthController.internal_error)
      | Normal passwordHash =>
          let created :=
            UserModel.create_sql (value "email") passwordHash (now w1) (db w) in
          match snd created with
          | Abrupt _ => (tick (fst created) w1, Normal AuthController.internal_error)
          | Normal user =>
              let issued :=
                run (AuthController.issue_tokens 201 "User registered successfully" user)
                  (tick (fst created) w1) in
              (fst issued,
               Normal match snd issued with
                      | Normal r => r
                      | Abrupt _ => AuthController.internal_error
                      end)
          end
      end
  end.
Proof.
  intros Hjoi Hemail Hpassword.
  unfold AuthController.register. rewrite Hjoi. cbv zeta.
  rewrite Hemail, Hpassword. cbn [negb].
  rewrite run_try_catch, run_bind.
  unfold UserModel.findByEmail. rewrite run_query.
  cbn [UserModel.findByEmail_sql fst snd].
  destruct (UserModel.row_by_email (value "email") (db w)); [reflexivity |].
  rewrite run_bind. unfold hashPassword, random_bytes_hex. cbn [bind run].
  rewrite run_complete. cbn [db tick draw draws ticks].
  destruct (argon2_hash (value "password") (entropy (draws w))) as [passwordHash | e];
    [| reflexivity].
  rewrite run_bind. unfold UserModel.create. rewrite run_query.
  cbn [db tick draw draws ticks].
  destruct (snd (UserModel.create_sql _ _ _ _)) as [user | e]; [| reflexivity].
  destruct (run (AuthController.issue_tokens _ _ _) _) as [w4 [r | e]]; reflexivity.
Qed.

(** [login] on a body the schema accepts. *)
Lemma run_login_valid (req : Request) (value : string -> string) (w : World) :
  Joi_validate AuthController.loginSchema (body req) = inr value ->
  run (AuthController.login req) w =
  match UserModel.row_by_email (value "email") (db w) with
  | None => (tick (db w) w, Normal AuthController.invalid_credentials)
  | Some user =>
      match argon2_verify (User.password_hash user) (value "password") with
      | Normal true =>
          let issued :=
            run (AuthController.issue_tokens 200 "Login successful" user)
              (tick (db w) w) in
          (fst issued,
           Normal match snd issued with
                  | Normal r => r
                  | Abrupt _ => AuthController.internal_error
                  end)
      | _ => (tick (db w) w, Normal AuthController.invalid_credentials)
      end
  end.
Proof.
  intro Hjoi. unfold AuthController.login. rewrite Hjoi. cbv zeta.
  rewrite run_try_catch, run_bind.
  unfold UserModel.findByEmail. rewrite run_query.
  cbn [UserModel.findByEmail_sql fst snd].
  destruct (UserModel.row_by_email (value "email") (db w)) as [user |]; [| reflexivity].
  rewrite run_bind, run_verifyPassword.
  destruct (argon2_verify (User.password_hash user) (value "password")) as [[|] | e];
    try reflexivity.
  cbn [negb].
  destruct (run (AuthController.issue_tokens _ _ _) _) as [w4 [r | e]]; reflexivity.
Qed.

(** The validation in front of the three public handlers: a body the
    schema rejects is answered 400 VALIDATION_ERROR with Joi's messages;
    [register] then checks the email format (400 INVALID_EMAIL) and then
    the password strength (400 WEAK_PASSWORD with the broken rules).  In
    every one of these cases no statement is sent, the clock is not read
    and no random bytes are drawn: the world is left as it was. *)
Theorem validation_failures_touch_nothing (req : Request) (w : World) :
  (forall details,
      Joi_validate AuthController.registerSchema (body req) = inl details ->
      run (AuthController.register req) w
      = (w, Normal (mkResponse 400
                      (ErrorBody "Validation failed" (Some details) "VALIDATION_ERROR"))))
  /\ (forall value,
        Joi_validate AuthController.registerSchema (body req) = inr value ->
        validateEmail (value "email") = false ->
        run (AuthController.register req) w
        = (w, Normal (mkResponse 400 (ErrorBody "Invalid email format" None "INVALID_EMAIL"))))
  /\ (forall value,
        Joi_validate AuthController.registerSchema (body req) = inr value ->
        validateEmail (value "email") = true ->
        valid (validatePassword (value "password")) = false ->
        run (AuthController.register req) w
        = (w, Normal (mkResponse 400
                        (ErrorBody "Password does not meet requirements"
                           (Some (errors (validatePassword (value "password"))))
                           "WEAK_PASSWORD"))))
  /\ (forall details,
        Joi_validate AuthController.loginSchema (body req) = inl details ->
        run (AuthController.login req) w
        = (w, Normal (mkResponse 400
                        (ErrorBody "Validation failed" (Some details) "VALIDATION_ERROR"))))
  /\ (forall details,
        Joi_validate AuthController.refreshSchema (body req) = inl details ->
        run (AuthController.refresh req) w
        = (w, Normal (mkResponse 400
                        (ErrorBody "Validation failed" (Some details) "VALIDATION_ERROR")))).
Proof.
  repeat match goal with |- _ /\ _ => split end.
  - intros details H. unfold AuthController.register. rewrite H. reflexivity.
  - intros value H He. unfold AuthController.register. rewrite H. cbv zeta.
    rewrite He. reflexivity.
  - intros value H He Hp. unfold AuthController.register. rewrite H. cbv zeta.
    rewrite He, Hp. reflexivity.
  - intros details H. unfold AuthController.login. rewrite H. reflexivity.
  - intros details H. unfold AuthController.refresh. rewrite H. reflexivity.
Qed.

End RegisterLogin.

Section RegisterLoginSuccess.
Context {RT : Runtime}.

Lemma row_by_email_new (d : Db) (u : User.t) (l : list User.t) :
  users d = l ++ [u] ->
  existsb (fun u' => User.email u' =? User.email u) l = false ->
  UserModel.row_by_email (User.email u) d = Some u.
Proof.
  unfold UserModel.row_by_email. intros -> Hfree. rewrite filter_app.
  replace (filter (fun u' => User.email u' =? User.email u) l) with (@nil User.t).
  - simpl. rewrite String.eqb_refl. reflexivity.
  - symmetry. induction l as [| x l IH]; simpl in *.
    + reflexivity.
    + apply orb_false_iff in Hfree. destruct Hfree as [Hx Hl].
      rewrite Hx. apply IH. exact Hl.
Qed.

(** A registration that passes the checks, for a free email, with argon2
    and both lifetimes in order. *)
Lemma register_success (req : Request) (value : string -> string) (w : World)
    (digest : string) (lifetime expiryMs : Z) :
  Joi_validate AuthController.registerSchema (body req) = inr value ->
  validateEmail (value "email") = true ->
  valid (validatePassword (value "password")) = true ->
  UserModel.row_by_email (value "email") (db w) = None ->
  argon2_hash (value "password") (entropy (draws w)) = Normal digest ->
  ms JWT_EXPIRES_IN = Some lifetime ->
  parseExpiry REFRESH_TOKEN_EXPIRES_IN = Normal expiryMs ->
  exists w' accessToken createdAt,
    run (AuthController.register req) w
    = (w', Normal (mkResponse 201
                     (AuthBody "User registered successfully" accessToken
                        (entropy (S (draws w)))
                        (mkAuthUser (users_id_seq (db w) + 1) (value "email")))))
    /\ users (db w') = users (db w) ++ [new_account w (value "email") digest]
    /\ refresh_tokens (db w')
       = refresh_tokens (db w)
         ++ [RefreshToken.mk (refresh_tokens_id_seq (db w) + 1) (users_id_seq (db w) + 1)
               (sha256_hex (entropy (S (draws w))))
               (clock (S (S (S (ticks w)))) + expiryMs) createdAt None].
Proof.
  intros Hjoi Hemail Hpassword Hfree Hhash Hms Hpe.
  rewrite (run_register_valid _ w Hjoi Hemail Hpassword), Hfree. cbv zeta.
  rewrite Hhash. unfold UserModel.create_sql.
  rewrite (row_by_email_none _ _ Hfree). cbn [fst snd].
  set (u := User.mk _ _ _ _ _).
  set (w3 := tick _ (draw (tick (db w) w))).
  assert (Hfk : existsb (fun u' => (User.id u' =? User.id u)%Z) (users (db w3)) = true).
  { unfold w3. cbn [db tick with_users users]. rewrite existsb_app. simpl.
    rewrite Z.eqb_refl. apply orb_true_r. }
  pose proof (run_issue_tokens 201 "User registered successfully" u w3 Hfk) as Hissue.
  rewrite Hms, Hpe in Hissue.
  destruct Hissue as (w' & accessToken & createdAt & Hrun & Hdb).
  rewrite Hrun. exists w', accessToken, createdAt.
  split; [reflexivity |]. rewrite Hdb. split; reflexivity.
Qed.

(** The other way round: what a 201 tells about the request and about
    the world it left. *)
Lemma register_created_inv (req : Request) (w w1 : World) (r : Response) :
  run (AuthController.register req) w = (w1, Normal r) ->
  status r = 201 ->
  exists value digest lifetime expiryMs,
    Joi_validate AuthController.registerSchema (body req) = inr value
    /\ validateEmail (value "email") = true
    /\ valid (validatePassword (value "password")) = true
    /\ UserModel.row_by_email (value "email") (db w) = None
    /\ argon2_hash (value "password") (entropy (draws w)) = Normal digest
    /\ ms JWT_EXPIRES_IN = Some lifetime
    /\ parseExpiry REFRESH_TOKEN_EXPIRES_IN = Normal expiryMs.
Proof.
  intros Hrun Hstatus.
  destruct (Joi_validate AuthController.registerSchema (body req)) as [details | value] eqn:Hjoi.
  { unfold AuthController.register in Hrun. rewrite Hjoi in Hrun.
    cbn in Hrun. injection Hrun as _ <-. discriminate Hstatus. }
  destruct (validateEmail (value "email")) eqn:Hemail.
  2:{ unfold AuthController.register in Hrun. rewrite Hjoi in Hrun. cbv zeta in Hrun.
      rewrite Hemail in Hrun. cbn in Hrun. injection Hrun as _ <-. discriminate Hstatus. }
  destruct (valid (validatePassword (value "password"))) eqn:Hpassword.
  2:{ unfold AuthController.register in Hrun. rewrite Hjoi in Hrun. cbv zeta in Hrun.
      rewrite Hemail, Hpassword in Hrun. cbn in Hrun.
      injection Hrun as _ <-. discriminate Hstatus. }
  rewrite (run_register_valid _ w Hjoi Hemail Hpassword) in Hrun.
  destruct (UserModel.row_by_email (value "email") (db w)) as [u |] eqn:Hfree.
  { injection Hrun as _ <-. discriminate Hstatus. }
  cbv zeta in Hrun.
  destruct (argon2_hash (value "password") (entropy (draws w))) as [digest | e] eqn:Hhash.
  2:{ injection Hrun as _ <-. discriminate Hstatus. }
  unfold UserModel.create_sql in Hrun.
  rewrite (row_by_email_none _ _ Hfree) in Hrun. cbn [fst snd] in Hrun.
  set (u := User.mk _ _ _ _ _) in Hrun.
  set (w3 := tick _ (draw (tick (db w) w))) in Hrun.
  assert (Hfk : existsb (fun u' => (User.id u' =? User.id u)%Z) (users (db w3)) = true).
  { unfold w3. cbn [db tick with_users users]. rewrite existsb_app. simpl.
    rewrite Z.eqb_refl. apply orb_true_r. }
  pose proof (run_issue_tokens 201 "User registered successfully" u w3 Hfk) as Hissue.
  exists value, digest.
  destruct (ms JWT_EXPIRES_IN) as [lifetime |].
  - destruct (parseExpiry REFRESH_TOKEN_EXPIRES_IN) as [expiryMs | e].
    + exists lifetime, expiryMs. repeat split; solve [assumption | reflexivity].
    + destruct Hissue as (w' & e' & Hi). rewrite Hi in Hrun.
      injection Hrun as _ <-. discriminate Hstatus.
  - destruct Hissue as (w' & e' & Hi). rewrite Hi in Hrun.
    injection Hrun as _ <-. discriminate Hstatus.
Qed.

End RegisterLoginSuccess.

Section RegisterLoginTheorems.
Context {RT : Runtime}.


(** After a registration that was answered 201, the same registration
    again, at any later time, is answered 409 USER_EXISTS and writes
    nothing. *)
Theorem register_again_is_refused (req : Request) (w w1 : World) (r : Response) :
  run (AuthController.register req) w = (w1, Normal r) ->
  status r = 201 ->
  forall w', db w' = db w1 ->
    run (AuthController.register req) w'
    = (tick (db w') w',
       Normal (mkResponse 409
                 (ErrorBody "User already exists with this email" None "USER_EXISTS"))).
Proof.
  intros Hrun Hstatus w' Hdb.
  destruct (register_created_inv _ _ Hrun Hstatus)
    as (value & digest & lifetime & expiryMs & Hjoi & Hemail & Hpassword & Hfree
        & Hhash & Hms & Hpe).
  destruct (register_success _ w Hjoi Hemail Hpassword Hfree Hhash Hms Hpe)
    as (w1' & accessToken & createdAt & Hrun' & Husers & _).
  rewrite Hrun in Hrun'. injection Hrun' as -> _.
  rewrite (run_register_valid _ w' Hjoi Hemail Hpassword), Hdb.
  pose proof (@row_by_email_new (db w1') (new_account w (value "email") digest) _ Husers
                (row_by_email_none _ _ Hfree)) as Hrow.
  cbn [new_account User.email] in Hrow. rewrite Hrow.
  reflexivity.
Qed.



End RegisterLoginTheorems.

Lemma demo_argon2_verifies (password salt digest : string) :
  Demo.demo_argon2_hash password salt = Normal digest ->
  Demo.demo_argon2_verify digest password = Normal true.
Proof.
  unfold Demo.demo_argon2_hash, Demo.demo_argon2_verify. intro H.
  assert (Hd : digest = Demo.frame "argon2id" (Demo.frame salt password)) by congruence.
  subst digest. clear H.
  rewrite demo_unframe_frame, String.eqb_refl.
  rewrite demo_unframe_frame, String.eqb_refl. reflexivity.
Qed.

Section RegisterLoginWitnesses.
#[local] Existing Instance Demo.runtime.


Lemma register_again_is_refused_witness :
  run (AuthController.register
         (Scenario.request (Scenario.credentials "a@x.com" "Passw0rd1")))
      Scenario.registered
  = (tick (db Scenario.registered) Scenario.registered,
     Normal (mkResponse 409
               (ErrorBody "User already exists with this email" None "USER_EXISTS"))).
Proof.
  eapply (@register_again_is_refused Demo.runtime
            (Scenario.request (Scenario.credentials "a@x.com" "Passw0rd1"))
            Scenario.empty Scenario.registered).
  - vm_compute. reflexivity.
  - reflexivity.
  - reflexivity.
Defined.



End RegisterLoginWitnesses.

(** ** Logout *)

Section LogoutTheorems.
Context {RT : Runtime}.

Lemma filter_none {A : Type} (p : A -> bool) (l : list A) :
  (forall x, In x l -> p x = false) -> filter p l = [].
Proof.
  induction l as [| x l IH]; simpl; intro H.
  - reflexivity.
  - rewrite (H x (or_introl eq_refl)). apply IH. intros y Hy. apply H. right. exact Hy.
Qed.

(** A row that is revoked stays revoked through any UPDATE of
    [revoked_at], and the UPDATE moves no hash. *)
Lemma revoked_hash_after_update (P : RefreshToken.t -> bool) (t : Date)
    (l : list RefreshToken.t) (h : string) :
  (forall r, In r l -> RefreshToken.token_hash r = h -> RefreshToken.revoked_at r <> None) ->
  forall r, In r (RefreshTokenModel.update_revoked_at P t l) ->
            RefreshToken.token_hash r = h -> RefreshToken.revoked_at r <> None.
Proof.
  intros H r Hin Hh. apply in_update_revoked_at in Hin.
  destruct Hin as [(r0 & _ & _ & ->) | [Hin _]].
  - discriminate.
  - apply H; assumption.
Qed.

(** After [revokeByTokenHash] no row with the hash is unrevoked. *)
Lemma revokeByTokenHash_revokes (h : string) (t : Date) (d : Db) (r : RefreshToken.t) :
  In r (refresh_tokens (fst (RefreshTokenModel.revokeByTokenHash_sql h t d))) ->
  RefreshToken.token_hash r = h ->
  RefreshToken.revoked_at r <> None.
Proof.
  simpl. intros Hin Hh Hnone.
  apply (unrevoked_after_guarded_update (fun r => RefreshToken.token_hash r =? h))
    in Hin; [| exact Hnone].
  destruct Hin as [_ Hne]. apply String.eqb_neq in Hne. contradiction.
Qed.

(** After [revokeAllForUser] no row of the user is unrevoked. *)
Lemma revokeAllForUser_revokes (userId : Z) (t : Date) (d : Db) (r : RefreshToken.t) :
  In r (refresh_tokens (fst (RefreshTokenModel.revokeAllForUser_sql userId t d))) ->
  RefreshToken.user_id r = userId ->
  RefreshToken.revoked_at r <> None.
Proof.
  simpl. intros Hin Hu Hnone.
  apply (unrevoked_after_guarded_update (fun r => (RefreshToken.user_id r =? userId)%Z))
    in Hin; [| exact Hnone].
  destruct Hin as [_ Hne]. apply Z.eqb_neq in Hne. contradiction.
Qed.

(** A logout of an authenticated request that was answered 200 ends
    every session of the account: from then on the session listing of
    the account is empty, at any time. *)
Theorem logout_ends_every_session
    (req : Request) (u : AuthUser) (w w1 : World) (r : Response) :
  user req = Some u ->
  run (AuthController.logout req) w = (w1, Normal r) ->
  status r = 200 ->
  forall w', db w' = db w1 ->
    run (AuthController.getSessions req) w'
    = (tick (db w') w', Normal (mkResponse 200 (SessionsBody [] 0))).
Proof.
  intros Hu Hrun Hstatus w' Hdb.
  assert (Hrev : forall x, In x (refresh_tokens (db w1)) ->
                           RefreshToken.user_id x = auth_id u ->
                           RefreshToken.revoked_at x <> None).
  { rewrite run_logout, Hu in Hrun.
    destruct (js_get (body req) "refreshToken") as [v | e];
      [| injection Hrun as _ <-; discriminate Hstatus].
    cbv zeta in Hrun.
    destruct (if truthy v then _ else Some w) as [w0 |];
      [| injection Hrun as _ <-; discriminate Hstatus].
    apply pair_equal_spec in Hrun. destruct Hrun as [<- _].
    intros x Hx Hxu. cbn [db tick] in Hx.
    eapply revokeAllForUser_revokes; [exact Hx | exact Hxu]. }
  unfold AuthController.getSessions. rewrite Hu.
  rewrite run_try_catch, run_bind.
  unfold RefreshTokenModel.findActiveByUserId. rewrite run_query.
  cbn [RefreshTokenModel.findActiveByUserId_sql fst snd].
  rewrite filter_none; [reflexivity |].
  intros x Hx. rewrite Hdb in Hx. unfold RefreshTokenModel.active_of_user.
  destruct (RefreshToken.user_id x =? auth_id u)%Z eqn:E; [| reflexivity].
  apply Z.eqb_eq in E. pose proof (Hrev x Hx E) as Hne.
  destruct (RefreshToken.revoked_at x); [reflexivity | contradiction].
Qed.

(** A logout that presents a refresh secret makes that secret useless:
    whoever is logged in or not, a later [refresh] with it is answered
    401 INVALID_REFRESH_TOKEN and writes nothing. *)
Theorem logout_then_refresh_fails
    (reqO reqR : Request) (secret : string) (value : string -> string) (w : World) :
  js_get (body reqO) "refreshToken" = Normal (JsString secret) ->
  secret <> "" ->
  Joi_validate AuthController.refreshSchema (body reqR) = inr value ->
  value "refreshToken" = secret ->
  forall w', db w' = db (fst (run (AuthController.logout reqO) w)) ->
    run (AuthController.refresh reqR) w'
    = (tick (db w') w',
       Normal (mkResponse 401
                 (ErrorBody "Invalid refresh token" None "INVALID_REFRESH_TOKEN"))).
Proof.
  intros Hbody Hne Hjoi Hsecret w' Hdb.
  rewrite (run_refresh _ w' Hjoi), Hsecret.
  rewrite active_row_none; [reflexivity |].
  rewrite Hdb, run_logout, Hbody. cbv zeta.
  assert (Ht : truthy (JsString secret) = true).
  { simpl. apply negb_true_iff. apply String.eqb_neq. exact Hne. }
  rewrite Ht. destruct (user reqO) as [u |]; cbn [fst db tick].
  - apply revoked_hash_after_update. intros r Hr Hh.
    eapply revokeByTokenHash_revokes; [exact Hr | exact Hh].
  - intros r Hr Hh. eapply revokeByTokenHash_revokes; [exact Hr | exact Hh].
Qed.

End LogoutTheorems.

Section LogoutTheoremWitnesses.
#[local] Existing Instance Demo.runtime.

(** Two sessions are open; an authenticated logout that also presents
    the first secret ends both. *)
Lemma logout_ends_every_session_witness :
  run (AuthController.getSessions
         (mkRequest None (Scenario.presenting Scenario.secretA) (Some (mkAuthUser 1 "a@x.com"))))
      (fst (run (AuthController.logout
                   (mkRequest None (Scenario.presenting Scenario.secretA)
                      (Some (mkAuthUser 1 "a@x.com"))))
              Scenario.logged_in))
  = (tick (db (fst (run (AuthController.logout
                           (mkRequest None (Scenario.presenting Scenario.secretA)
                              (Some (mkAuthUser 1 "a@x.com"))))
                      Scenario.logged_in)))
       (fst (run (AuthController.logout
                    (mkRequest None (Scenario.presenting Scenario.secretA)
                       (Some (mkAuthUser 1 "a@x.com"))))
               Scenario.logged_in)),
     Normal (mkResponse 200 (SessionsBody [] 0))).
Proof.
  refine (@logout_ends_every_session Demo.runtime
            (mkRequest None (Scenario.presenting Scenario.secretA)
               (Some (mkAuthUser 1 "a@x.com")))
            (mkAuthUser 1 "a@x.com") Scenario.logged_in _
            (mkResponse 200 (MessageBody "Logout successful")) eq_refl _ eq_refl _ eq_refl).
  vm_compute. reflexivity.
Defined.

(** An anonymous logout with the secret of the registration. *)
Lemma logout_then_refresh_fails_witness :
  run (AuthController.refresh (Scenario.request (Scenario.presenting Scenario.secretA)))
      (fst (run (AuthController.logout (Scenario.request (Scenario.presenting Scenario.secretA)))
              Scenario.registered))
  = (tick (db (fst (run (AuthController.logout
                           (Scenario.request (Scenario.presenting Scenario.secretA)))
                      Scenario.registered)))
       (fst (run (AuthController.logout
                    (Scenario.request (Scenario.presenting Scenario.secretA)))
               Scenario.registered)),
     Normal (mkResponse 401
               (ErrorBody "Invalid refresh token" None "INVALID_REFRESH_TOKEN"))).
Proof.
  refine (@logout_then_refresh_fails Demo.runtime
            (Scenario.request (Scenario.presenting Scenario.secretA))
            (Scenario.request (Scenario.presenting Scenario.secretA))
            Scenario.secretA _ Scenario.registered eq_refl _ eq_refl eq_refl _ eq_refl).
  discriminate.
Defined.

End LogoutTheoremWitnesses.

(** ** When refresh says no *)

Section RefreshRefusal.
Context {RT : Runtime}.

Lemma active_row_none_inv (h : string) (t : Date) (d : Db) :
  RefreshTokenModel.active_row h t d = None ->
  forall r, In r (refresh_tokens d) ->
            RefreshToken.token_hash r = h ->
            RefreshToken.revoked_at r <> None \/ RefreshToken.expires_at r <= t.
Proof.
  unfold RefreshTokenModel.active_row. intros H r Hin Hh.
  destruct (RefreshToken.revoked_at r) as [x |] eqn:Er; [left; discriminate |].
  destruct (Z.le_gt_cases (RefreshToken.expires_at r) t) as [Hle | Hgt]; [right; exact Hle |].
  exfalso.
  assert (Hf : In r (filter (RefreshTokenModel.active_with_hash h t) (refresh_tokens d))).
  { apply filter_In. split; [exact Hin |].
    unfold RefreshTokenModel.active_with_hash.
    rewrite Hh, String.eqb_refl, Er. simpl. apply Z.ltb_lt. lia. }
  destruct (filter _ (refresh_tokens d)); [exact Hf | discriminate H].
Qed.

Lemma active_row_none_of_dead (h : string) (t : Date) (d : Db) :
  (forall r, In r (refresh_tokens d) ->
             RefreshToken.token_hash r = h ->
             RefreshToken.revoked_at r <> None \/ RefreshToken.expires_at r <= t) ->
  RefreshTokenModel.active_row h t d = None.
Proof.
  unfold RefreshTokenModel.active_row. intro H. rewrite filter_none; [reflexivity |].
  intros r Hin. unfold RefreshTokenModel.active_with_hash.
  destruct (RefreshToken.token_hash r =? h) eqn:E; [| reflexivity].
  apply String.eqb_eq in E. destruct (H r Hin E) as [Hrev | Hexp].
  - destruct (RefreshToken.revoked_at r); [reflexivity | contradiction].
  - simpl. apply andb_false_iff. right. apply Z.ltb_ge. exact Hexp.
Qed.

(** [refresh] answers 401 INVALID_REFRESH_TOKEN exactly when every
    record that carries the presented secret's hash is revoked or has
    reached its expiry: an unknown secret, an expired one, a revoked one
    and a rotated one are told apart by nothing.  When it does, it has
    sent one SELECT and written nothing. *)
Theorem refresh_refuses_iff_no_active_record
    (req : Request) (value : string -> string) (w : World) :
  Joi_validate AuthController.refreshSchema (body req) = inr value ->
  ((forall r, In r (refresh_tokens (db w)) ->
              RefreshToken.token_hash r = sha256_hex (value "refreshToken") ->
              RefreshToken.revoked_at r <> None \/ RefreshToken.expires_at r <= now w)
   <-> exists w',
         run (AuthController.refresh req) w
         = (w', Normal (mkResponse 401
                          (ErrorBody "Invalid refresh token" None "INVALID_REFRESH_TOKEN"))))
  /\ (forall w',
        run (AuthController.refresh req) w
        = (w', Normal (mkResponse 401
                         (ErrorBody "Invalid refresh token" None "INVALID_REFRESH_TOKEN"))) ->
        w' = tick (db w) w).
Proof.
  intro Hjoi.
  assert (Hother : forall w',
             run (AuthController.refresh req) w
             = (w', Normal AuthController.invalid_refresh_token) ->
             RefreshTokenModel.active_row (sha256_hex (value "refreshToken")) (now w) (db w)
             = None).
  { intros w' Hrun.
    destruct (RefreshTokenModel.active_row _ _ _) as [st |] eqn:EA; [| reflexivity].
    exfalso.
    destruct (UserModel.row_by_id (RefreshToken.user_id st) (db w)) as [u |] eqn:EU.
    - pose proof (run_refresh_found _ _ Hjoi EA EU) as Hf.
      destruct (ms JWT_EXPIRES_IN); [destruct (parseExpiry REFRESH_TOKEN_EXPIRES_IN) |].
      + destruct Hf as (w1 & tok & t1 & t2 & t3 & Hr & _). rewrite Hr in Hrun.
        discriminate Hrun.
      + destruct Hf as (w1 & Hr). rewrite Hr in Hrun. discriminate Hrun.
      + destruct Hf as (w1 & Hr). rewrite Hr in Hrun. discriminate Hrun.
    - rewrite (run_refresh _ w Hjoi), EA, EU in Hrun. discriminate Hrun. }
  split; [split |].
  - intro Hdead. exists (tick (db w) w).
    rewrite (run_refresh _ w Hjoi), (@active_row_none_of_dead _ _ _ Hdead). reflexivity.
  - intros [w' Hrun]. apply active_row_none_inv. exact (Hother w' Hrun).
  - intros w' Hrun. pose proof (Hother w' Hrun) as Hnone.
    rewrite (run_refresh _ w Hjoi), Hnone in Hrun. injection Hrun as <-. reflexivity.
Qed.

End RefreshRefusal.

Section RefreshRefusalWitness.
#[local] Existing Instance Demo.runtime.

(** A secret nobody was given. *)
Lemma refresh_refuses_iff_no_active_record_witness :
  ((forall r, In r (refresh_tokens (db Scenario.registered)) ->
              RefreshToken.token_hash r = sha256_hex "guess" ->
              RefreshToken.revoked_at r <> None
              \/ RefreshToken.expires_at r <= now Scenario.registered)
   <-> exists w',
         run (AuthController.refresh (Scenario.request (Scenario.presenting "guess")))
             Scenario.registered
         = (w', Normal (mkResponse 401
                          (ErrorBody "Invalid refresh token" None "INVALID_REFRESH_TOKEN"))))
  /\ (forall w',
        run (AuthController.refresh (Scenario.request (Scenario.presenting "guess")))
            Scenario.registered
        = (w', Normal (mkResponse 401
                         (ErrorBody "Invalid refresh token" None "INVALID_REFRESH_TOKEN"))) ->
        w' = tick (db Scenario.registered) Scenario.registered).
Proof.
  exact (@refresh_refuses_iff_no_active_record Demo.runtime
           (Scenario.request (Scenario.presenting "guess")) _ Scenario.registered eq_refl).
Defined.

End RefreshRefusalWitness.

(** ** The two middlewares *)

Section Middlewares.
Context {RT : Runtime}.

Lemma run_optionalAuth (req : Request) (w : World) :
  run (optionalAuth req) w =
  match bearer req with
  | None => (w, Normal req)
  | Some token =>
      match jwt.verify_at (now w / 1000) token JWT_SECRET access_options with
      | Abrupt _ => (tick (db w) w, Normal req)
      | Normal payload =>
          (tick (db w) (tick (db w) w),
           Normal match UserModel.row_by_id (Jose.userId payload) (db w) with
                  | None => req
                  | Some u => attach req u
                  end)
      end
  end.
Proof.
  unfold optionalAuth. rewrite run_try_catch.
  destruct (bearer req) as [token |]; [| reflexivity].
  rewrite run_bind, run_verifyAccessToken.
  destruct (jwt.verify_at _ _ _ _) as [payload | e]; [| reflexivity].
  rewrite run_bind. unfold UserModel.findById. rewrite run_query. simpl.
  destruct (UserModel.row_by_id _ _); reflexivity.
Qed.

(** [optionalAuth] does what [requireAuth] does, minus the refusals: it
    reads the clock and the users table the same way, attaches the
    identity exactly when [requireAuth] would have let the request
    through, and hands the request on unchanged otherwise.  Neither of
    the two writes to the database. *)
Theorem optionalAuth_agrees_with_requireAuth (req : Request) (w : World) :
  run (optionalAuth req) w
  = (fst (run (requireAuth req) w),
     Normal match snd (run (requireAuth req) w) with
            | Normal (inr req') => req'
            | _ => req
            end)
  /\ db (fst (run (requireAuth req) w)) = db w.
Proof.
  rewrite run_optionalAuth, run_requireAuth.
  destruct (bearer req) as [token |]; [| split; reflexivity].
  destruct (jwt.verify_at _ _ _ _) as [payload | e]; [| split; reflexivity].
  destruct (UserModel.row_by_id _ _); split; reflexivity.
Qed.

(** The three refusals of [requireAuth].  A request without an
    Authorization header, or with one that does not start with
    ["Bearer "], is answered 401 MISSING_TOKEN before the clock is read.
    A token that fails any check of the verification, expiry included,
    is answered 401 INVALID_TOKEN, and the database is not consulted.
    A token that verifies for an id the users table does not hold is
    answered 401 USER_NOT_FOUND. *)
Theorem requireAuth_refusals (req : Request) (w : World) :
  ((forall token, authorization req <> Some ("Bearer " ++ token)%string) ->
   run (requireAuth req) w
   = (w, Normal (inl (mkResponse 401 (ErrorBody "Access token required" None "MISSING_TOKEN")))))
  /\ (forall token e,
        authorization req = Some ("Bearer " ++ token)%string ->
        jwt.verify_at (now w / 1000) token JWT_SECRET access_options = Abrupt e ->
        run (requireAuth req) w
        = (tick (db w) w,
           Normal (inl (mkResponse 401
                          (ErrorBody "Invalid or expired token" None "INVALID_TOKEN")))))
  /\ (forall token payload,
        authorization req = Some ("Bearer " ++ token)%string ->
        jwt.verify_at (now w / 1000) token JWT_SECRET access_options = Normal payload ->
        UserModel.row_by_id (Jose.userId payload) (db w) = None ->
        run (requireAuth req) w
        = (tick (db w) (tick (db w) w),
           Normal (inl (mkResponse 401 (ErrorBody "User not found" None "USER_NOT_FOUND"))))).
Proof.
  rewrite run_requireAuth. split; [| split].
  - intro Hnone. destruct (bearer req) as [token |] eqn:Eb; [| reflexivity].
    apply bearer_spec in Eb. contradiction (Hnone token).
  - intros token e Hh Hv. apply bearer_spec in Hh. rewrite Hh, Hv. reflexivity.
  - intros token payload Hh Hv Hu. apply bearer_spec in Hh. rewrite Hh, Hv, Hu. reflexivity.
Qed.

End Middlewares.

(** ** From a login to an authenticated request *)

Section IssuedAccessTokens.
Context {RT : Runtime}.

(** The access token in the answer of the issuing handlers. *)
Lemma run_issue_tokens_accessToken
    (status : Z) (message : string) (u : User.t) (w : World) (lifetime expiryMs : Z) :
  existsb (fun u' => (User.id u' =? User.id u)%Z) (users (db w)) = true ->
  ms JWT_EXPIRES_IN = Some lifetime ->
  parseExpiry REFRESH_TOKEN_EXPIRES_IN = Normal expiryMs ->
  exists w',
    run (AuthController.issue_tokens status message u) w
    = (w', Normal (mkResponse status
                     (AuthBody message
                        (jws_encode (jwt.signed (User.id u) (User.email u) JWT_SECRET
                                       sign_options (now w / 1000) lifetime))
                        (entropy (draws w))
                        (mkAuthUser (User.id u) (User.email u))))).
Proof.
  intros Hfk Hms Hpe. unfold AuthController.issue_tokens.
  rewrite run_bind, run_generateAccessToken, Hms.
  rewrite run_bind. unfold generateRefreshToken, random_bytes_hex, hashRefreshToken.
  cbn [run bind]. rewrite run_bind, run_getRefreshTokenExpiry, Hpe.
  rewrite run_bind. unfold RefreshTokenModel.create. rewrite run_query.
  unfold RefreshTokenModel.create_sql. cbn [db tick draw ticks draws].
  rewrite Hfk. cbn [fst snd run in_userId in_email].
  eexists. reflexivity.
Qed.


End IssuedAccessTokens.

Section IssuedAccessTokensWitness.
#[local] Existing Instance Demo.runtime.


End IssuedAccessTokensWitness.

(** ** POST /logout as routed *)

Section LogoutRoute.
Context {RT : Runtime}.

Lemma revokeAllForUser_spares_others (userId : Z) (t : Date) (l : list RefreshToken.t) :
  filter (fun r => negb (RefreshToken.user_id r =? userId)%Z)
    (RefreshTokenModel.update_revoked_at
       (fun r => (RefreshToken.user_id r =? userId)%Z
                 && RefreshTokenModel.is_null (RefreshToken.revoked_at r)) t l)
  = filter (fun r => negb (RefreshToken.user_id r =? userId)%Z) l.
Proof.
  unfold RefreshTokenModel.update_revoked_at.
  induction l as [| x l IH]; [reflexivity |]. cbn [map filter].
  destruct (RefreshToken.user_id x =? userId)%Z eqn:E; cbn [andb].
  - destruct (RefreshTokenModel.is_null (RefreshToken.revoked_at x));
      cbn [RefreshTokenModel.set_revoked_at RefreshToken.user_id]; rewrite E; exact IH.
  - rewrite E. cbn [negb]. f_equal. exact IH.
Qed.

(** The route with an access token that verifies, for an account that
    exists, and no refresh secret in the body: the answer is 200, every
    refresh-token row of that account is revoked, and the rows of the
    other accounts, like the users table, are left as they were. *)
Theorem post_logout_by_access_token
    (req : Request) (token : string) (payload : Jose.Claims) (u : User.t) (v : JsValue)
    (w : World) :
  authorization req = Some ("Bearer " ++ token)%string ->
  jwt.verify_at (now w / 1000) token JWT_SECRET access_options = Normal payload ->
  UserModel.row_by_id (Jose.userId payload) (db w) = Some u ->
  js_get (body req) "refreshToken" = Normal v ->
  truthy v = false ->
  exists w1,
    run (post_logout req) w
    = (w1, Normal (mkResponse 200 (MessageBody "Logout successful")))
    /\ users (db w1) = users (db w)
    /\ (forall x, In x (refresh_tokens (db w1)) ->
                  RefreshToken.user_id x = User.id u ->
                  RefreshToken.revoked_at x <> None)
    /\ filter (fun r => negb (RefreshToken.user_id r =? User.id u)%Z) (refresh_tokens (db w1))
       = filter (fun r => negb (RefreshToken.user_id r =? User.id u)%Z)
           (refresh_tokens (db w)).
Proof.
  intros Hauth Hverify Hrow Hbody Hfalsy.
  apply bearer_spec in Hauth.
  unfold post_logout. rewrite run_bind, run_optionalAuth, Hauth, Hverify, Hrow.
  rewrite run_logout. cbn [attach body user auth_id]. rewrite Hbody. cbv zeta.
  rewrite Hfalsy. eexists. split; [reflexivity |].
  cbn [db tick RefreshTokenModel.revokeAllForUser_sql fst with_refresh_tokens users
       refresh_tokens].
  split; [reflexivity |]. split.
  - intros x Hx Hxu.
    eapply (@revokeAllForUser_revokes (User.id u) _ (db w)); [| exact Hxu].
    exact Hx.
  - apply revokeAllForUser_spares_others.
Qed.

(** The route never refuses: a request that [requireAuth] would turn
    away (no token, a token that fails verification, or one for an
    account that is gone), with no refresh secret in its body, is still
    answered 200 "Logout successful", and nothing was written. *)
Theorem post_logout_without_credentials (req : Request) (v : JsValue) (w : World) :
  user req = None ->
  (forall req', snd (run (requireAuth req) w) <> Normal (inr req')) ->
  js_get (body req) "refreshToken" = Normal v ->
  truthy v = false ->
  exists w1,
    run (post_logout req) w
    = (w1, Normal (mkResponse 200 (MessageBody "Logout successful")))
    /\ db w1 = db w.
Proof.
  intros Hfresh Hrefused Hbody Hfalsy.
  rewrite run_requireAuth in Hrefused.
  unfold post_logout. rewrite run_bind, run_optionalAuth.
  assert (Hlogout : forall w0, db w0 = db w ->
            exists w1,
              run (AuthController.logout req) w0
              = (w1, Normal (mkResponse 200 (MessageBody "Logout successful")))
              /\ db w1 = db w).
  { intros w0 Hdb. rewrite run_logout, Hbody. cbv zeta. rewrite Hfalsy, Hfresh.
    eexists. split; [reflexivity | exact Hdb]. }
  destruct (bearer req) as [token |]; [| apply Hlogout; reflexivity].
  destruct (jwt.verify_at _ _ _ _) as [payload | e]; [| apply Hlogout; reflexivity].
  destruct (UserModel.row_by_id _ _) as [u |]; [| apply Hlogout; reflexivity].
  contradiction (Hrefused (attach req u)). reflexivity.
Qed.

End LogoutRoute.

Section LogoutRouteWitnesses.
#[local] Existing Instance Demo.runtime.

Lemma post_logout_by_access_token_witness :
  exists w1,
    run (post_logout
           (mkRequest (Some ("Bearer " ++ Scenario.accessTokenA)%string) (JsObject []) None))
        Scenario.logged_in
    = (w1, Normal (mkResponse 200 (MessageBody "Logout successful")))
    /\ users (db w1) = users (db Scenario.logged_in)
    /\ (forall x, In x (refresh_tokens (db w1)) ->
                  RefreshToken.user_id x = 1 ->
                  RefreshToken.revoked_at x <> None)
    /\ filter (fun r => negb (RefreshToken.user_id r =? 1)%Z) (refresh_tokens (db w1))
       = filter (fun r => negb (RefreshToken.user_id r =? 1)%Z)
           (refresh_tokens (db Scenario.logged_in)).
Proof.
  exact (@post_logout_by_access_token Demo.runtime
           (mkRequest (Some ("Bearer " ++ Scenario.accessTokenA)%string) (JsObject []) None)
           Scenario.accessTokenA _ Scenario.alice JsUndefined Scenario.logged_in
           eq_refl eq_refl eq_refl eq_refl eq_refl).
Defined.

Lemma post_logout_without_credentials_witness :
  exists w1,
    run (post_logout (Scenario.request (JsObject []))) Scenario.registered
    = (w1, Normal (mkResponse 200 (MessageBody "Logout successful")))
    /\ db w1 = db Scenario.registered.
Proof.
  refine (@post_logout_without_credentials Demo.runtime
            (Scenario.request (JsObject [])) JsUndefined Scenario.registered
            eq_refl _ eq_refl eq_refl).
  intros req' H. vm_compute in H. discriminate H.
Defined.

End LogoutRouteWitnesses.

(** ** The owner lookup of [refresh] on consistent tables *)

Section RefreshOwner.
Context {RT : Runtime}.

Lemma row_by_id_of_known_id (id : Z) (d : Db) :
  In id (map User.id (users d)) -> UserModel.row_by_id id d <> None.
Proof.
  unfold UserModel.row_by_id. intro Hin. apply in_map_iff in Hin.
  destruct Hin as (u & Hid & Hu).
  assert (Hf : In u (filter (fun u' => (User.id u' =? id)%Z) (users d))).
  { apply filter_In. split; [exact Hu | apply Z.eqb_eq; exact Hid]. }
  destruct (filter _ (users d)); [contradiction Hf | discriminate].
Qed.

(** On tables that satisfy the schema's constraints a [refresh] that
    runs undisturbed is never answered USER_NOT_FOUND: the foreign key
    of the record it found gives it an owner.  That answer takes a
    deletion between the two lookups. *)
Theorem refresh_finds_the_owner (req : Request) (w w1 : World) (r : Response) :
  consistent (db w) ->
  run (AuthController.refresh req) w = (w1, Normal r) ->
  res_code r <> Some "USER_NOT_FOUND".
Proof.
  intros Hc Hrun.
  destruct (Joi_validate AuthController.refreshSchema (body req)) as [details | value] eqn:Hjoi.
  { unfold AuthController.refresh in Hrun. rewrite Hjoi in Hrun. cbn in Hrun.
    injection Hrun as _ <-. discriminate. }
  rewrite (run_refresh _ w Hjoi) in Hrun.
  destruct (RefreshTokenModel.active_row _ _ _) as [storedToken |] eqn:Hfound.
  2:{ injection Hrun as _ <-. discriminate. }
  destruct (UserModel.row_by_id _ _) as [u |] eqn:Howner.
  - cbv zeta in Hrun.
    destruct (run (AuthController.issue_tokens _ _ _) _) as [w4 [r' | e]] eqn:Hissue.
    2:{ injection Hrun as _ <-. discriminate. }
    injection Hrun as _ <-.
    match type of Hissue with
    | run _ ?w3 = _ =>
        assert (Hfk : existsb (fun u' => (User.id u' =? User.id u)%Z) (users (db w3)) = true)
    end.
    { destruct (row_by_id_inv _ _ Howner) as [Hid Hex]. rewrite Hid. exact Hex. }
    pose proof (run_issue_tokens 200 "Token refreshed successfully" u _ Hfk) as Hspec.
    destruct (ms JWT_EXPIRES_IN); [destruct (parseExpiry REFRESH_TOKEN_EXPIRES_IN) |].
    + destruct Hspec as (w' & accessToken & createdAt & Hrun' & _).
      rewrite Hrun' in Hissue. injection Hissue as _ <-. discriminate.
    + destruct Hspec as (w' & e' & Hrun'). rewrite Hrun' in Hissue. discriminate Hissue.
    + destruct Hspec as (w' & e' & Hrun'). rewrite Hrun' in Hissue. discriminate Hissue.
  - exfalso. apply active_row_inv in Hfound. destruct Hfound as (Hin & _).
    pose proof (owners_exist Hc) as Hown. rewrite Forall_forall in Hown.
    exact (row_by_id_of_known_id _ _ (Hown _ Hin) Howner).
Qed.

End RefreshOwner.

Section RefreshOwnerWitness.
#[local] Existing Instance Demo.runtime.

Lemma refresh_finds_the_owner_witness :
  exists w1 r,
    run (AuthController.refresh (Scenario.request (Scenario.presenting Scenario.secretA)))
        Scenario.registered
    = (w1, Normal r)
    /\ status r = 200
    /\ res_code r <> Some "USER_NOT_FOUND".
Proof.
  eexists. eexists. split; [vm_compute; reflexivity |]. split; [reflexivity |].
  apply (@refresh_finds_the_owner Demo.runtime
           (Scenario.request (Scenario.presenting Scenario.secretA))
           Scenario.registered (fst Scenario.rotation)).
  - exact registered_consistent.
  - vm_compute. reflexivity.
Defined.

End RefreshOwnerWitness.

(** ** The statements no route calls *)

Section Housekeeping.
Context {RT : Runtime}.

(** A WHERE clause applied to what a stricter selection left. *)
Lemma filter_of_kept {A : Type} (wanted kept : A -> bool) (rows : list A) :
  (forall x, wanted x = true -> kept x = true) ->
  filter wanted (filter kept rows) = filter wanted rows.
Proof.
  intro Himp. induction rows as [| x rows IH]; [reflexivity |]. cbn [filter].
  destruct (kept x) eqn:Ek; cbn [filter].
  - rewrite IH. reflexivity.
  - destruct (wanted x) eqn:Ew; [| exact IH].
    rewrite (Himp x Ew) in Ek. discriminate Ek.
Qed.

Lemma deleted_and_kept {A : Type} (gone : A -> bool) (rows : list A) :
  Z.of_nat (List.length (filter gone rows))
  = Z.of_nat (List.length rows)
    - Z.of_nat (List.length (filter (fun x => negb (gone x)) rows)).
Proof.
  induction rows as [| x rows IH]; [reflexivity |]. cbn [filter].
  destruct (gone x); cbn [negb List.length]; lia.
Qed.

(** The sweep deletes the rows that are revoked or whose expiry lies
    before its NOW(), reports how many they were, and leaves the users
    alone.  No lookup made at that time or later can tell the
    difference: [findByTokenHash] and [findActiveByUserId] return what
    they would have returned without the sweep.  A row that expires at
    the very instant of the sweep stays, although no lookup returns it. *)
Theorem cleanupExpired_is_invisible (w : World) :
  exists w1 swept,
    run RefreshTokenModel.cleanupExpired w = (w1, Normal swept)
    /\ users (db w1) = users (db w)
    /\ swept = Z.of_nat (List.length (refresh_tokens (db w)))
               - Z.of_nat (List.length (refresh_tokens (db w1)))
    /\ (forall r,
          In r (refresh_tokens (db w1))
          <-> In r (refresh_tokens (db w))
              /\ RefreshToken.revoked_at r = None
              /\ now w <= RefreshToken.expires_at r)
    /\ (forall t, now w <= t ->
          (forall tokenHash,
              RefreshTokenModel.active_row tokenHash t (db w1)
              = RefreshTokenModel.active_row tokenHash t (db w))
          /\ (forall userId,
                snd (RefreshTokenModel.findActiveByUserId_sql userId t (db w1))
                = snd (RefreshTokenModel.findActiveByUserId_sql userId t (db w)))).
Proof.
  unfold RefreshTokenModel.cleanupExpired. rewrite run_query.
  unfold RefreshTokenModel.cleanupExpired_sql. cbn [fst snd].
  do 2 eexists. split; [reflexivity |].
  cbn [db tick with_refresh_tokens users refresh_tokens].
  split; [reflexivity |]. split; [apply deleted_and_kept |]. split.
  - intro r. rewrite filter_In, negb_true_iff, orb_false_iff, Z.ltb_ge, negb_false_iff.
    destruct (RefreshToken.revoked_at r); cbn [RefreshTokenModel.is_null];
      intuition (discriminate || auto).
  - intros t Ht. split.
    + intro tokenHash. unfold RefreshTokenModel.active_row. f_equal.
      apply filter_of_kept. intros x Hx. unfold RefreshTokenModel.active_with_hash in Hx.
      apply andb_true_iff in Hx. destruct Hx as [Hx Hexp].
      apply andb_true_iff in Hx. destruct Hx as [_ Hnull].
      apply Z.ltb_lt in Hexp. rewrite Hnull. cbn [negb]. rewrite orb_false_r.
      apply negb_true_iff. apply Z.ltb_ge. lia.
    + intro userId. cbn [RefreshTokenModel.findActiveByUserId_sql snd refresh_tokens].
      do 2 f_equal.
      apply filter_of_kept. intros x Hx. unfold RefreshTokenModel.active_of_user in Hx.
      apply andb_true_iff in Hx. destruct Hx as [Hx Hexp].
      apply andb_true_iff in Hx. destruct Hx as [_ Hnull].
      apply Z.ltb_lt in Hexp. rewrite Hnull. cbn [negb]. rewrite orb_false_r.
      apply negb_true_iff. apply Z.ltb_ge. lia.
Qed.

Lemma row_by_id_after_delete (id id' : Z) (l : list User.t) :
  hd_error (filter (fun u => (User.id u =? id')%Z)
              (filter (fun u => negb (User.id u =? id)%Z) l))
  = if (id' =? id)%Z then None
    else hd_error (filter (fun u => (User.id u =? id')%Z) l).
Proof.
  destruct (id' =? id)%Z eqn:E.
  - apply Z.eqb_eq in E. subst id'.
    rewrite filter_none; [reflexivity |].
    intros x Hx. apply filter_In in Hx. destruct Hx as [_ Hx].
    apply negb_true_iff in Hx. exact Hx.
  - rewrite filter_of_kept; [reflexivity |].
    intros x Hx. apply Z.eqb_eq in Hx. rewrite Hx, E. reflexivity.
Qed.

(** Deleting an account takes its refresh-token rows with it (the
    cascade of the foreign key) and nothing else: the other accounts and
    their rows stay as they were.  From then on an access token of the
    deleted account, however valid its signature and expiry, is answered
    401 USER_NOT_FOUND by [requireAuth]. *)
Theorem delete_ends_access (id : Z) (w : World) :
  exists w1,
    run (UserModel.delete id) w = (w1, Normal tt)
    /\ UserModel.row_by_id id (db w1) = None
    /\ (forall id', id' <> id ->
          UserModel.row_by_id id' (db w1) = UserModel.row_by_id id' (db w))
    /\ (forall r,
          In r (refresh_tokens (db w1))
          <-> In r (refresh_tokens (db w)) /\ RefreshToken.user_id r <> id)
    /\ (forall presented token payload w',
          db w' = db w1 ->
          authorization presented = Some ("Bearer " ++ token)%string ->
          jwt.verify_at (now w' / 1000) token JWT_SECRET access_options = Normal payload ->
          Jose.userId payload = id ->
          run (requireAuth presented) w'
          = (tick (db w') (tick (db w') w'),
             Normal (inl (mkResponse 401
                            (ErrorBody "User not found" None "USER_NOT_FOUND"))))).
Proof.
  unfold UserModel.delete. rewrite run_query.
  unfold UserModel.delete_sql. cbn [fst snd].
  eexists. split; [reflexivity |].
  assert (Hgone : UserModel.row_by_id id
                    (mkDb (filter (fun u => negb (User.id u =? id)%Z) (users (db w)))
                       (filter (fun r => negb (RefreshToken.user_id r =? id)%Z)
                          (refresh_tokens (db w)))
                       (users_id_seq (db w)) (refresh_tokens_id_seq (db w))) = None).
  { unfold UserModel.row_by_id. cbn [users].
    rewrite row_by_id_after_delete, Z.eqb_refl. reflexivity. }
  cbn [db tick]. split; [exact Hgone |]. split; [| split].
  - intros id' Hne. unfold UserModel.row_by_id. cbn [users].
    rewrite row_by_id_after_delete.
    apply Z.eqb_neq in Hne. rewrite Hne. reflexivity.
  - intro r. cbn [refresh_tokens]. rewrite filter_In, negb_true_iff, Z.eqb_neq. reflexivity.
  - intros presented token payload w' Hdb Hauth Hverify Hid.
    apply bearer_spec in Hauth.
    rewrite run_requireAuth, Hauth, Hverify, Hid, Hdb, Hgone. reflexivity.
Qed.

Lemma filter_map_same {A : Type} (f : A -> A) (p : A -> bool) (rows : list A) :
  (forall x, p (f x) = p x) ->
  filter p (map f rows) = map f (filter p rows).
Proof.
  intro Hp. induction rows as [| x rows IH]; [reflexivity |]. cbn [map filter].
  rewrite Hp. destruct (p x); cbn [map]; rewrite IH; reflexivity.
Qed.

Lemma hd_error_map {A B : Type} (f : A -> B) (rows : list A) :
  hd_error (map f rows) = option_map f (hd_error rows).
Proof. destruct rows; reflexivity. Qed.

(** A password change rewrites the digest and [updated_at] of the one
    account and leaves its id, email and creation time: the account is
    found as before, by id and by email.  It does not touch the refresh
    tokens, so the sessions that were open stay open.  From then on a
    login succeeds or fails by the new digest alone. *)
Theorem updatePassword_keeps_sessions (id : Z) (passwordHash : string) (w : World) :
  let changed u :=
    if (User.id u =? id)%Z
    then User.mk (User.id u) (User.email u) passwordHash (User.created_at u) (now w)
    else u in
  exists w1,
    run (UserModel.updatePassword id passwordHash) w = (w1, Normal tt)
    /\ refresh_tokens (db w1) = refresh_tokens (db w)
    /\ (forall id',
          UserModel.row_by_id id' (db w1) = option_map changed (UserModel.row_by_id id' (db w)))
    /\ (forall email,
          UserModel.row_by_email email (db w1)
          = option_map changed (UserModel.row_by_email email (db w)))
    /\ (forall req value u w',
          Joi_validate AuthController.loginSchema (body req) = inr value ->
          UserModel.row_by_email (value "email") (db w) = Some u ->
          User.id u = id ->
          db w' = db w1 ->
          argon2_verify passwordHash (value "password") = Normal false ->
          run (AuthController.login req) w'
          = (tick (db w') w',
             Normal (mkResponse 401
                       (ErrorBody "Invalid credentials" None "INVALID_CREDENTIALS")))).
Proof.
  intro changed.
  unfold UserModel.updatePassword. rewrite run_query.
  unfold UserModel.updatePassword_sql. cbn [fst snd].
  eexists. split; [reflexivity |]. cbn [db tick].
  fold changed.
  assert (Hid : forall id' d',
            users d' = map changed (users (db w)) ->
            UserModel.row_by_id id' d' = option_map changed (UserModel.row_by_id id' (db w))).
  { intros id' d' Hd. unfold UserModel.row_by_id. rewrite Hd.
    rewrite filter_map_same, hd_error_map; [reflexivity |].
    intro x. unfold changed. destruct (User.id x =? id)%Z; reflexivity. }
  assert (Hemail : forall email d',
            users d' = map changed (users (db w)) ->
            UserModel.row_by_email email d'
            = option_map changed (UserModel.row_by_email email (db w))).
  { intros email d' Hd. unfold UserModel.row_by_email. rewrite Hd.
    rewrite filter_map_same, hd_error_map; [reflexivity |].
    intro x. unfold changed. destruct (User.id x =? id)%Z; reflexivity. }
  split; [reflexivity |]. split; [| split].
  - intro id'. apply Hid. reflexivity.
  - intro email. apply Hemail. reflexivity.
  - intros req value u w' Hjoi Hfound Hu Hdb Hverify.
    assert (Husers : users (db w') = map changed (users (db w))).
    { rewrite Hdb. reflexivity. }
    rewrite (run_login_valid _ w' Hjoi).
    rewrite (Hemail (value "email") (db w') Husers), Hfound. cbn [option_map].
    unfold changed. rewrite Hu, Z.eqb_refl. cbn [User.password_hash].
    rewrite Hverify. reflexivity.
Qed.

End Housekeeping.

(** ** When issuing the tokens fails *)

Section IssuingFailure.
Context {RT : Runtime}.

(** With a lifetime that cannot be read, the shared tail of the issuing
    handlers throws before its INSERT. *)
Lemma run_issue_tokens_failure (status : Z) (message : string) (u : User.t) (w : World) :
  ms JWT_EXPIRES_IN = None
  \/ (exists e, parseExpiry REFRESH_TOKEN_EXPIRES_IN = Abrupt e) ->
  exists w' e,
    run (AuthController.issue_tokens status message u) w = (w', Abrupt e)
    /\ db w' = db w.
Proof.
  intro Hbad. unfold AuthController.issue_tokens.
  rewrite run_bind, run_generateAccessToken.
  destruct (ms JWT_EXPIRES_IN) as [m |].
  - destruct Hbad as [Hbad | [e Hbad]]; [discriminate Hbad |].
    rewrite run_bind. unfold generateRefreshToken, random_bytes_hex, hashRefreshToken.
    cbn [run bind]. rewrite run_bind, run_getRefreshTokenExpiry, Hbad.
    do 2 eexists. split; reflexivity.
  - do 2 eexists. split; reflexivity.
Qed.


End IssuingFailure.

Section IssuingFailureWitness.
#[local] Existing Instance weeks_runtime.


End IssuingFailureWitness.
